(** * Vertex correspondence and region painting engine

    A shallow embedding of the mesh decoder, the vertex canonicalizer, the
    region expander, the colour compositor and the upload pipeline of
    [frontend/src/App.tsx], together with the earlier single-file variant
    [frontend/src/SimpleApp.tsx], and the properties proved about them. *)

From stdpp Require Import gmap strings list fin_maps.
From Stdlib Require Import ZArith QArith Qabs Qround.
From Stdlib.Strings Require Import Byte Ascii.

Open Scope Z_scope.
Open Scope nat_scope.

(** ** The JavaScript runtime the code runs on *)

Module JS.

(** What an [Error] object is an instance of.  [Error] carries the message
    the program gave it; the other three are thrown by the engine. *)
Inductive exn : Type :=
  | RangeError
  | TypeError
  | SyntaxError
  | Error (message : string).

Inductive result (A : Type) : Type :=
  | Ok (a : A)
  | Throw (e : exn).
Arguments Ok {A} a.
Arguments Throw {A} e.

#[export] Instance result_ret : MRet result := fun A a => Ok a.
#[export] Instance result_bind : MBind result := fun A B f m =>
  match m with
  | Ok a => f a
  | Throw e => Throw e
  end.
#[export] Instance result_fmap : FMap result := fun A B f m =>
  match m with
  | Ok a => Ok (f a)
  | Throw e => Throw e
  end.

(** [THREE.Color]: three numeric channels. *)
Record Color (number : Type) : Type := mkColor { r : number; g : number; b : number }.
Arguments mkColor {number} r g b.
Arguments r {number} c.
Arguments g {number} c.
Arguments b {number} c.

(** The numeric side of the runtime and of three.js, which the code uses but
    does not define: IEEE-754 numbers, their decimal rendering, and the
    library calls on colours and geometries. *)
Class Runtime : Type := {
  number : Type;
  number_of_Z : Z → number;
  number_mul : number → number → number;
  number_div : number → number → number;
  (** [DataView.getFloat32]: the number denoted by a 32-bit pattern. *)
  float32_of_bits : Z → number;
  (** [Math.fround]: the single-precision number nearest to a number, which
      is what a [Float32Array] keeps of a number stored in it. *)
  fround : number → number;
  (** [Number.prototype.toFixed]. *)
  toFixed : number → nat → string;
  (** [new THREE.Color(x)] for a numeric and for a string argument. *)
  THREE_Color_of_number : number → Color number;
  THREE_Color_of_string : string → Color number;
  (** [geometry.center()], and [geometry.computeBoundingBox()] followed by
      [geometry.scale(s, s, s)] with [s] five over the largest extent of the
      box: what each leaves in the position array of the geometry, which it
      rewrites in place. *)
  THREE_center : list number → list number;
  THREE_scale_to_fit : list number → list number;
  (** The normal array after those calls, from the position and normal
      arrays before them. *)
  THREE_transform_normals : list number → list number → list number;
  (** The [message] of an error object the engine itself throws. *)
  engine_message : exn → string;
}.

(** *** Numbers as strings *)

Definition digitChar (d : N) : Ascii.ascii := Ascii.ascii_of_N (48 + d).

Fixpoint decimalFrom (fuel : nat) (n : N) (acc : string) : string :=
  match fuel with
  | O => acc
  | S fuel' =>
      let acc := String (digitChar (n mod 10)) acc in
      if (n / 10 =? 0)%N then acc else decimalFrom fuel' (n / 10) acc
  end.

(** [String(n)] of a natural number below [10^21]: its decimal digits. *)
Definition decimal (n : N) : string :=
  decimalFrom (S (N.to_nat (N.log2 n))) n EmptyString.

(** *** ArrayBuffer, Uint8Array and DataView *)

Abbreviation ArrayBuffer := (list byte).

Definition byteLength (buf : ArrayBuffer) : nat := length buf.

(** [new Uint8Array(buffer, byteOffset, length)] throws when the view does
    not fit in the buffer. *)
Definition Uint8Array (buf : ArrayBuffer) (byteOffset len : nat) : result (list byte) :=
  if decide (byteOffset + len ≤ byteLength buf)
  then Ok (take len (drop byteOffset buf))
  else Throw RangeError.

Definition String_fromCharCode (c : byte) : string :=
  String (Ascii.ascii_of_byte c) EmptyString.

Definition byte_to_Z (c : byte) : Z := Z.of_N (Byte.to_N c).

(** [view.getUint32(offset, true)]: four bytes, least significant first. *)
Definition getUint32 (buf : ArrayBuffer) (offset : nat) : result Z :=
  match buf !! offset, buf !! (offset + 1), buf !! (offset + 2), buf !! (offset + 3) with
  | Some b0, Some b1, Some b2, Some b3 =>
      Ok (Z.lor (byte_to_Z b0)
           (Z.lor (Z.shiftl (byte_to_Z b1) 8)
             (Z.lor (Z.shiftl (byte_to_Z b2) 16) (Z.shiftl (byte_to_Z b3) 24))))
  | _, _, _, _ => Throw RangeError
  end.

(** [view.getFloat32(offset, true)]. *)
Definition getFloat32 `{Runtime} (buf : ArrayBuffer) (offset : nat) : result number :=
  float32_of_bits <$> getUint32 buf offset.

(** [NaN], as the number the pattern of the quiet NaN denotes.  It is what
    a typed array keeps of [undefined]. *)
Definition NaN `{Runtime} : number := float32_of_bits 0x7FC00000.

(** The names of the members a plain object inherits from
    [Object.prototype], each of them a function or an object.  [object[key]]
    finds one of them when [key] is its name and the object has no property
    of its own with that name. *)
Definition Object_prototype : list string :=
  ["constructor"; "__defineGetter__"; "__defineSetter__"; "hasOwnProperty";
   "__lookupGetter__"; "__lookupSetter__"; "isPrototypeOf"; "propertyIsEnumerable";
   "toString"; "valueOf"; "__proto__"; "toLocaleString"].

(** [new Float32Array(n)]: [n] zeros. *)
Definition Float32Array `{Runtime} (n : nat) : list number :=
  replicate n (number_of_Z 0).

(** [array[index] = x] on a [Float32Array]: the element becomes the
    single-precision number nearest to [x]; a write past the end of the
    array is ignored, as list insertion ignores it. *)
Definition store `{Runtime} (array : list number) (index : nat) (x : number) : list number :=
  <[index := fround x]> array.

End JS.

Export JS.

(** ** three.js buffers *)

Module THREE.

Section Buffers.
Context `{Runtime}.

Record Vertex : Type := mkVertex { vx : number; vy : number; vz : number }.

(** [new THREE.BufferAttribute(array, 3)]: the flat array read three items at
    a time; [count] is the number of complete items and [getX(i)], [getY(i)]
    and [getZ(i)] are the components of item [i]. *)
Fixpoint items (array : list number) : list Vertex :=
  match array with
  | x :: y :: z :: rest => mkVertex x y z :: items rest
  | _ => []
  end.

Definition count (array : list number) : nat := length (items array).

Record BufferGeometry : Type := mkGeometry {
  attributes_position : list number;
  attributes_normal : list number;
  attributes_color : option (list number);
}.

Definition setColorAttribute (geometry : BufferGeometry) (colors : list number) : BufferGeometry :=
  {| attributes_position := attributes_position geometry;
     attributes_normal := attributes_normal geometry;
     attributes_color := Some colors |}.

(** [colors[idx * 3] = c.r; colors[idx * 3 + 1] = c.g; colors[idx * 3 + 2] = c.b]. *)
Definition writeColor (colors : list number) (idx : nat) (c : Color number) : list number :=
  store (store (store colors (idx * 3) (r c)) (idx * 3 + 1) (g c)) (idx * 3 + 2) (b c).

(** What a [Float32Array] holds of a colour written to it. *)
Definition stored (c : Color number) : Color number :=
  mkColor (fround (r c)) (fround (g c)) (fround (b c)).

(** The three channels stored for vertex [idx]. *)
Definition readColor (colors : list number) (idx : nat) : option (Color number) :=
  match colors !! (idx * 3), colors !! (idx * 3 + 1), colors !! (idx * 3 + 2) with
  | Some cr, Some cg, Some cb => Some (mkColor cr cg cb)
  | _, _, _ => None
  end.

End Buffers.

End THREE.

Export THREE.

(** ** [frontend/src/App.tsx] *)

Module App.

Section Code.
Context `{Runtime}.

(** *** [parseSTL] *)

(** The header test: the first five bytes, as characters. *)
Definition headerString (header : list byte) : string :=
  fold_left (fun s c => s +:+ String_fromCharCode c) header EmptyString.

(** One pass of the inner [for (let j = 0; j < 3; j++)] loop. *)
Definition readCorner (view : ArrayBuffer) (nx ny nz : number)
    (st : nat * nat * list number * list number)
  : result (nat * nat * list number * list number) :=
  let '(offset, vertexIndex, vertices, normals) := st in
  x ← getFloat32 view offset;
  y ← getFloat32 view (offset + 4);
  z ← getFloat32 view (offset + 8);
  let vertices := store (store (store vertices vertexIndex x) (vertexIndex + 1) y)
                        (vertexIndex + 2) z in
  let normals := store (store (store normals vertexIndex nx) (vertexIndex + 1) ny)
                       (vertexIndex + 2) nz in
  mret (offset + 12, vertexIndex + 3, vertices, normals).

(** The outer [for (let i = 0; i < triangleCount; i++)] loop, [n] passes left. *)
Fixpoint readTriangles (view : ArrayBuffer) (n : nat)
    (st : nat * nat * list number * list number)
  : result (list number * list number) :=
  match n with
  | O => let '(_, _, vertices, normals) := st in mret (vertices, normals)
  | S n' =>
      let '(offset, vertexIndex, vertices, normals) := st in
      nx ← getFloat32 view offset;
      ny ← getFloat32 view (offset + 4);
      nz ← getFloat32 view (offset + 8);
      st ← readCorner view nx ny nz (offset + 12, vertexIndex, vertices, normals);
      st ← readCorner view nx ny nz st;
      st ← readCorner view nx ny nz st;
      let '(offset, vertexIndex, vertices, normals) := st in
      readTriangles view n' (offset + 2, vertexIndex, vertices, normals)
  end.

Definition asciiMessage : string := "ASCII STL not supported yet. Please use binary STL.".

Definition parseSTL (arrayBuffer : ArrayBuffer) : result BufferGeometry :=
  header ← Uint8Array arrayBuffer 0 5;
  if decide (headerString header = "solid")
  then Throw (Error asciiMessage)
  else
    triangleCount ← getUint32 arrayBuffer 80;
    let n := Z.to_nat triangleCount in
    '(vertices, normals) ← readTriangles arrayBuffer n
                             (84, 0, Float32Array (n * 9), Float32Array (n * 9));
    mret (mkGeometry vertices normals None).

(** *** [segmentWithBackend] *)

Record PaintRegion : Type := mkRegion {
  id : string;
  name : string;
  color : string;
  visible : bool;
  vertex_indices : list nat;
  vertex_count : nat;
  vertex_percentage : option number;
}.

(** A region as the segmentation service sends it.  [vertex_indices] is
    [None] when the field is missing from the JSON. *)
Record BackendRegion : Type := mkBackendRegion {
  br_id : string;
  br_name : string;
  br_color : string;
  br_visible : bool;
  br_vertex_indices : option (list Z);
}.

Record BackendResponse : Type := mkResponse {
  resp_success : bool;
  resp_regions : option (list BackendRegion);
  resp_error : option string;
}.

(** What [fetch] followed by [response.json()] can come to, for a body that
    is not JSON or is an object of the shape of the [BackendResponse]
    interface, with [regions] and the [vertex_indices] of a region an array
    or missing. *)
Inductive FetchOutcome : Type :=
  | NetworkFailure
  | HttpResponse (ok : bool) (statusText : string) (json : option BackendResponse).

(** The [`${x.toFixed(d)},${y.toFixed(d)},${z.toFixed(d)}`] template. *)
Definition vertexKey (digits : nat) (v : Vertex) : string :=
  toFixed (vx v) digits +:+ "," +:+ toFixed (vy v) digits +:+ "," +:+ toFixed (vz v) digits.

(** First loop: [uniqueVertices] and [vertexArray]. *)
Definition addUnique (st : gmap string nat * list Vertex) (v : Vertex)
  : gmap string nat * list Vertex :=
  let key := vertexKey 6 v in
  match st.1 !! key with
  | Some _ => st
  | None => (<[key := length st.2]> st.1, st.2 ++ [v])
  end.

Definition uniqueTable (positions : list Vertex) : gmap string nat * list Vertex :=
  fold_left addUnique positions (∅, []).

(** Second loop: [reverseMapping], from position [i] on. *)
Fixpoint reverseFrom (uniqueVertices : gmap string nat) (i : nat) (positions : list Vertex)
    (reverseMapping : gmap Z (list nat)) : gmap Z (list nat) :=
  match positions with
  | [] => reverseMapping
  | v :: rest =>
      let key := vertexKey 6 v in
      reverseFrom uniqueVertices (S i) rest
        match uniqueVertices !! key with
        | Some backendIndex =>
            let k := Z.of_nat backendIndex in
            <[k := default [] (reverseMapping !! k) ++ [i]]> reverseMapping
        | None => reverseMapping
        end
  end.

Definition reverseTable (uniqueVertices : gmap string nat) (positions : list Vertex)
  : gmap Z (list nat) :=
  reverseFrom uniqueVertices 0 positions ∅.

(** The inner loop of the third: [geometryIndices] of one region. *)
Definition expandIndices (reverseMapping : gmap Z (list nat)) (indices : list Z) : list nat :=
  fold_left (fun geometryIndices backendIdx =>
               match reverseMapping !! backendIdx with
               | Some geoIndices => geometryIndices ++ geoIndices
               | None => geometryIndices
               end) indices [].

Definition percentage (part whole : nat) : number :=
  number_mul (number_div (number_of_Z (Z.of_nat part)) (number_of_Z (Z.of_nat whole)))
             (number_of_Z 100).

Definition mapRegion (reverseMapping : gmap Z (list nat)) (positionCount : nat)
    (region : BackendRegion) : result PaintRegion :=
  match br_vertex_indices region with
  | None => Throw TypeError
  | Some indices =>
      let geometryIndices := expandIndices reverseMapping indices in
      mret {| id := br_id region; name := br_name region; color := br_color region;
              visible := br_visible region;
              vertex_indices := geometryIndices;
              vertex_count := length geometryIndices;
              vertex_percentage := Some (percentage (length geometryIndices) positionCount) |}
  end.

Fixpoint mapRegions (reverseMapping : gmap Z (list nat)) (positionCount : nat)
    (backendRegions : list BackendRegion) : result (list PaintRegion) :=
  match backendRegions with
  | [] => mret []
  | region :: rest =>
      mapped ← mapRegion reverseMapping positionCount region;
      others ← mapRegions reverseMapping positionCount rest;
      mret (mapped :: others)
  end.

(** [data.error || 'Segmentation failed']. *)
Definition failureMessage (data : BackendResponse) : string :=
  match resp_error data with
  | Some msg => if decide (msg = "") then "Segmentation failed" else msg
  | None => "Segmentation failed"
  end.

Definition segmentWithBackend (oracle : list Vertex → FetchOutcome)
    (geometry : BufferGeometry) : result (list PaintRegion) :=
  let positions := items (attributes_position geometry) in
  let '(uniqueVertices, vertexArray) := uniqueTable positions in
  match oracle vertexArray with
  | NetworkFailure => Throw TypeError
  | HttpResponse ok statusText json =>
      if negb ok then Throw (Error ("Backend error: " +:+ statusText))
      else match json with
      | None => Throw SyntaxError
      | Some data =>
          if negb (resp_success data)
          then Throw (Error (failureMessage data))
          else match resp_regions data with
          | None => Throw TypeError
          | Some backendRegions =>
              mapRegions (reverseTable uniqueVertices positions) (length positions) backendRegions
          end
      end
  end.

(** *** Component state *)

Record ModelData : Type := mkModelData {
  md_name : string;
  md_size : nat;
  md_geometry : option BufferGeometry;
  md_vertexCount : option nat;
}.

Inductive BackendStatus : Type := checking | online | offline.

#[export] Instance BackendStatus_eq_dec : EqDecision BackendStatus.
Proof. solve_decision. Defined.

(** The [useState] cells of the component, and whether [meshRef.current] and
    [sceneRef.current] are set.  The mesh shares its geometry object with
    [modelData], so the geometry is kept once, in [modelData]. *)
Record AppState : Type := mkState {
  modelData : option ModelData;
  regions : list PaintRegion;
  selectedRegion : string;
  selectedColor : string;
  paintedColors : gmap string string;
  isLoading : bool;
  backendStatus : BackendStatus;
  error : string;
  meshRef : bool;
  sceneRef : bool;
}.

(** *** [applyColorsToGeometry] *)

(** What [paintedColors[region.id] || region.color] evaluates to: a string,
    or a member that [paintedColors], a plain object, inherits from
    [Object.prototype]. *)
Inductive ColorValue : Type :=
  | ColorString (s : string)
  | PrototypeMember (name : string).

(** [paintedColors[region.id] || region.color]: the empty string is falsy,
    an inherited member is truthy. *)
Definition colorHexOf (painted : gmap string string) (region : PaintRegion) : ColorValue :=
  match painted !! id region with
  | Some override =>
      if decide (override = "") then ColorString (color region) else ColorString override
  | None =>
      if decide (id region ∈ Object_prototype) then PrototypeMember (id region)
      else ColorString (color region)
  end.

(** [new THREE.Color(value)]: the constructor makes the colour white and
    sets it from a colour, a number or a string; any other value leaves it
    white. *)
Definition THREE_Color (value : ColorValue) : Color number :=
  match value with
  | ColorString s => THREE_Color_of_string s
  | PrototypeMember _ => mkColor (number_of_Z 1) (number_of_Z 1) (number_of_Z 1)
  end.

Definition fillDefault (vertexCount : nat) (defaultColor : Color number) : list number :=
  fold_left (fun colors i => writeColor colors i defaultColor)
            (seq 0 vertexCount) (Float32Array (vertexCount * 3)).

Definition paintIndices (vertexCount : nat) (c : Color number)
    (indices : list nat) (colors : list number) : list number :=
  fold_left (fun colors idx =>
               if decide (idx < vertexCount) then writeColor colors idx c else colors)
            indices colors.

Definition paintRegion (vertexCount : nat) (painted : gmap string string)
    (colors : list number) (region : PaintRegion) : list number :=
  if negb (visible region) then colors
  else paintIndices vertexCount (THREE_Color (colorHexOf painted region))
                    (vertex_indices region) colors.

(** The buffer [applyColorsToGeometry] builds before it stores it. *)
Definition composeColors (vertexCount : nat) (regionList : list PaintRegion)
    (painted : gmap string string) : list number :=
  fold_left (paintRegion vertexCount painted) regionList
            (fillDefault vertexCount (THREE_Color_of_number (number_of_Z 0x808080))).

Definition applyColorsToGeometry (st : AppState) : AppState :=
  match modelData st with
  | Some md =>
      match md_geometry md with
      | Some geometry =>
          if negb (meshRef st) then st
          else
            let vertexCount := count (attributes_position geometry) in
            let colors := composeColors vertexCount (regions st) (paintedColors st) in
            {| modelData := Some {| md_name := md_name md; md_size := md_size md;
                                    md_geometry := Some (setColorAttribute geometry colors);
                                    md_vertexCount := md_vertexCount md |};
               regions := regions st; selectedRegion := selectedRegion st;
               selectedColor := selectedColor st; paintedColors := paintedColors st;
               isLoading := isLoading st; backendStatus := backendStatus st;
               error := error st; meshRef := meshRef st; sceneRef := sceneRef st |}
      | None => st
      end
  | None => st
  end.

(** *** State updates *)

Inductive Action : Type :=
  | SetIsLoading (loading : bool)
  | SetError (message : string)
  | SetRegions (regionList : list PaintRegion)
  | SetMeshRef
  | SetModelData (md : ModelData)
  | SetSelectedRegion (regionId : string)
  | SetPaintedColors (painted : gmap string string).

Definition apply (st : AppState) (a : Action) : AppState :=
  match a with
  | SetIsLoading loading =>
      {| modelData := modelData st; regions := regions st;
         selectedRegion := selectedRegion st; selectedColor := selectedColor st;
         paintedColors := paintedColors st; isLoading := loading;
         backendStatus := backendStatus st; error := error st;
         meshRef := meshRef st; sceneRef := sceneRef st |}
  | SetError message =>
      {| modelData := modelData st; regions := regions st;
         selectedRegion := selectedRegion st; selectedColor := selectedColor st;
         paintedColors := paintedColors st; isLoading := isLoading st;
         backendStatus := backendStatus st; error := message;
         meshRef := meshRef st; sceneRef := sceneRef st |}
  | SetRegions regionList =>
      {| modelData := modelData st; regions := regionList;
         selectedRegion := selectedRegion st; selectedColor := selectedColor st;
         paintedColors := paintedColors st; isLoading := isLoading st;
         backendStatus := backendStatus st; error := error st;
         meshRef := meshRef st; sceneRef := sceneRef st |}
  | SetMeshRef =>
      {| modelData := modelData st; regions := regions st;
         selectedRegion := selectedRegion st; selectedColor := selectedColor st;
         paintedColors := paintedColors st; isLoading := isLoading st;
         backendStatus := backendStatus st; error := error st;
         meshRef := true; sceneRef := sceneRef st |}
  | SetModelData md =>
      {| modelData := Some md; regions := regions st;
         selectedRegion := selectedRegion st; selectedColor := selectedColor st;
         paintedColors := paintedColors st; isLoading := isLoading st;
         backendStatus := backendStatus st; error := error st;
         meshRef := meshRef st; sceneRef := sceneRef st |}
  | SetSelectedRegion regionId =>
      {| modelData := modelData st; regions := regions st;
         selectedRegion := regionId; selectedColor := selectedColor st;
         paintedColors := paintedColors st; isLoading := isLoading st;
         backendStatus := backendStatus st; error := error st;
         meshRef := meshRef st; sceneRef := sceneRef st |}
  | SetPaintedColors painted =>
      {| modelData := modelData st; regions := regions st;
         selectedRegion := selectedRegion st; selectedColor := selectedColor st;
         paintedColors := painted; isLoading := isLoading st;
         backendStatus := backendStatus st; error := error st;
         meshRef := meshRef st; sceneRef := sceneRef st |}
  end.

Definition run (st : AppState) (actions : list Action) : AppState :=
  fold_left apply actions st.

(** *** [handleFileUpload] *)

Record File : Type := mkFile { file_name : string; file_bytes : ArrayBuffer }.

Definition message (e : exn) : string :=
  match e with
  | Error m => m
  | _ => engine_message e
  end.

(** From [parseSTL] to the second [geometry.center()]. *)
Definition prepareGeometry (file : File) : result BufferGeometry :=
  geometry ← parseSTL (file_bytes file);
  mret {| attributes_position :=
            THREE_center (THREE_scale_to_fit (THREE_center (attributes_position geometry)));
          attributes_normal :=
            THREE_transform_normals (attributes_position geometry) (attributes_normal geometry);
          attributes_color := attributes_color geometry |}.

(** The colours the handler gives the new geometry before it creates the
    mesh: light grey, then every region's own colour. *)
Definition initialColors (vertexCount : nat) (visibleRegions : list PaintRegion) : list number :=
  fold_left (fun colors region =>
               paintIndices vertexCount (THREE_Color_of_string (color region))
                            (vertex_indices region) colors)
            visibleRegions
            (fillDefault vertexCount (THREE_Color_of_number (number_of_Z 0xcccccc))).

Definition makeVisible (region : PaintRegion) : PaintRegion :=
  {| id := id region; name := name region; color := color region; visible := true;
     vertex_indices := vertex_indices region; vertex_count := vertex_count region;
     vertex_percentage := vertex_percentage region |}.

(** The [try] block from the point where [segmentWithBackend] has settled,
    with its [catch] and [finally]. *)
Definition finishUpload (st : AppState) (file : File) (geometry : BufferGeometry)
    (segmented : result (list PaintRegion)) : list Action :=
  match segmented with
  | Throw err => [SetError (message err); SetIsLoading false]
  | Ok backendRegions =>
      let visibleRegions := map makeVisible backendRegions in
      let vertexCount := count (attributes_position geometry) in
      let geometry := setColorAttribute geometry (initialColors vertexCount visibleRegions) in
      [SetRegions visibleRegions]
      ++ (if sceneRef st then [SetMeshRef] else [])
      ++ [SetModelData {| md_name := file_name file;
                          md_size := byteLength (file_bytes file);
                          md_geometry := Some geometry;
                          md_vertexCount := Some vertexCount |}]
      ++ match visibleRegions with
         | first :: _ => [SetSelectedRegion (id first)]
         | [] => []
         end
      ++ [SetPaintedColors ∅; SetIsLoading false]
  end.

(** The state updates of one call, in order.  [file] is [None] when the
    change event carries no file. *)
Definition handleFileUpload (oracle : list Vertex → FetchOutcome) (st : AppState)
    (file : option File) : list Action :=
  match file with
  | None => []
  | Some file =>
      [SetIsLoading true; SetError ""]
      ++ match prepareGeometry file with
         | Throw err => [SetError (message err); SetIsLoading false]
         | Ok geometry => finishUpload st file geometry (segmentWithBackend oracle geometry)
         end
  end.

(** *** The other handlers *)

Definition handleColorSelect (regionId colour : string) (st : AppState) : AppState :=
  apply st (SetPaintedColors (<[regionId := colour]> (paintedColors st))).

Definition toggleRegion (regionId : string) (r : PaintRegion) : PaintRegion :=
  if decide (id r = regionId)
  then {| id := id r; name := name r; color := color r; visible := negb (visible r);
          vertex_indices := vertex_indices r; vertex_count := vertex_count r;
          vertex_percentage := vertex_percentage r |}
  else r.

Definition toggleRegionVisibility (regionId : string) (st : AppState) : AppState :=
  apply st (SetRegions (map (toggleRegion regionId) (regions st))).

Definition resetColors (st : AppState) : AppState :=
  apply st (SetPaintedColors ∅).

(** *** The file inputs the component renders *)

Record FileInput : Type := mkInput { input_label : string; input_disabled : bool }.

Definition uploadInputs (st : AppState) : list FileInput :=
  match modelData st with
  | None =>
      [ {| input_label := "Upload STL Model";
           input_disabled := isLoading st || negb (bool_decide (backendStatus st = online)) |} ]
  | Some _ =>
      [ {| input_label := "New Model"; input_disabled := false |} ]
  end.

(** *** The component between events

    A call of [handleFileUpload] is suspended at [await fetch]; until the
    response arrives the request is outstanding. *)

Record Pending : Type := mkPending { pending_file : File; pending_geometry : BufferGeometry }.

Record Session : Type := mkSession { ui : AppState; outstanding : list Pending }.

(** A change event of a rendered input that is not disabled: the handler runs
    up to the request. *)
Definition beginUpload (file : File) (s : Session) : Session :=
  let st := run (ui s) [SetIsLoading true; SetError ""] in
  match prepareGeometry file with
  | Throw err =>
      {| ui := run st [SetError (message err); SetIsLoading false];
         outstanding := outstanding s |}
  | Ok geometry =>
      {| ui := st; outstanding := outstanding s ++ [mkPending file geometry] |}
  end.

(** The response to the oldest outstanding request: the handler runs on. *)
Definition receive (outcome : FetchOutcome) (s : Session) : Session :=
  match outstanding s with
  | [] => s
  | p :: rest =>
      {| ui := run (ui s)
                 (finishUpload (ui s) (pending_file p) (pending_geometry p)
                    (segmentWithBackend (fun _ => outcome) (pending_geometry p)));
         outstanding := rest |}
  end.

Inductive Event : Type :=
  | Change (input : FileInput) (file : File)
  | Respond (outcome : FetchOutcome).

(** The browser delivers a change event only from an input that is on the
    page and not disabled. *)
Inductive step : Session → Event → Session → Prop :=
  | step_change s input file :
      input ∈ uploadInputs (ui s) →
      input_disabled input = false →
      step s (Change input file) (beginUpload file s)
  | step_respond s outcome :
      outstanding s ≠ [] →
      step s (Respond outcome) (receive outcome s).

(** *** [checkBackendStatus] *)

Definition setBackendStatus (status : BackendStatus) (st : AppState) : AppState :=
  {| modelData := modelData st; regions := regions st;
     selectedRegion := selectedRegion st; selectedColor := selectedColor st;
     paintedColors := paintedColors st; isLoading := isLoading st;
     backendStatus := status; error := error st;
     meshRef := meshRef st; sceneRef := sceneRef st |}.

(** [health] is [response.ok] of the request to the health address, and
    [None] when [fetch] rejects. *)
Definition checkBackendStatus (health : option bool) (st : AppState) : AppState :=
  match health with
  | Some true => setBackendStatus online st
  | Some false => setBackendStatus offline st
  | None =>
      apply (setBackendStatus offline st)
            (SetError "Backend is not running. Please run: python backend.py")
  end.

(** *** The colour palette *)

Definition PAINT_COLORS : list string :=
  ["#8B4513"; "#C0C0C0"; "#FFD700"; "#4682B4"; "#8B0000"; "#228B22";
   "#4B0082"; "#FF6347"; "#2F4F4F"; "#F0E68C"; "#800080"; "#000000"].

(** The buttons of the palette: one for each colour, rendered with the
    control panel when [selectedRegion] is not the empty string. *)
Definition paletteButtons (st : AppState) : list string :=
  match modelData st with
  | Some _ => if decide (selectedRegion st = "") then [] else PAINT_COLORS
  | None => []
  end.

Definition setSelectedColor (colour : string) (st : AppState) : AppState :=
  {| modelData := modelData st; regions := regions st;
     selectedRegion := selectedRegion st; selectedColor := colour;
     paintedColors := paintedColors st; isLoading := isLoading st;
     backendStatus := backendStatus st; error := error st;
     meshRef := meshRef st; sceneRef := sceneRef st |}.

(** The [onClick] of a palette button:
    [setSelectedColor(color); handleColorSelect(selectedRegion, color)]. *)
Definition paletteClick (colour : string) (st : AppState) : AppState :=
  handleColorSelect (selectedRegion st) colour (setSelectedColor colour st).

(** *** [exportColorScheme] *)

Record SchemeRegion : Type := mkSchemeRegion {
  scheme_name : string;
  scheme_color : ColorValue;
  scheme_vertices : nat;
  scheme_percentage : option number;
}.

(** The object that is serialized, and the [download] name of the link.
    [now] is [new Date().toISOString()]; [scheme_model] is [None] when
    [modelData?.name] is undefined. *)
Record ColorScheme : Type := mkScheme {
  scheme_model : option string;
  scheme_timestamp : string;
  scheme_regions : list SchemeRegion;
  scheme_download : string;
}.

Definition exportColorScheme (now : string) (st : AppState) : ColorScheme :=
  {| scheme_model := md_name <$> modelData st;
     scheme_timestamp := now;
     scheme_regions :=
       map (fun r => {| scheme_name := name r;
                        scheme_color := colorHexOf (paintedColors st) r;
                        scheme_vertices := vertex_count r;
                        scheme_percentage := vertex_percentage r |})
           (regions st);
     scheme_download :=
       match modelData st with
       | Some md => if decide (md_name md = "") then "miniature" else md_name md
       | None => "miniature"
       end +:+ "_colors.json" |}.

End Code.

End App.

(** ** [frontend/src/SimpleApp.tsx] *)

Module SimpleApp.

Section Code.
Context `{Runtime}.

(** *** [parseSTL] *)

Definition readCorner (view : ArrayBuffer) (st : nat * nat * list number)
  : result (nat * nat * list number) :=
  let '(offset, vertexIndex, vertices) := st in
  x ← getFloat32 view offset;
  y ← getFloat32 view (offset + 4);
  z ← getFloat32 view (offset + 8);
  mret (offset + 12, vertexIndex + 3,
        store (store (store vertices vertexIndex x) (vertexIndex + 1) y) (vertexIndex + 2) z).

Fixpoint readTriangles (view : ArrayBuffer) (n : nat) (st : nat * nat * list number)
  : result (list number) :=
  match n with
  | O => mret st.2
  | S n' =>
      let '(offset, vertexIndex, vertices) := st in
      st ← readCorner view (offset + 12, vertexIndex, vertices);
      st ← readCorner view st;
      st ← readCorner view st;
      let '(offset, vertexIndex, vertices) := st in
      readTriangles view n' (offset + 2, vertexIndex, vertices)
  end.

Definition parseSTL (arrayBuffer : ArrayBuffer) : result (list number) :=
  triangleCount ← getUint32 arrayBuffer 80;
  let n := Z.to_nat triangleCount in
  readTriangles arrayBuffer n (84, 0, Float32Array (n * 9)).

(** *** [handleFileUpload] *)

(** First loop: [uniqueVerts] and [vertArray]. *)
Definition addUnique (st : gset string * list Vertex) (v : Vertex) : gset string * list Vertex :=
  let key := App.vertexKey 4 v in
  if decide (key ∈ st.1) then st else ({[key]} ∪ st.1, st.2 ++ [v]).

Definition uniqueTable (positions : list Vertex) : gset string * list Vertex :=
  fold_left addUnique positions (∅, []).

(** Second loop: [uniqueToFull], from vertex [vertexIndex] on. *)
Fixpoint uniqueToFullFrom (vertexIndex : nat) (positions : list Vertex)
    (uniqueToFull : gmap string (list nat)) : gmap string (list nat) :=
  match positions with
  | [] => uniqueToFull
  | v :: rest =>
      let key := App.vertexKey 4 v in
      uniqueToFullFrom (S vertexIndex) rest
        (<[key := default [] (uniqueToFull !! key) ++ [vertexIndex]]> uniqueToFull)
  end.

Definition uniqueToFullTable (positions : list Vertex) : gmap string (list nat) :=
  uniqueToFullFrom 0 positions ∅.

Definition regionColorMap : gmap string Z :=
  {[ "base" := 0x8B4513%Z; "legs" := 0x4682B4%Z; "torso" := 0xC0C0C0%Z;
     "arms" := 0xCD853F%Z; "head" := 0xF5DEB3%Z ]}.

(** [regionColorMap[region.id] || new THREE.Color(Math.random() * 0xffffff)].
    [random k] is what the [k]-th call of [Math.random] returns; the result
    carries the number of calls made so far.  [regionColorMap] is a plain
    object: for the name of a member of [Object.prototype] the lookup gives
    that member, which is truthy, and [color.r], [color.g] and [color.b]
    are undefined, so that the buffer is given [NaN]. *)
Definition regionColor (random : nat → number) (calls : nat) (regionId : string)
  : Color number * nat :=
  match regionColorMap !! regionId with
  | Some hex => (THREE_Color_of_number (number_of_Z hex), calls)
  | None =>
      if decide (regionId ∈ Object_prototype) then (mkColor NaN NaN NaN, calls)
      else (THREE_Color_of_number (number_mul (random calls) (number_of_Z 0xffffff)), S calls)
  end.

(** [vertArray[backendIdx]]: [undefined] unless the index is one of the array. *)
Definition arrayGet {A} (array : list A) (index : Z) : option A :=
  if decide (0 ≤ index)%Z then array !! Z.to_nat index else None.

(** The body of [region.vertex_indices.forEach]. *)
Definition paintBackendIndex (vertArray : list Vertex) (uniqueToFull : gmap string (list nat))
    (c : Color number) (colors : list number) (backendIdx : Z) : result (list number) :=
  if decide (backendIdx < Z.of_nat (length vertArray))%Z then
    match arrayGet vertArray backendIdx with
    | None => Throw TypeError
    | Some vert =>
        match uniqueToFull !! App.vertexKey 4 vert with
        | Some fullIndices => mret (fold_left (fun colors idx => writeColor colors idx c) fullIndices colors)
        | None => mret colors
        end
    end
  else mret colors.

Fixpoint paintBackendIndices (vertArray : list Vertex) (uniqueToFull : gmap string (list nat))
    (c : Color number) (indices : list Z) (colors : list number) : result (list number) :=
  match indices with
  | [] => mret colors
  | backendIdx :: rest =>
      colors ← paintBackendIndex vertArray uniqueToFull c colors backendIdx;
      paintBackendIndices vertArray uniqueToFull c rest colors
  end.

(** The body of [data.regions.forEach], and the loop. *)
Fixpoint paintRegions (random : nat → number) (vertArray : list Vertex)
    (uniqueToFull : gmap string (list nat)) (regionList : list App.BackendRegion)
    (calls : nat) (colors : list number) : result (list number) :=
  match regionList with
  | [] => mret colors
  | region :: rest =>
      let '(c, calls) := regionColor random calls (App.br_id region) in
      match App.br_vertex_indices region with
      | None => Throw TypeError
      | Some indices =>
          colors ← paintBackendIndices vertArray uniqueToFull c indices colors;
          paintRegions random vertArray uniqueToFull rest calls colors
      end
  end.

(** The colouring step: from [const colors = new Float32Array(vertices.length)]
    to the end of [data.regions.forEach].  [vertices] is the array as the
    geometry calls before it left it; [vertArray] was filled before them. *)
Definition colorStep (random : nat → number) (vertices : list number)
    (vertArray : list Vertex) (regionList : list App.BackendRegion) : result (list number) :=
  let colors :=
    fold_left (fun colors i => writeColor colors i (THREE_Color_of_number (number_of_Z 0x808080)))
              (seq 0 (length vertices / 3)) (Float32Array (length vertices)) in
  paintRegions random vertArray (uniqueToFullTable (items vertices)) regionList 0 colors.

Inductive Action : Type :=
  | SetStatus (status : string)
  | SetVertices (n : nat)
  | SetRegions (regionList : option (list App.BackendRegion))
  | ShowMesh (positions colors : list number).

Definition exn_name (e : exn) : string :=
  match e with
  | RangeError => "RangeError"
  | TypeError => "TypeError"
  | SyntaxError => "SyntaxError"
  | Error _ => "Error"
  end.

(** ['Error: ' + error]. *)
Definition errorStatus (e : exn) : string :=
  "Error: " +:+ exn_name e +:+ ": " +:+ App.message e.

(** The [if (data.success)] branch. *)
Definition onSuccess (mounted : bool) (random : nat → number) (vertices : list number)
    (vertArray : list Vertex) (data : App.BackendResponse) : list Action :=
  [SetRegions (App.resp_regions data)]
  ++ match App.resp_regions data with
     | None => [SetStatus (errorStatus TypeError)]
     | Some regionList =>
         [SetStatus ("Success! " +:+ decimal (N.of_nat (length regionList)) +:+ " regions found")]
         ++ if mounted then
              let vertices := THREE_scale_to_fit (THREE_center vertices) in
              match colorStep random vertices vertArray regionList with
              | Throw err => [SetStatus (errorStatus err)]
              | Ok colors => [ShowMesh vertices colors]
              end
            else []
     end.

Definition handleFileUpload (mounted : bool) (random : nat → number)
    (oracle : list Vertex → App.FetchOutcome) (file : option App.File) : list Action :=
  match file with
  | None => []
  | Some file =>
      [SetStatus "Loading STL..."]
      ++ match parseSTL (App.file_bytes file) with
         | Throw err => [SetStatus (errorStatus err)]
         | Ok vertices =>
             let vertArray := (uniqueTable (items vertices)).2 in
             [SetVertices (length vertices / 3);
              SetStatus ("Sending " +:+ decimal (N.of_nat (length vertArray)) +:+ " vertices to backend...")]
             ++ match oracle vertArray with
                | App.NetworkFailure => [SetStatus (errorStatus TypeError)]
                | App.HttpResponse _ _ None => [SetStatus (errorStatus SyntaxError)]
                | App.HttpResponse _ _ (Some data) =>
                    if App.resp_success data
                    then onSuccess mounted random vertices vertArray data
                    else [SetStatus ("Backend error: " +:+
                                     match App.resp_error data with
                                     | Some msg => msg
                                     | None => "undefined"
                                     end)]
                end
         end
  end.

End Code.

End SimpleApp.

(** ** A runtime to evaluate the code on

    Numbers are exact rationals: every finite IEEE-754 number is one, and
    [toFixed] of a finite number below [10^21] is its exact value rounded
    to the nearest decimal, ties upward in magnitude.  A store into a
    [Float32Array] rounds to single precision; arithmetic in double
    precision is exact here where the engine rounds. *)

Module Exact.

Open Scope Q_scope.

(** The finite number a 32-bit pattern denotes.  The patterns of the
    infinities and of [NaN] denote no rational: this runtime is for files
    and colours without them. *)
Definition float32 (bits : Z) : Q :=
  let e := Z.land (Z.shiftr bits 23) 255 in
  let m := Z.land bits 0x7FFFFF in
  let magnitude :=
    if (e =? 0)%Z then Qmake m (Z.to_pos (2 ^ 149))
    else if (e <? 150)%Z then Qmake (m + 2 ^ 23) (Z.to_pos (2 ^ (150 - e)))
    else inject_Z ((m + 2 ^ 23) * 2 ^ (e - 150)) in
  Qred (if Z.testbit bits 31 then - magnitude else magnitude).

Definition pow2 (e : Z) : Q :=
  if (0 <=? e)%Z then inject_Z (2 ^ e) else Qmake 1 (Z.to_pos (2 ^ (- e))).

(** The exponent [e] with [2^e ≤ a < 2^(e+1)], for [a] above zero. *)
Definition floorLog2 (a : Q) : Z :=
  let e := (Z.log2 (Qnum a) - Z.log2 (Zpos (Qden a)))%Z in
  if Qle_bool (pow2 e) a then e else (e - 1)%Z.

(** The integer nearest to [x], the even one of two. *)
Definition nearestEven (x : Q) : Z :=
  let f := Qfloor x in
  match Qcompare (x - inject_Z f) (1 # 2) with
  | Lt => f
  | Gt => (f + 1)%Z
  | Eq => if Z.even f then f else (f + 1)%Z
  end.

(** [Math.fround] of a number whose nearest single-precision number is
    finite: 24 significant bits, the exponent not below -126. *)
Definition fround (x : Q) : Q :=
  if Qeq_bool x 0 then 0
  else
    let ulp := pow2 (Z.max (floorLog2 (Qabs x)) (-126) - 23) in
    let m := inject_Z (nearestEven (Qabs x / ulp)) in
    Qred ((if Qlt_le_dec x 0 then - m else m) * ulp).

Definition zeros (n : nat) : string := String.concat "" (replicate n "0"%string).

Definition toFixed (x : Q) (digits : nat) : string :=
  let scaled := Qabs x * inject_Z (10 ^ Z.of_nat digits) in
  let n := Qfloor (scaled + (1 # 2)) in
  let s := decimal (Z.to_N n) in
  let s := (zeros (S digits - String.length s)%nat +:+ s)%string in
  let whole := (String.length s - digits)%nat in
  ((if Qlt_le_dec x 0 then "-" else "")
   +:+ String.substring 0 whole s
   +:+ (if decide (digits = 0%nat) then "" else "." +:+ String.substring whole digits s))%string.

Definition channel (hex : Z) (shift : Z) : Q :=
  Qred (Qmake (Z.land (Z.shiftr hex shift) 255) 255).

(** [color.setHex(hex)], with colour management off: each channel is its
    byte over 255. *)
Definition setHex (hex : Z) : Color Q :=
  mkColor (channel hex 16) (channel hex 8) (channel hex 0).

Definition hexDigit (c : Ascii.ascii) : option Z :=
  let n := Z.of_N (Ascii.N_of_ascii c) in
  if decide (48 ≤ n ≤ 57)%Z then Some (n - 48)%Z
  else if decide (65 ≤ n ≤ 70)%Z then Some (n - 55)%Z
  else if decide (97 ≤ n ≤ 102)%Z then Some (n - 87)%Z
  else None.

Fixpoint parseHex (s : string) (acc : Z) : option Z :=
  match s with
  | EmptyString => Some acc
  | String c rest =>
      match hexDigit c with
      | Some d => parseHex rest (16 * acc + d)%Z
      | None => None
      end
  end.

(** [new THREE.Color(style)] for the six-digit [#rrggbb] styles the code
    uses; a string that is no style leaves the new colour white. *)
Definition colorOfString (style : string) : Color Q :=
  match style with
  | String "#"%char hex =>
      match (if decide (String.length hex = 6%nat) then parseHex hex 0 else None) with
      | Some n => setHex n
      | None => mkColor 1 1 1
      end
  | _ => mkColor 1 1 1
  end.

(** Components [phase], [phase + 3], ... of a flat array. *)
Fixpoint axis (phase : nat) (array : list Q) : list Q :=
  match array with
  | [] => []
  | x :: rest =>
      match phase with
      | O => x :: axis 2 rest
      | S p => axis p rest
      end
  end.

Definition least (l : list Q) : Q :=
  match l with
  | [] => 0
  | x :: rest => fold_left (fun m y => if Qlt_le_dec y m then y else m) rest x
  end.

Definition greatest (l : list Q) : Q :=
  match l with
  | [] => 0
  | x :: rest => fold_left (fun m y => if Qlt_le_dec m y then y else m) rest x
  end.

Definition extent (k : nat) (array : list Q) : Q :=
  greatest (axis k array) - least (axis k array).

Definition middle (k : nat) (array : list Q) : Q :=
  (least (axis k array) + greatest (axis k array)) / 2.

(** [geometry.center()]: the centre of the bounding box moves to the origin. *)
Definition center (array : list Q) : list Q :=
  imap (fun i x => fround (x - middle (i mod 3) array)) array.

(** [geometry.scale(s, s, s)] with [s] five over the largest extent, which
    is taken to be above zero. *)
Definition scaleToFit (array : list Q) : list Q :=
  let size := greatest [extent 0 array; extent 1 array; extent 2 array] in
  map (fun x => fround (x * (5 / size))) array.

Definition engineMessage (e : exn) : string :=
  match e with
  | RangeError => "Offset is outside the bounds of the DataView"
  | TypeError => "Cannot read properties of undefined"
  | SyntaxError => "Unexpected token in JSON"
  | Error m => m
  end.

(** Normals are kept as read: nothing here reads them again. *)
#[export] Instance runtime : Runtime := {|
  number := Q;
  number_of_Z := inject_Z;
  number_mul := fun x y => Qred (x * y);
  number_div := fun x y => Qred (x / y);
  float32_of_bits := float32;
  JS.fround := fround;
  JS.toFixed := toFixed;
  THREE_Color_of_number := fun x => setHex (Qfloor x);
  THREE_Color_of_string := colorOfString;
  THREE_center := center;
  THREE_scale_to_fit := scaleToFit;
  THREE_transform_normals := fun _ normals => normals;
  engine_message := engineMessage;
|}.

End Exact.

(** * Vocabulary of the statements *)

Section Vocabulary.
Context `{Runtime}.

(** The bytes the loop reads for [n] triangles: every 50-byte record but the
    two attribute bytes that close the last one. *)
Definition bytesRead (n : nat) : nat :=
  match n with
  | O => 84
  | S _ => 84 + 50 * n - 2
  end.

(** The first five bytes as characters, and the count at offset 80. *)
Definition signature (buf : ArrayBuffer) : string := App.headerString (take 5 buf).

Definition declaredCount (buf : ArrayBuffer) : nat :=
  match getUint32 buf 80 with
  | Ok n => Z.to_nat n
  | Throw _ => 0
  end.

(** The canonical index of raw vertex [i]: what [uniqueVertices.get(key)]
    returns for its key once the table is built. *)
Definition forwardMap (positions : list Vertex) (i : nat) : option nat :=
  v ← positions !! i; (App.uniqueTable positions).1 !! App.vertexKey 6 v.

Definition uniqueCount (positions : list Vertex) : nat :=
  length (App.uniqueTable positions).2.

Definition reverseMap (positions : list Vertex) : gmap Z (list nat) :=
  App.reverseTable (App.uniqueTable positions).1 positions.

(** The raw indices, counted from [i], of the vertices that satisfy [P]. *)
Fixpoint indicesWhere (P : Vertex → bool) (i : nat) (positions : list Vertex) : list nat :=
  match positions with
  | [] => []
  | v :: rest => if P v then i :: indicesWhere P (S i) rest else indicesWhere P (S i) rest
  end.

(** What the first loop maintains: keys of the table are the keys seen, and
    the table and [vertexArray] are inverse to each other. *)
Definition table_inv (seen : list Vertex) (st : gmap string nat * list Vertex) : Prop :=
  (∀ k, is_Some (st.1 !! k) ↔ ∃ v, v ∈ seen ∧ App.vertexKey 6 v = k)
  ∧ (∀ k c, st.1 !! k = Some c → ∃ v, st.2 !! c = Some v ∧ App.vertexKey 6 v = k)
  ∧ (∀ c v, st.2 !! c = Some v → st.1 !! App.vertexKey 6 v = Some c).

(** Whether the table sends the key of [v] to canonical index [z]. *)
Definition mapsTo (uniqueVertices : gmap string nat) (z : Z) (v : Vertex) : bool :=
  bool_decide (Z.of_nat <$> uniqueVertices !! App.vertexKey 6 v = Some z).

(** The raw indices stored for canonical index [c]: [reverseMap[c]]. *)
Definition rawIndices (positions : list Vertex) (c : nat) : list nat :=
  default [] (reverseMap positions !! Z.of_nat c).

(** The regions in the service's answer to the request [segmentWithBackend]
    sends for [geometry], when the answer is a success that carries any. *)
Definition oracleRegions (oracle : list Vertex → App.FetchOutcome) (geometry : BufferGeometry)
  : option (list App.BackendRegion) :=
  match oracle (App.uniqueTable (items (attributes_position geometry))).2 with
  | App.HttpResponse true _ (Some data) =>
      if App.resp_success data then App.resp_regions data else None
  | _ => None
  end.

(** Whether [region] paints raw vertex [j]: it is visible and lists [j]. *)
Definition paints (j : nat) (region : App.PaintRegion) : Prop :=
  App.visible region = true ∧ j ∈ App.vertex_indices region.

#[global] Instance paints_dec j region : Decision (paints j region).
Proof. unfold paints. apply _. Defined.

(** [new THREE.Color(0x808080)]. *)
Definition defaultGray : Color number := THREE_Color_of_number (number_of_Z 0x808080).

(** The request [segmentWithBackend] sends for a geometry. *)
Definition request (geometry : BufferGeometry) : list Vertex :=
  (App.uniqueTable (items (attributes_position geometry))).2.

(** The ways an upload fails, with the error each one throws: the decoder
    throws; [fetch] rejects; the service answers with an error status; the
    body is not JSON; the answer reports a failure; the answer has no
    region list; a region of the answer has no index list. *)
Inductive UploadFails (oracle : list Vertex → App.FetchOutcome) (file : App.File)
  : exn → Prop :=
  | parse_failure e :
      App.parseSTL (App.file_bytes file) = Throw e → UploadFails oracle file e
  | transport_failure geometry :
      App.prepareGeometry file = Ok geometry →
      oracle (request geometry) = App.NetworkFailure →
      UploadFails oracle file TypeError
  | status_failure geometry statusText json :
      App.prepareGeometry file = Ok geometry →
      oracle (request geometry) = App.HttpResponse false statusText json →
      UploadFails oracle file (Error ("Backend error: " +:+ statusText))
  | body_failure geometry statusText :
      App.prepareGeometry file = Ok geometry →
      oracle (request geometry) = App.HttpResponse true statusText None →
      UploadFails oracle file SyntaxError
  | reported_failure geometry statusText data :
      App.prepareGeometry file = Ok geometry →
      oracle (request geometry) = App.HttpResponse true statusText (Some data) →
      App.resp_success data = false →
      UploadFails oracle file (Error (App.failureMessage data))
  | regions_missing geometry statusText data :
      App.prepareGeometry file = Ok geometry →
      oracle (request geometry) = App.HttpResponse true statusText (Some data) →
      App.resp_success data = true →
      App.resp_regions data = None →
      UploadFails oracle file TypeError
  | indices_missing geometry statusText data backendRegions :
      App.prepareGeometry file = Ok geometry →
      oracle (request geometry) = App.HttpResponse true statusText (Some data) →
      App.resp_success data = true →
      App.resp_regions data = Some backendRegions →
      Exists (fun region => App.br_vertex_indices region = None) backendRegions →
      UploadFails oracle file TypeError.

Definition newModelInput : App.FileInput :=
  {| App.input_label := "New Model"; App.input_disabled := false |}.

(** Whether the four-digit key of [v] is [k]. *)
Definition hasKey (k : string) (v : Vertex) : bool := bool_decide (App.vertexKey 4 v = k).

(** What the first loop of the variant maintains. *)
Definition legacy_inv (seen : list Vertex) (st : gset string * list Vertex) : Prop :=
  (∀ k, k ∈ st.1 ↔ ∃ v, v ∈ seen ∧ App.vertexKey 4 v = k)
  ∧ (∀ k, k ∈ st.1 ↔ ∃ w, w ∈ st.2 ∧ App.vertexKey 4 w = k)
  ∧ NoDup (map (App.vertexKey 4) st.2).

(** The vertices of [positions] whose six-digit key is none of [seen] and
    not the key of an earlier vertex of [positions], in the order of
    [positions]. *)
Fixpoint firstSeen (seen : list string) (positions : list Vertex) : list Vertex :=
  match positions with
  | [] => []
  | v :: rest =>
      if decide (App.vertexKey 6 v ∈ seen) then firstSeen seen rest
      else v :: firstSeen (App.vertexKey 6 v :: seen) rest
  end.

(** The last region of the list that paints raw vertex [j]. *)
Fixpoint lastPainter (j : nat) (regionList : list App.PaintRegion) : option App.PaintRegion :=
  match regionList with
  | [] => None
  | region :: rest =>
      match lastPainter j rest with
      | Some later => Some later
      | None => if decide (paints j region) then Some region else None
      end
  end.

(** A region without the indices that are not raw indices of a geometry of
    [vertexCount] vertices. *)
Definition inRange (vertexCount : nat) (region : App.PaintRegion) : App.PaintRegion :=
  {| App.id := App.id region; App.name := App.name region; App.color := App.color region;
     App.visible := App.visible region;
     App.vertex_indices := filter (fun idx => idx < vertexCount) (App.vertex_indices region);
     App.vertex_count := App.vertex_count region;
     App.vertex_percentage := App.vertex_percentage region |}.

(** A region of an answer that the colouring step of the variant gets
    through: it carries an index list and none of its indices is below zero. *)
Definition paintable (region : App.BackendRegion) : Prop :=
  ∃ indices, App.br_vertex_indices region = Some indices ∧ Forall (fun idx => 0 ≤ idx)%Z indices.

(** A region the step fails on: it carries no index list, or an index below zero. *)
Definition unpaintable (region : App.BackendRegion) : Prop :=
  App.br_vertex_indices region = None
  ∨ ∃ indices, App.br_vertex_indices region = Some indices
               ∧ Exists (fun idx => idx < 0)%Z indices.

(** Whether the colouring step of the variant calls [Math.random] for a
    region with this id: the colour table has no such key, and
    [Object.prototype] no member of that name. *)
Definition drawsColor (regionId : string) : Prop :=
  SimpleApp.regionColorMap !! regionId = None ∧ regionId ∉ Object_prototype.

#[global] Instance drawsColor_dec regionId : Decision (drawsColor regionId).
Proof. unfold drawsColor. apply _. Defined.

(** The number of regions of a list for which it does. *)
Definition draws (regionList : list App.BackendRegion) : nat :=
  length (filter (fun region => drawsColor (App.br_id region)) regionList).

(** Whether [backendIdx] selects a unique vertex with the four-digit key of [v]. *)
Definition selects (vertArray : list Vertex) (v : Vertex) (backendIdx : Z) : Prop :=
  ∃ vert, SimpleApp.arrayGet vertArray backendIdx = Some vert
          ∧ App.vertexKey 4 v = App.vertexKey 4 vert.

#[global] Instance selects_dec vertArray v backendIdx : Decision (selects vertArray v backendIdx).
Proof.
  unfold selects. destruct (SimpleApp.arrayGet vertArray backendIdx) as [vert|].
  - destruct (decide (App.vertexKey 4 v = App.vertexKey 4 vert)); [left; by eexists|right].
    by intros (w & [= <-] & ?).
  - right. by intros (w & [=] & _).
Defined.

(** Whether the colouring step of the variant reaches raw vertex [j] of
    [positions] through a region: one of its indices selects a unique vertex
    with the key of vertex [j]. *)
Definition reaches (vertArray positions : list Vertex) (j : nat) (region : App.BackendRegion)
  : Prop :=
  ∃ indices v, App.br_vertex_indices region = Some indices
               ∧ positions !! j = Some v
               ∧ Exists (selects vertArray v) indices.

(** One event of the component: a file chosen in an input, or a response. *)
Definition next (s s' : App.Session) : Prop := ∃ event, App.step s event s'.

(** A state update that is not one of [isLoading]. *)
Definition keepsLoading (a : App.Action) : Prop :=
  match a with
  | App.SetIsLoading _ => False
  | _ => True
  end.

(** [new THREE.Color(0xcccccc)]. *)
Definition lightGray : Color number := THREE_Color_of_number (number_of_Z 0xcccccc).

(** What a [Float32Array] keeps of the single-precision number read at
    [offset], when the four bytes are there. *)
Definition floatAt (buf : ArrayBuffer) (offset : nat) : option number :=
  match getFloat32 buf offset with
  | Ok x => Some (fround x)
  | Throw _ => None
  end.

End Vocabulary.

(** * Inputs the code is evaluated on *)

(** A one-triangle file that lacks the two attribute bytes of its record. *)
Definition shortByTwo : ArrayBuffer :=
  replicate 80 x00 ++ [x01; x00; x00; x00] ++ replicate 48 x00.

(** A file that holds an empty mesh and starts with the textual signature. *)
Definition solidEmpty : ArrayBuffer :=
  [x73; x6f; x6c; x69; x64] ++ replicate 79 x00.

(** Three raw vertices, the first two at the same position. *)
Definition seamGeometry : BufferGeometry (H := Exact.runtime) :=
  mkGeometry (H := Exact.runtime) [0; 0; 0; 0; 0; 0; 1; 0; 0]%Q [] None.

Definition regionOf (regionId : string) (indices : list Z) : App.BackendRegion :=
  {| App.br_id := regionId; App.br_name := regionId; App.br_color := "#8B4513";
     App.br_visible := false; App.br_vertex_indices := Some indices |}.

Definition answer (backendRegions : list App.BackendRegion) : App.FetchOutcome :=
  App.HttpResponse true "OK"
    (Some {| App.resp_success := true; App.resp_regions := Some backendRegions;
             App.resp_error := None |}).

(** The service lists canonical index 0 twice. *)
Definition twiceOracle : list (Vertex (H := Exact.runtime)) → App.FetchOutcome :=
  fun _ => answer [regionOf "base" [0; 0]%Z].

Definition seamRegion : App.PaintRegion (H := Exact.runtime) :=
  {| App.id := "base"; App.name := "base"; App.color := "#8B4513"; App.visible := false;
     App.vertex_indices := [0; 1; 0; 1]; App.vertex_count := 4;
     App.vertex_percentage := Some (App.percentage (H := Exact.runtime) 4 3) |}.

Definition baseRegion : App.PaintRegion (H := Exact.runtime) :=
  {| App.id := "base"; App.name := "Base"; App.color := "#8B4513"; App.visible := true;
     App.vertex_indices := [0]; App.vertex_count := 1; App.vertex_percentage := None |}.

(** A binary file that declares no triangle. *)
Definition emptyMesh : ArrayBuffer := replicate 84 x00.

Definition goldOverride : gmap string string := {[ "base" := "#FFD700" ]}.

(** A model on screen, painted, with the service reachable. *)
Definition paintedState : App.AppState (H := Exact.runtime) :=
  {| App.modelData :=
       Some {| App.md_name := "knight.stl"; App.md_size := 234;
               App.md_geometry :=
                 Some (setColorAttribute seamGeometry
                         (App.composeColors 3 [baseRegion] goldOverride));
               App.md_vertexCount := Some 3 |};
     App.regions := [baseRegion];
     App.selectedRegion := "base";
     App.selectedColor := "#FFD700";
     App.paintedColors := goldOverride;
     App.isLoading := false;
     App.backendStatus := App.online;
     App.error := "";
     App.meshRef := true;
     App.sceneRef := true |}.

Definition nextFile : App.File := {| App.file_name := "dragon.stl"; App.file_bytes := emptyMesh |}.

Definition unreachable : list (Vertex (H := Exact.runtime)) → App.FetchOutcome :=
  fun _ => App.NetworkFailure.

Definition loadedSession : App.Session (H := Exact.runtime) :=
  {| App.ui := paintedState; App.outstanding := [] |}.

(** No model yet, and the request of the first upload outstanding. *)
Definition firstUploadState : App.AppState (H := Exact.runtime) :=
  {| App.modelData := None;
     App.regions := [];
     App.selectedRegion := "";
     App.selectedColor := "#C0C0C0";
     App.paintedColors := ∅;
     App.isLoading := true;
     App.backendStatus := App.online;
     App.error := "";
     App.meshRef := false;
     App.sceneRef := true |}.

Definition originVertex : Vertex (H := Exact.runtime) := mkVertex (H := Exact.runtime) 0%Q 0%Q 0%Q.

(** One triangle with corners (0,0,0), (1,0,0) and (0,1,0). *)
Definition triangleFile : App.File :=
  {| App.file_name := "tile.stl";
     App.file_bytes :=
       replicate 80 x00 ++ [x01; x00; x00; x00]
       ++ replicate 12 x00
       ++ replicate 12 x00
       ++ [x00; x00; x80; x3f] ++ replicate 8 x00
       ++ replicate 4 x00 ++ [x00; x00; x80; x3f] ++ replicate 4 x00
       ++ replicate 2 x00 |}.

(** The service puts the three unique vertices of the triangle in one region. *)
Definition wholeOracle : list (Vertex (H := Exact.runtime)) → App.FetchOutcome :=
  fun _ => answer [regionOf "base" [0; 1; 2]%Z].

(** The service answers with an index below zero. *)
Definition negativeOracle : list (Vertex (H := Exact.runtime)) → App.FetchOutcome :=
  fun _ => answer [regionOf "base" [(-1)%Z]].

(** A second region, of the third vertex of the seam geometry. *)
Definition headRegion : App.PaintRegion (H := Exact.runtime) :=
  {| App.id := "head"; App.name := "Head"; App.color := "#F5DEB3"; App.visible := true;
     App.vertex_indices := [2]; App.vertex_count := 1; App.vertex_percentage := None |}.

(** A region of an answer, hidden and brown, with the id of the legs. *)
Definition hiddenLegs : App.BackendRegion :=
  {| App.br_id := "legs"; App.br_name := "Legs"; App.br_color := "#8B4513";
     App.br_visible := false; App.br_vertex_indices := Some [0%Z] |}.

(** A region whose id is the name of a member of [Object.prototype]. *)
Definition constructorRegion : App.PaintRegion (H := Exact.runtime) :=
  {| App.id := "constructor"; App.name := "Constructor"; App.color := "#8B4513";
     App.visible := true; App.vertex_indices := [0]; App.vertex_count := 1;
     App.vertex_percentage := None |}.

(** The geometry and the regions the handler gets for the one-triangle file
    and the answer that lists its three vertices. *)
Definition tileGeometry : BufferGeometry (H := Exact.runtime) :=
  match App.prepareGeometry triangleFile with
  | Ok geometry => geometry
  | Throw _ => mkGeometry (H := Exact.runtime) [] [] None
  end.

Definition tileRegions : list (App.PaintRegion (H := Exact.runtime)) :=
  match App.segmentWithBackend wholeOracle tileGeometry with
  | Ok mapped => mapped
  | Throw _ => []
  end.

(** * Properties *)

(** ** The result monad *)

Lemma bind_Ok {A B} (f : A → result B) (a : A) : Ok a ≫= f = f a.
Proof. reflexivity. Qed.

Lemma bind_Throw {A B} (f : A → result B) (e : exn) : Throw e ≫= f = Throw e.
Proof. reflexivity. Qed.

(** ** The mesh decoder *)

Section Decoder.
Context `{Runtime}.

Lemma getUint32_in_bounds (buf : ArrayBuffer) (offset : nat) :
  offset + 4 ≤ length buf → ∃ n, getUint32 buf offset = Ok n.
Proof.
  intros Hlen. unfold getUint32.
  destruct (lookup_lt_is_Some_2 buf offset) as [b0 ->]; [lia|].
  destruct (lookup_lt_is_Some_2 buf (offset + 1)) as [b1 ->]; [lia|].
  destruct (lookup_lt_is_Some_2 buf (offset + 2)) as [b2 ->]; [lia|].
  destruct (lookup_lt_is_Some_2 buf (offset + 3)) as [b3 ->]; [lia|].
  eauto.
Qed.

Lemma getUint32_out_of_bounds (buf : ArrayBuffer) (offset : nat) :
  length buf < offset + 4 → getUint32 buf offset = Throw RangeError.
Proof.
  intros Hlen. unfold getUint32.
  rewrite (lookup_ge_None_2 buf (offset + 3)) by lia.
  by destruct (buf !! offset), (buf !! (offset + 1)), (buf !! (offset + 2)).
Qed.

Lemma getFloat32_in_bounds (buf : ArrayBuffer) (offset : nat) :
  offset + 4 ≤ length buf → ∃ x, getFloat32 buf offset = Ok x.
Proof.
  intros Hlen. unfold getFloat32.
  destruct (getUint32_in_bounds buf offset Hlen) as [n ->]. by eexists.
Qed.

Lemma getFloat32_out_of_bounds (buf : ArrayBuffer) (offset : nat) :
  length buf < offset + 4 → getFloat32 buf offset = Throw RangeError.
Proof.
  intros Hlen. unfold getFloat32. by rewrite getUint32_out_of_bounds.
Qed.

(** Either bound decides a read. *)
Ltac read_at view offset :=
  let x := fresh "x" in
  let Hx := fresh "Hx" in
  first
    [ destruct (getFloat32_in_bounds view offset) as [x Hx]; [lia|];
      rewrite Hx, bind_Ok; clear Hx
    | rewrite (getFloat32_out_of_bounds view offset), ?bind_Throw by lia ].

Lemma App_readCorner_in_bounds view nx ny nz offset vertexIndex vertices normals :
  offset + 12 ≤ length view →
  ∃ vertices' normals',
    App.readCorner view nx ny nz (offset, vertexIndex, vertices, normals)
      = Ok (offset + 12, vertexIndex + 3, vertices', normals')
    ∧ length vertices' = length vertices ∧ length normals' = length normals.
Proof.
  intros Hlen. unfold App.readCorner.
  read_at view offset. read_at view (offset + 4). read_at view (offset + 8).
  do 2 eexists. split; [reflexivity|]. unfold store. by rewrite !length_insert.
Qed.

Lemma App_readCorner_out_of_bounds view nx ny nz offset vertexIndex vertices normals :
  length view < offset + 12 →
  App.readCorner view nx ny nz (offset, vertexIndex, vertices, normals) = Throw RangeError.
Proof.
  intros Hlen. unfold App.readCorner.
  destruct (decide (offset + 4 ≤ length view)); [|by read_at view offset].
  read_at view offset.
  destruct (decide (offset + 8 ≤ length view)); [|by read_at view (offset + 4)].
  read_at view (offset + 4). by read_at view (offset + 8).
Qed.

Lemma App_readTriangles_in_bounds view n offset vertexIndex vertices normals :
  n = 0 ∨ offset + 50 * n ≤ length view + 2 →
  ∃ vertices' normals',
    App.readTriangles view n (offset, vertexIndex, vertices, normals) = Ok (vertices', normals')
    ∧ length vertices' = length vertices ∧ length normals' = length normals.
Proof.
  revert offset vertexIndex vertices normals.
  induction n as [|n IH]; intros offset vertexIndex vertices normals Hlen.
  { simpl. eauto. }
  destruct Hlen as [|Hlen]; [done|].
  cbn [App.readTriangles].
  read_at view offset. read_at view (offset + 4). read_at view (offset + 8).
  destruct (App_readCorner_in_bounds view x x0 x1 (offset + 12) vertexIndex vertices normals)
    as (v1 & n1 & -> & Hv1 & Hn1); [lia|]. rewrite bind_Ok; cbv beta iota.
  destruct (App_readCorner_in_bounds view x x0 x1 (offset + 12 + 12) (vertexIndex + 3) v1 n1)
    as (v2 & n2 & -> & Hv2 & Hn2); [lia|]. rewrite bind_Ok; cbv beta iota.
  destruct (App_readCorner_in_bounds view x x0 x1 (offset + 12 + 12 + 12) (vertexIndex + 3 + 3) v2 n2)
    as (v3 & n3 & -> & Hv3 & Hn3); [lia|]. rewrite bind_Ok; cbv beta iota.
  destruct (IH (offset + 12 + 12 + 12 + 12 + 2) (vertexIndex + 3 + 3 + 3) v3 n3)
    as (v & n' & -> & Hv & Hn); [lia|].
  do 2 eexists. split; [reflexivity|]. split; congruence.
Qed.

Lemma App_readTriangles_out_of_bounds view n offset vertexIndex vertices normals :
  n ≠ 0 → length view + 2 < offset + 50 * n →
  App.readTriangles view n (offset, vertexIndex, vertices, normals) = Throw RangeError.
Proof.
  revert offset vertexIndex vertices normals.
  induction n as [|n IH]; intros offset vertexIndex vertices normals Hn Hlen; [done|].
  cbn [App.readTriangles].
  destruct (decide (offset + 4 ≤ length view)); [|by read_at view offset].
  read_at view offset.
  destruct (decide (offset + 8 ≤ length view)); [|by read_at view (offset + 4)].
  read_at view (offset + 4).
  destruct (decide (offset + 12 ≤ length view)); [|by read_at view (offset + 8)].
  read_at view (offset + 8).
  destruct (decide (offset + 12 + 12 ≤ length view));
    [|by rewrite App_readCorner_out_of_bounds by lia].
  destruct (App_readCorner_in_bounds view x x0 x1 (offset + 12) vertexIndex vertices normals)
    as (v1 & n1 & -> & _ & _); [lia|]. rewrite bind_Ok; cbv beta iota.
  destruct (decide (offset + 12 + 12 + 12 ≤ length view));
    [|by rewrite App_readCorner_out_of_bounds by lia].
  destruct (App_readCorner_in_bounds view x x0 x1 (offset + 12 + 12) (vertexIndex + 3) v1 n1)
    as (v2 & n2 & -> & _ & _); [lia|]. rewrite bind_Ok; cbv beta iota.
  destruct (decide (offset + 12 + 12 + 12 + 12 ≤ length view));
    [|by rewrite App_readCorner_out_of_bounds by lia].
  destruct (App_readCorner_in_bounds view x x0 x1 (offset + 12 + 12 + 12) (vertexIndex + 3 + 3) v2 n2)
    as (v3 & n3 & -> & _ & _); [lia|]. rewrite bind_Ok; cbv beta iota.
  apply IH; lia.
Qed.

Lemma Uint8Array_header (buf : ArrayBuffer) :
  Uint8Array buf 0 5 = if decide (5 ≤ length buf) then Ok (take 5 buf) else Throw RangeError.
Proof. unfold Uint8Array, byteLength. simpl. by repeat case_decide. Qed.

Lemma declaredCount_read (buf : ArrayBuffer) :
  84 ≤ length buf → ∃ n, getUint32 buf 80 = Ok n ∧ declaredCount buf = Z.to_nat n.
Proof.
  intros Hlen. unfold declaredCount.
  destruct (getUint32_in_bounds buf 80) as [n Hn]; [lia|]. rewrite Hn. eauto.
Qed.

Lemma declaredCount_short (buf : ArrayBuffer) :
  length buf < 84 → getUint32 buf 80 = Throw RangeError ∧ declaredCount buf = 0.
Proof.
  intros Hlen. unfold declaredCount. by rewrite getUint32_out_of_bounds by lia.
Qed.

(** C3, as the code has it.  [parseSTL] has four outcomes, decided by the
    length of the buffer, its first five bytes and the count at offset 80:
    a buffer of fewer than five bytes is refused by the typed-array
    constructor; a buffer that starts with "solid" is refused with the
    format error; any other buffer is decoded when it holds the bytes the
    loop reads, [bytesRead] of the declared count (the two attribute bytes
    of the last triangle are not among them), giving position and normal
    arrays of nine numbers per triangle; and a shorter one fails with the
    range error of the first read past its end. *)
Theorem parseSTL_outcomes (buf : ArrayBuffer) :
  (length buf < 5 → App.parseSTL buf = Throw RangeError)
  ∧ (5 ≤ length buf → signature buf = "solid" →
     App.parseSTL buf = Throw (Error App.asciiMessage))
  ∧ (5 ≤ length buf → signature buf ≠ "solid" →
     length buf < bytesRead (declaredCount buf) →
     App.parseSTL buf = Throw RangeError)
  ∧ (signature buf ≠ "solid" → bytesRead (declaredCount buf) ≤ length buf →
     ∃ geometry, App.parseSTL buf = Ok geometry
       ∧ length (attributes_position geometry) = declaredCount buf * 9
       ∧ length (attributes_normal geometry) = declaredCount buf * 9
       ∧ attributes_color geometry = None).
Proof.
  unfold App.parseSTL, signature. rewrite Uint8Array_header.
  split; [|split; [|split]].
  - intros Hlen. by rewrite decide_False by lia.
  - intros Hlen Hsolid. rewrite decide_True, bind_Ok by lia. by rewrite decide_True.
  - intros Hlen Hsolid Hshort. rewrite decide_True, bind_Ok by lia.
    rewrite decide_False by done.
    destruct (decide (84 ≤ length buf)) as [Hhead|Hhead].
    + destruct (declaredCount_read buf Hhead) as (n & -> & Hn). rewrite bind_Ok.
      rewrite Hn in Hshort. cbv zeta.
      rewrite App_readTriangles_out_of_bounds; [done| |].
      * intros Hz. rewrite Hz in Hshort. simpl in Hshort. lia.
      * destruct (Z.to_nat n); simpl in Hshort; lia.
    + destruct (declaredCount_short buf) as [-> _]; [lia|]. done.
  - intros Hsolid Hlen.
    assert (84 ≤ length buf) as Hhead.
    { destruct (declaredCount buf); simpl in Hlen; lia. }
    rewrite decide_True, bind_Ok by lia. rewrite decide_False by done.
    destruct (declaredCount_read buf Hhead) as (n & -> & Hn). rewrite bind_Ok.
    rewrite Hn in *. cbv zeta.
    destruct (App_readTriangles_in_bounds buf (Z.to_nat n) 84 0
                (Float32Array (Z.to_nat n * 9)) (Float32Array (Z.to_nat n * 9)))
      as (vertices & normals & -> & Hv & Hn').
    { destruct (Z.to_nat n); [by left|right]. simpl in Hlen. lia. }
    rewrite bind_Ok. eexists. split; [reflexivity|]. simpl.
    unfold Float32Array in *. rewrite length_replicate in *. done.
Qed.

End Decoder.

(** C3 as stated fails: the count of [shortByTwo] implies 134 bytes, the
    buffer holds 132, and [parseSTL] decodes it. *)
Lemma parseSTL_short_by_two :
  (declaredCount shortByTwo = 1 ∧ length shortByTwo = 132 ∧ length shortByTwo < 84 + 50 * 1)
  ∧ App.parseSTL (H := Exact.runtime) shortByTwo
    = Ok (mkGeometry (H := Exact.runtime) (replicate 9 0%Q) (replicate 9 0%Q) None).
Proof. split; [split; [|split]|]; [reflexivity| reflexivity| vm_compute; lia| reflexivity]. Qed.

(** The decoding case at the one-triangle file without its last two bytes. *)
Lemma parseSTL_outcomes_witness :
  ∃ geometry, App.parseSTL (H := Exact.runtime) shortByTwo = Ok geometry
    ∧ length (attributes_position geometry) = declaredCount shortByTwo * 9
    ∧ length (attributes_normal geometry) = declaredCount shortByTwo * 9
    ∧ attributes_color geometry = None.
Proof.
  apply (parseSTL_outcomes (H := Exact.runtime) shortByTwo).
  - by intros [=].
  - vm_compute. lia.
Defined.

(** ** The vertex canonicalizer *)

Section Canonicalizer.
Context `{Runtime}.

Lemma elem_of_indicesWhere P i positions j :
  j ∈ indicesWhere P i positions
  ↔ i ≤ j ∧ ∃ v, positions !! (j - i) = Some v ∧ P v = true.
Proof.
  revert i. induction positions as [|v rest IH]; intros i; simpl.
  { split; [by intros ?%elem_of_nil|]. by intros (_ & ? & ? & _). }
  assert (j ∈ indicesWhere P (S i) rest
          ↔ S i ≤ j ∧ ∃ w, (v :: rest) !! (j - i) = Some w ∧ P w = true) as Hrest.
  { rewrite IH. split; intros (Hle & w & Hw & HP); (split; [lia|]); exists w; split; try done.
    - by replace (j - i) with (S (j - S i)) by lia.
    - by replace (j - i) with (S (j - S i)) in Hw by lia. }
  destruct (P v) eqn:HP.
  - rewrite elem_of_cons, Hrest. split.
    + intros [->|(Hle & w & Hw & HPw)].
      * split; [lia|]. exists v. by rewrite Nat.sub_diag.
      * split; [lia|]. eauto.
    + intros (Hle & w & Hw & HPw).
      destruct (decide (j = i)) as [->|]; [by left|right].
      split; [lia|]. eauto.
  - rewrite Hrest. split.
    + intros (Hle & w & Hw & HPw). split; [lia|]. eauto.
    + intros (Hle & w & Hw & HPw).
      destruct (decide (j = i)) as [->|].
      * rewrite Nat.sub_diag in Hw. simpl in Hw. congruence.
      * split; [lia|]. eauto.
Qed.

Lemma NoDup_indicesWhere P i positions : NoDup (indicesWhere P i positions).
Proof.
  revert i. induction positions as [|v rest IH]; intros i; simpl; [constructor|].
  destruct (P v); [|done].
  constructor; [|done]. rewrite elem_of_indicesWhere. lia.
Qed.

Lemma indicesWhere_ext P Q i positions :
  (∀ v, v ∈ positions → P v = Q v) → indicesWhere P i positions = indicesWhere Q i positions.
Proof.
  revert i. induction positions as [|v rest IH]; intros i HPQ; simpl; [done|].
  rewrite (HPQ v) by constructor. rewrite (IH (S i)); [done|].
  intros w Hw. apply HPQ. by constructor.
Qed.

(** *** The table of unique vertices *)

Lemma table_inv_empty : table_inv [] (∅, []).
Proof.
  split; [|split]; simpl.
  - intros k. rewrite lookup_empty. split; [by intros []|].
    by intros (v & Hv%elem_of_nil & _).
  - intros k c. by rewrite lookup_empty.
  - intros c v. by rewrite lookup_nil.
Qed.

Lemma table_inv_addUnique seen st v :
  table_inv seen st → table_inv (seen ++ [v]) (App.addUnique st v).
Proof.
  destruct st as [m va]. intros (Hkeys & Hfwd & Hbwd).
  unfold table_inv, App.addUnique. simpl in *.
  destruct (m !! App.vertexKey 6 v) as [c|] eqn:Hv; simpl.
  - split; [|by split].
    intros k. rewrite Hkeys. split.
    + intros (w & Hw & Hk). exists w. split; [|done]. apply elem_of_app. by left.
    + intros (w & [Hw|Hw%list_elem_of_singleton]%elem_of_app & Hk); [by eauto|].
      subst w. apply Hkeys. subst k. by eexists.
  - split; [|split].
    + intros k. destruct (decide (k = App.vertexKey 6 v)) as [->|Hne].
      * rewrite lookup_insert_eq. split; [|by eauto].
        intros _. exists v. split; [|done]. apply elem_of_app. right. by constructor.
      * rewrite lookup_insert_ne by done. rewrite Hkeys. split.
        -- intros (w & Hw & Hk). exists w. split; [|done]. apply elem_of_app. by left.
        -- intros (w & [Hw|Hw%list_elem_of_singleton]%elem_of_app & Hk); [by eauto|].
           by subst.
    + intros k c. destruct (decide (k = App.vertexKey 6 v)) as [->|Hne].
      * rewrite lookup_insert_eq. intros [= <-]. exists v. split; [|done].
        by rewrite lookup_app_r, Nat.sub_diag by lia.
      * rewrite lookup_insert_ne by done. intros (w & Hw & Hk)%Hfwd.
        exists w. split; [|done]. by apply lookup_app_l_Some.
    + intros c w [Hw|(Hc & Hw)]%lookup_app_Some.
      * pose proof (Hbwd _ _ Hw) as Hm.
        rewrite lookup_insert_ne; [done|]. intros Heq. congruence.
      * destruct (c - length va) as [|d] eqn:Hd; simpl in Hw; [|by rewrite lookup_nil in Hw].
        injection Hw as <-. replace c with (length va) by lia. apply lookup_insert_eq.
Qed.

Lemma table_inv_fold positions seen st :
  table_inv seen st → table_inv (seen ++ positions) (fold_left App.addUnique positions st).
Proof.
  revert seen st. induction positions as [|v rest IH]; intros seen st Hinv; simpl.
  - by rewrite app_nil_r.
  - replace (seen ++ v :: rest) with ((seen ++ [v]) ++ rest) by by rewrite <- app_assoc.
    apply IH. by apply table_inv_addUnique.
Qed.

Lemma uniqueTable_inv positions : table_inv positions (App.uniqueTable positions).
Proof. apply (table_inv_fold positions [] (∅, [])), table_inv_empty. Qed.

Lemma forwardMap_Some positions i v :
  positions !! i = Some v →
  ∃ c, forwardMap positions i = Some c ∧ c < uniqueCount positions.
Proof.
  intros Hi. destruct (uniqueTable_inv positions) as (Hkeys & Hfwd & _).
  unfold forwardMap. rewrite Hi. simpl.
  destruct (proj2 (Hkeys (App.vertexKey 6 v))) as [c Hc].
  { exists v. split; [|done]. by eapply list_elem_of_lookup_2. }
  exists c. split; [done|].
  destruct (Hfwd _ _ Hc) as (w & Hw & _). by eapply lookup_lt_Some.
Qed.

Lemma forwardMap_key positions i j vi vj :
  positions !! i = Some vi → positions !! j = Some vj →
  forwardMap positions i = forwardMap positions j ↔ App.vertexKey 6 vi = App.vertexKey 6 vj.
Proof.
  intros Hi Hj. destruct (uniqueTable_inv positions) as (_ & Hfwd & _).
  destruct (forwardMap_Some _ _ _ Hi) as (ci & Hci & _).
  unfold forwardMap in *. rewrite Hi, Hj in *. simpl in *. split.
  - intros Heq. rewrite Hci in Heq. symmetry in Heq.
    destruct (Hfwd _ _ Hci) as (w & Hw & <-).
    destruct (Hfwd _ _ Heq) as (w' & Hw' & <-). congruence.
  - by intros ->.
Qed.

Lemma uniqueCount_reached positions c :
  c < uniqueCount positions →
  ∃ i v, positions !! i = Some v ∧ forwardMap positions i = Some c.
Proof.
  intros Hc. destruct (uniqueTable_inv positions) as (Hkeys & _ & Hbwd).
  destruct (lookup_lt_is_Some_2 _ _ Hc) as [w Hw].
  pose proof (Hbwd _ _ Hw) as Hm.
  destruct (proj1 (Hkeys (App.vertexKey 6 w))) as (v & Hv & Hk); [by eexists|].
  apply list_elem_of_lookup in Hv as [i Hi].
  exists i, v. split; [done|]. unfold forwardMap. rewrite Hi. simpl. by rewrite Hk.
Qed.

(** *** The reverse mapping *)

Lemma reverseFrom_lookup uniqueVertices i positions reverseMapping z :
  App.reverseFrom uniqueVertices i positions reverseMapping !! z =
    match indicesWhere (mapsTo uniqueVertices z) i positions with
    | [] => reverseMapping !! z
    | hits => Some (default [] (reverseMapping !! z) ++ hits)
    end.
Proof.
  revert i reverseMapping.
  induction positions as [|v rest IH]; intros i reverseMapping; [done|].
  cbn [App.reverseFrom indicesWhere]. rewrite IH. unfold mapsTo at 2.
  destruct (uniqueVertices !! App.vertexKey 6 v) as [backendIndex|] eqn:Hv; simpl.
  - case_bool_decide as Hz.
    + injection Hz as <-. rewrite lookup_insert_eq. simpl.
      destruct (indicesWhere _ (S i) rest); [done|]. by rewrite <- app_assoc.
    + rewrite lookup_insert_ne; [done|]. congruence.
  - by rewrite ?bool_decide_eq_false_2.
Qed.

Lemma reverseMap_lookup positions z :
  reverseMap positions !! z =
    match indicesWhere (mapsTo (App.uniqueTable positions).1 z) 0 positions with
    | [] => None
    | hits => Some hits
    end.
Proof.
  unfold reverseMap, App.reverseTable. rewrite reverseFrom_lookup, lookup_empty.
  by destruct (indicesWhere _ 0 positions).
Qed.

Lemma reverseMap_entry positions z l :
  reverseMap positions !! z = Some l →
  l ≠ [] ∧ NoDup l ∧ ∀ i, i ∈ l ↔ Z.of_nat <$> forwardMap positions i = Some z.
Proof.
  rewrite reverseMap_lookup.
  pose proof (NoDup_indicesWhere (mapsTo (App.uniqueTable positions).1 z) 0 positions) as Hnd.
  pose proof (elem_of_indicesWhere (mapsTo (App.uniqueTable positions).1 z) 0 positions) as Hin.
  destruct (indicesWhere _ 0 positions) as [|h t] eqn:Hhits; [done|].
  intros [= <-]. split; [done|]. split; [done|].
  intros i. rewrite Hin, Nat.sub_0_r. unfold forwardMap, mapsTo. split.
  - intros (_ & v & -> & Hv). simpl. by apply bool_decide_eq_true in Hv.
  - destruct (positions !! i) as [v|]; [|done]. simpl. intros Hv.
    split; [lia|]. exists v. split; [done|]. by apply bool_decide_eq_true.
Qed.

Lemma reverseMap_of_forwardMap positions i c :
  forwardMap positions i = Some c →
  ∃ l, reverseMap positions !! Z.of_nat c = Some l ∧ i ∈ l.
Proof.
  intros Hc. rewrite reverseMap_lookup.
  assert (i ∈ indicesWhere (mapsTo (App.uniqueTable positions).1 (Z.of_nat c)) 0 positions)
    as Hi.
  { rewrite elem_of_indicesWhere, Nat.sub_0_r. split; [lia|].
    unfold forwardMap in Hc. destruct (positions !! i) as [v|]; [|done].
    exists v. split; [done|]. apply bool_decide_eq_true. simpl in Hc. by rewrite Hc. }
  destruct (indicesWhere _ 0 positions) as [|h t]; [by apply elem_of_nil in Hi|].
  by eexists.
Qed.

Lemma reverseMap_key positions z l :
  reverseMap positions !! z = Some l →
  ∃ c, z = Z.of_nat c ∧ c < uniqueCount positions.
Proof.
  intros Hl. destruct (reverseMap_entry _ _ _ Hl) as (Hne & _ & Hin).
  destruct l as [|i t]; [done|].
  assert (Z.of_nat <$> forwardMap positions i = Some z) as Hi by (apply Hin; by left).
  destruct (forwardMap positions i) as [c|] eqn:Hc; [|done].
  exists c. split; [by injection Hi|].
  unfold forwardMap in Hc. destruct (positions !! i) as [v|] eqn:Hv; [|done].
  destruct (forwardMap_Some _ _ _ Hv) as (c' & Hc' & Hlt).
  unfold forwardMap in Hc'. rewrite Hv in Hc'. congruence.
Qed.

(** *** Counting *)

Lemma sum_list_map_plus {A} (f g : A → nat) (l : list A) :
  sum_list (map (fun x => f x + g x) l) = sum_list (map f l) + sum_list (map g l).
Proof. induction l as [|x l IH]; simpl; [done|]. rewrite IH. lia. Qed.

Lemma sum_list_indicator (b start len : nat) :
  sum_list (map (fun c => if decide (c = b) then 1 else 0) (seq start len))
  = if decide (start ≤ b < start + len) then 1 else 0.
Proof.
  revert start. induction len as [|len IH]; intros start; simpl.
  { by rewrite decide_False by lia. }
  rewrite IH. repeat case_decide; lia.
Qed.

Lemma indicesWhere_length_cons P i v rest :
  length (indicesWhere P i (v :: rest))
  = (if P v then 1 else 0) + length (indicesWhere P (S i) rest).
Proof. simpl. by destruct (P v). Qed.

Lemma sum_indicesWhere uniqueVertices bound positions i :
  (∀ v, v ∈ positions → ∃ c, uniqueVertices !! App.vertexKey 6 v = Some c ∧ c < bound) →
  sum_list (map (fun c => length (indicesWhere (mapsTo uniqueVertices (Z.of_nat c)) i positions))
                (seq 0 bound))
  = length positions.
Proof.
  revert i. induction positions as [|v rest IH]; intros i Hall.
  { simpl. induction (seq 0 bound); simpl; [done|]. by rewrite IHl. }
  destruct (Hall v) as (b & Hb & Hlt); [by left|].
  erewrite map_ext; [|intros c; apply indicesWhere_length_cons].
  rewrite sum_list_map_plus, IH by (intros w Hw; apply Hall; by right).
  erewrite (map_ext _ (fun c => if decide (c = b) then 1 else 0)).
  - rewrite sum_list_indicator, decide_True by lia. done.
  - intros c. unfold mapsTo. rewrite Hb. simpl.
    case_bool_decide as Hc; case_decide; try done; [|subst; done].
    injection Hc as Hc. lia.
Qed.

(** C5.  For every position buffer: each raw index has a canonical index,
    and it lies below the number of unique vertices; the reverse map entry
    of that canonical index holds the raw index; every canonical index
    below the number of unique vertices has an entry, which is not empty;
    every entry of the reverse map belongs to such an index; and the
    entries together hold as many raw indices as the buffer has vertices. *)
Theorem canonical_maps (positions : list Vertex) :
  (∀ i, i < length positions →
        ∃ c, forwardMap positions i = Some c ∧ c < uniqueCount positions)
  ∧ (∀ i c, forwardMap positions i = Some c →
            ∃ l, reverseMap positions !! Z.of_nat c = Some l ∧ i ∈ l)
  ∧ (∀ c, c < uniqueCount positions →
          ∃ l, reverseMap positions !! Z.of_nat c = Some l ∧ l ≠ [])
  ∧ (∀ z l, reverseMap positions !! z = Some l →
            ∃ c, z = Z.of_nat c ∧ c < uniqueCount positions)
  ∧ sum_list (map (fun c => length (rawIndices positions c)) (seq 0 (uniqueCount positions)))
    = length positions.
Proof.
  split; [|split; [|split; [|split]]].
  - intros i Hi. destruct (lookup_lt_is_Some_2 positions i Hi) as [v Hv].
    by eapply forwardMap_Some.
  - apply reverseMap_of_forwardMap.
  - intros c Hc. destruct (uniqueCount_reached positions c Hc) as (i & v & _ & Hi).
    destruct (reverseMap_of_forwardMap _ _ _ Hi) as (l & Hl & Hin).
    exists l. split; [done|]. by intros ->; apply elem_of_nil in Hin.
  - apply reverseMap_key.
  - erewrite map_ext.
    + apply (sum_indicesWhere (App.uniqueTable positions).1 (uniqueCount positions) positions 0).
      intros v [i Hi]%list_elem_of_lookup.
      destruct (forwardMap_Some _ _ _ Hi) as (c & Hc & Hlt).
      exists c. split; [|done]. unfold forwardMap in Hc. by rewrite Hi in Hc.
    + intros c. unfold rawIndices. rewrite reverseMap_lookup.
      by destruct (indicesWhere _ 0 positions).
Qed.

End Canonicalizer.

(** ** The region expander *)

Section Expander.
Context `{Runtime}.

Lemma expandIndices_fold (reverseMapping : gmap Z (list nat)) indices acc :
  fold_left (fun geometryIndices backendIdx =>
               match reverseMapping !! backendIdx with
               | Some geoIndices => geometryIndices ++ geoIndices
               | None => geometryIndices
               end) indices acc
  = acc ++ flat_map (fun z => default [] (reverseMapping !! z)) indices.
Proof.
  revert acc. induction indices as [|z rest IH]; intros acc; simpl.
  { by rewrite app_nil_r. }
  rewrite IH. destruct (reverseMapping !! z); simpl; [by rewrite app_assoc|done].
Qed.

Lemma expandIndices_flat_map (reverseMapping : gmap Z (list nat)) indices :
  App.expandIndices reverseMapping indices
  = flat_map (fun z => default [] (reverseMapping !! z)) indices.
Proof. unfold App.expandIndices. by rewrite expandIndices_fold. Qed.

Lemma expandIndices_app (reverseMapping : gmap Z (list nat)) l1 l2 :
  App.expandIndices reverseMapping (l1 ++ l2)
  = App.expandIndices reverseMapping l1 ++ App.expandIndices reverseMapping l2.
Proof. rewrite !expandIndices_flat_map. apply flat_map_app. Qed.

Lemma expandIndices_cons (reverseMapping : gmap Z (list nat)) z rest :
  App.expandIndices reverseMapping (z :: rest)
  = default [] (reverseMapping !! z) ++ App.expandIndices reverseMapping rest.
Proof. by rewrite !expandIndices_flat_map. Qed.

(** How often raw index [i] occurs in an expansion: as often as its
    canonical index occurs among the indices expanded. *)
Lemma count_occ_expandIndices positions indices i c :
  forwardMap positions i = Some c →
  count_occ Nat.eq_dec (App.expandIndices (reverseMap positions) indices) i
  = count_occ Z.eq_dec indices (Z.of_nat c).
Proof.
  intros Hc. induction indices as [|z rest IH]; [done|].
  rewrite expandIndices_cons, count_occ_app, IH. simpl.
  destruct (reverseMap positions !! z) as [l|] eqn:Hl; simpl.
  - destruct (reverseMap_entry _ _ _ Hl) as (_ & Hnd & Hin).
    destruct (Z.eq_dec z (Z.of_nat c)) as [->|Hne].
    + apply NoDup_ListNoDup in Hnd.
      rewrite (proj1 (NoDup_count_occ' Nat.eq_dec l) Hnd); [done|].
      apply list_elem_of_In, Hin. by rewrite Hc.
    + rewrite (proj1 (count_occ_not_In Nat.eq_dec l i)); [done|].
      intros Hi%list_elem_of_In%Hin. rewrite Hc in Hi. simpl in Hi. congruence.
  - destruct (Z.eq_dec z (Z.of_nat c)) as [->|Hne]; [|done].
    destruct (reverseMap_of_forwardMap _ _ _ Hc) as (l & Hl' & _). congruence.
Qed.

Lemma mapRegions_Ok reverseMapping positionCount backendRegions mapped :
  App.mapRegions reverseMapping positionCount backendRegions = Ok mapped →
  Forall2 (fun backendRegion region =>
             App.mapRegion reverseMapping positionCount backendRegion = Ok region)
          backendRegions mapped.
Proof.
  revert mapped. induction backendRegions as [|br rest IH]; intros mapped; simpl.
  { intros [= <-]. constructor. }
  destruct (App.mapRegion reverseMapping positionCount br) as [region|e] eqn:Hbr; [|done].
  rewrite bind_Ok.
  destruct (App.mapRegions reverseMapping positionCount rest) as [others|e]; [|done].
  rewrite bind_Ok. intros [= <-]. constructor; [done|]. by apply IH.
Qed.

Lemma mapRegion_Ok reverseMapping positionCount backendRegion region :
  App.mapRegion reverseMapping positionCount backendRegion = Ok region →
  ∃ indices, App.br_vertex_indices backendRegion = Some indices
    ∧ App.vertex_indices region = App.expandIndices reverseMapping indices
    ∧ App.vertex_count region = length (App.vertex_indices region)
    ∧ App.id region = App.br_id backendRegion
    ∧ App.color region = App.br_color backendRegion.
Proof.
  unfold App.mapRegion. destruct (App.br_vertex_indices backendRegion) as [indices|]; [|done].
  intros [= <-]. by exists indices.
Qed.

Lemma segmentWithBackend_Ok oracle geometry mapped :
  App.segmentWithBackend oracle geometry = Ok mapped →
  ∃ backendRegions,
    oracleRegions oracle geometry = Some backendRegions
    ∧ App.mapRegions (reverseMap (items (attributes_position geometry)))
        (length (items (attributes_position geometry))) backendRegions = Ok mapped.
Proof.
  unfold App.segmentWithBackend, oracleRegions, reverseMap.
  destruct (App.uniqueTable (items (attributes_position geometry)))
    as [uniqueVertices vertexArray]. simpl.
  destruct (oracle vertexArray) as [|ok statusText json]; [done|].
  destruct ok; simpl; [|done].
  destruct json as [data|]; [|done].
  destruct (App.resp_success data); simpl; [|done].
  destruct (App.resp_regions data) as [backendRegions|]; [|done].
  intros Hmapped. by exists backendRegions.
Qed.

(** C1, as the code has it.  When [segmentWithBackend] returns, its [k]-th
    region comes from the [k]-th region of the service's answer, and every
    raw index of a reverse map entry occurs in the region's expanded list
    exactly as often as the canonical index of that entry occurs in the
    answer's list: once for an index listed once, twice for one listed
    twice, never for one not listed. *)
Theorem expansion_multiplicity oracle geometry mapped k region :
  App.segmentWithBackend oracle geometry = Ok mapped →
  mapped !! k = Some region →
  ∃ backendRegions backendRegion indices,
    oracleRegions oracle geometry = Some backendRegions
    ∧ backendRegions !! k = Some backendRegion
    ∧ App.br_vertex_indices backendRegion = Some indices
    ∧ ∀ c l i,
        reverseMap (items (attributes_position geometry)) !! c = Some l → i ∈ l →
        count_occ Nat.eq_dec (App.vertex_indices region) i = count_occ Z.eq_dec indices c.
Proof.
  intros (backendRegions & Horacle & Hmap%mapRegions_Ok)%segmentWithBackend_Ok Hk.
  destruct (Forall2_lookup_r _ _ _ _ _ Hmap Hk) as (backendRegion & Hbr & Hregion).
  destruct (mapRegion_Ok _ _ _ _ Hregion) as (indices & Hindices & Hexpanded & _).
  exists backendRegions, backendRegion, indices. repeat (split; [done|]).
  intros c l i Hl Hi. rewrite Hexpanded.
  destruct (reverseMap_entry _ _ _ Hl) as (_ & _ & Hin).
  apply Hin in Hi.
  destruct (forwardMap (items (attributes_position geometry)) i) as [c'|] eqn:Hc'; [|done].
  injection Hi as <-. by apply count_occ_expandIndices.
Qed.

(** An index the reverse map has no entry for adds nothing to an expansion,
    and the indices after it are expanded as without it. *)
Lemma expandIndices_skip (reverseMapping : gmap Z (list nat)) before z after :
  reverseMapping !! z = None →
  App.expandIndices reverseMapping (before ++ z :: after)
  = App.expandIndices reverseMapping (before ++ after).
Proof.
  intros Hz. rewrite !expandIndices_app, expandIndices_cons. by rewrite Hz.
Qed.

Lemma reverseMap_outside positions z :
  (z < 0 ∨ Z.of_nat (uniqueCount positions) ≤ z)%Z → reverseMap positions !! z = None.
Proof.
  intros Hz. destruct (reverseMap positions !! z) as [l|] eqn:Hl; [|done].
  destruct (reverseMap_key _ _ _ Hl) as (c & -> & Hc). lia.
Qed.

Lemma mapRegions_total reverseMapping positionCount backendRegions :
  Forall (fun backendRegion => is_Some (App.br_vertex_indices backendRegion)) backendRegions →
  ∃ mapped, App.mapRegions reverseMapping positionCount backendRegions = Ok mapped.
Proof.
  induction 1 as [|br rest [indices Hbr] _ [mapped IH]]; simpl; [by eexists|].
  unfold App.mapRegion. rewrite Hbr, bind_Ok, IH, bind_Ok. by eexists.
Qed.

End Expander.

(** *** A seam vertex listed twice *)

(** C1 as stated fails: raw indices 0 and 1 share canonical index 0, the
    service lists that index twice, and each of them is in the expanded list
    twice. *)
Lemma expansion_duplicates :
  reverseMap (items (attributes_position seamGeometry)) !! 0%Z = Some [0; 1]
  ∧ App.segmentWithBackend twiceOracle seamGeometry = Ok [seamRegion]
  ∧ count_occ Nat.eq_dec (App.vertex_indices seamRegion) 0 = 2.
Proof. split; [|split]; reflexivity. Qed.

(** The multiplicities for the seam geometry and the answer that lists index 0 twice. *)
Lemma expansion_multiplicity_witness :
  ∃ backendRegions backendRegion indices,
    oracleRegions twiceOracle seamGeometry = Some backendRegions
    ∧ backendRegions !! 0 = Some backendRegion
    ∧ App.br_vertex_indices backendRegion = Some indices
    ∧ ∀ c l i,
        reverseMap (items (attributes_position seamGeometry)) !! c = Some l → i ∈ l →
        count_occ Nat.eq_dec (App.vertex_indices seamRegion) i = count_occ Z.eq_dec indices c.
Proof.
  apply (expansion_multiplicity twiceOracle seamGeometry [seamRegion] 0 seamRegion);
    reflexivity.
Defined.

(** ** The colour compositor *)

Section Compositor.
Context `{Runtime}.

Lemma length_writeColor colors idx c : length (writeColor colors idx c) = length colors.
Proof. unfold writeColor, store. by rewrite !length_insert. Qed.

Lemma readColor_writeColor_eq colors idx c :
  idx * 3 + 2 < length colors → readColor (writeColor colors idx c) idx = Some (stored c).
Proof.
  intros Hlen. unfold readColor, writeColor, store.
  rewrite list_lookup_insert_ne, list_lookup_insert_ne by lia.
  rewrite list_lookup_insert_eq by lia.
  rewrite list_lookup_insert_ne by lia.
  rewrite list_lookup_insert_eq by (rewrite length_insert; lia).
  rewrite list_lookup_insert_eq by (rewrite !length_insert; lia).
  done.
Qed.

Lemma readColor_writeColor_ne colors idx j c :
  j ≠ idx → readColor (writeColor colors idx c) j = readColor colors j.
Proof.
  intros Hne. unfold readColor, writeColor, store.
  by rewrite !list_lookup_insert_ne by lia.
Qed.

Lemma length_fillDefault vertexCount c : length (App.fillDefault vertexCount c) = vertexCount * 3.
Proof.
  unfold App.fillDefault.
  assert (∀ l colors, length (fold_left (fun colors i => writeColor colors i c) l colors)
                      = length colors) as Hfold.
  { induction l as [|i l IH]; intros colors; simpl; [done|].
    by rewrite IH, length_writeColor. }
  rewrite Hfold. unfold Float32Array. by rewrite length_replicate.
Qed.

Lemma readColor_fill_from c l colors j :
  (∀ i, i ∈ l → i * 3 + 2 < length colors) →
  readColor (fold_left (fun colors i => writeColor colors i c) l colors) j
  = if decide (j ∈ l) then Some (stored c) else readColor colors j.
Proof.
  revert colors. induction l as [|i l IH]; intros colors Hlen; cbn [fold_left].
  { by destruct (decide (j ∈ [])) as [Hj%elem_of_nil|]. }
  rewrite IH.
  - destruct (decide (j ∈ l)) as [Hj|Hj].
    + rewrite decide_True; [done|]. by right.
    + destruct (decide (j = i)) as [->|Hne].
      * rewrite decide_True by by left.
        apply readColor_writeColor_eq, Hlen. by left.
      * rewrite decide_False by (intros [?|?]%elem_of_cons; done).
        by apply readColor_writeColor_ne.
  - intros k Hk. rewrite length_writeColor. apply Hlen. by right.
Qed.

Lemma readColor_fillDefault vertexCount c j :
  j < vertexCount → readColor (App.fillDefault vertexCount c) j = Some (stored c).
Proof.
  intros Hj. unfold App.fillDefault. rewrite readColor_fill_from.
  - rewrite decide_True; [done|]. apply elem_of_seq. lia.
  - intros i Hi%elem_of_seq. unfold Float32Array. rewrite length_replicate. lia.
Qed.

Lemma length_paintIndices vertexCount c indices colors :
  length (App.paintIndices vertexCount c indices colors) = length colors.
Proof.
  unfold App.paintIndices. revert colors.
  induction indices as [|idx rest IH]; intros colors; simpl; [done|].
  rewrite IH. case_decide; [apply length_writeColor|done].
Qed.

Lemma readColor_paintIndices vertexCount c indices colors j :
  length colors = vertexCount * 3 → j < vertexCount →
  readColor (App.paintIndices vertexCount c indices colors) j
  = if decide (j ∈ indices) then Some (stored c) else readColor colors j.
Proof.
  unfold App.paintIndices. intros Hlen Hj. revert colors Hlen.
  induction indices as [|idx rest IH]; intros colors Hlen; cbn [fold_left].
  { by destruct (decide (j ∈ [])) as [Hin%elem_of_nil|]. }
  rewrite IH.
  2:{ destruct (decide (idx < vertexCount)); [by rewrite length_writeColor|done]. }
  destruct (decide (j ∈ rest)) as [Hin|Hin].
  - rewrite decide_True; [done|]. by right.
  - destruct (decide (j = idx)) as [->|Hne].
    + destruct (decide (idx ∈ idx :: rest)) as [_|Hn]; [|exfalso; apply Hn; by left].
      destruct (decide (idx < vertexCount)); [|lia].
      apply readColor_writeColor_eq. lia.
    + destruct (decide (j ∈ idx :: rest)) as [[?|?]%elem_of_cons|_]; [done|done|].
      destruct (decide (idx < vertexCount)); [by apply readColor_writeColor_ne|done].
Qed.

Lemma length_paintRegion vertexCount painted colors region :
  length (App.paintRegion vertexCount painted colors region) = length colors.
Proof.
  unfold App.paintRegion. destruct (App.visible region); simpl; [|done].
  apply length_paintIndices.
Qed.

Lemma length_paintRegions vertexCount painted regionList colors :
  length (fold_left (App.paintRegion vertexCount painted) regionList colors) = length colors.
Proof.
  revert colors. induction regionList as [|region rest IH]; intros colors; simpl; [done|].
  by rewrite IH, length_paintRegion.
Qed.

Lemma readColor_paintRegion vertexCount painted colors region j :
  length colors = vertexCount * 3 → j < vertexCount →
  readColor (App.paintRegion vertexCount painted colors region) j
  = if decide (paints j region)
    then Some (stored (App.THREE_Color (App.colorHexOf painted region)))
    else readColor colors j.
Proof.
  intros Hlen Hj. unfold App.paintRegion.
  destruct (decide (paints j region)) as [[Hvisible Hin]|Hnot].
  - rewrite Hvisible. simpl. rewrite readColor_paintIndices by done. by rewrite decide_True.
  - destruct (App.visible region) eqn:Hvisible; simpl; [|done].
    rewrite readColor_paintIndices by done.
    rewrite decide_False; [done|]. intros Hin. by apply Hnot.
Qed.

(** The last region of the list that paints [j] decides its colour. *)
Lemma readColor_paintRegions_last vertexCount painted before region after colors j :
  length colors = vertexCount * 3 → j < vertexCount →
  paints j region → Forall (fun later => ¬ paints j later) after →
  readColor (fold_left (App.paintRegion vertexCount painted) (before ++ region :: after) colors) j
  = Some (stored (App.THREE_Color (App.colorHexOf painted region))).
Proof.
  intros Hlen Hj Hregion Hafter.
  rewrite fold_left_app. simpl.
  set (base := fold_left (App.paintRegion vertexCount painted) before colors).
  assert (length base = vertexCount * 3) as Hbase by (unfold base; by rewrite length_paintRegions).
  assert (readColor (App.paintRegion vertexCount painted base region) j
          = Some (stored (App.THREE_Color (App.colorHexOf painted region)))) as Hhere.
  { rewrite readColor_paintRegion by done. by rewrite decide_True. }
  assert (length (App.paintRegion vertexCount painted base region) = vertexCount * 3) as Hlen'.
  { by rewrite length_paintRegion. }
  revert Hhere Hlen'. generalize (App.paintRegion vertexCount painted base region).
  induction Hafter as [|later rest Hlater _ IH]; intros current Hhere Hlen'; simpl; [done|].
  apply IH.
  - rewrite readColor_paintRegion by done. by rewrite decide_False.
  - by rewrite length_paintRegion.
Qed.

Lemma readColor_paintRegions_none vertexCount painted regionList colors j :
  length colors = vertexCount * 3 → j < vertexCount →
  Forall (fun region => ¬ paints j region) regionList →
  readColor (fold_left (App.paintRegion vertexCount painted) regionList colors) j
  = readColor colors j.
Proof.
  intros Hlen Hj Hnone. revert colors Hlen.
  induction Hnone as [|region rest Hregion _ IH]; intros colors Hlen; simpl; [done|].
  rewrite IH by by rewrite length_paintRegion.
  rewrite readColor_paintRegion by done. by rewrite decide_False.
Qed.

End Compositor.

Section PaintState.
Context `{Runtime}.

(** C10.  [toggleRegionVisibility] keeps the list of regions in place and
    in order; a region whose id is the given one has its [visible] flag
    negated and every other field as before; a region with another id is
    the same region; and the overrides, the model, the selection and the
    flags of the component are as before. *)
Theorem toggleRegionVisibility_frame (regionId : string) (st : App.AppState) :
  Forall2 (fun before after =>
             App.id after = App.id before
             ∧ App.name after = App.name before
             ∧ App.color after = App.color before
             ∧ App.vertex_indices after = App.vertex_indices before
             ∧ App.vertex_count after = App.vertex_count before
             ∧ App.vertex_percentage after = App.vertex_percentage before
             ∧ App.visible after
               = (if decide (App.id before = regionId)
                  then negb (App.visible before) else App.visible before)
             ∧ (App.id before ≠ regionId → after = before))
          (App.regions st) (App.regions (App.toggleRegionVisibility regionId st))
  ∧ App.paintedColors (App.toggleRegionVisibility regionId st) = App.paintedColors st
  ∧ App.modelData (App.toggleRegionVisibility regionId st) = App.modelData st
  ∧ App.selectedRegion (App.toggleRegionVisibility regionId st) = App.selectedRegion st
  ∧ App.selectedColor (App.toggleRegionVisibility regionId st) = App.selectedColor st
  ∧ App.isLoading (App.toggleRegionVisibility regionId st) = App.isLoading st
  ∧ App.error (App.toggleRegionVisibility regionId st) = App.error st.
Proof.
  split; [|done]. simpl.
  induction (App.regions st) as [|region rest IH]; simpl; constructor; [|done].
  unfold App.toggleRegion. destruct (decide (App.id region = regionId)); simpl; done.
Qed.

(** Toggling a region twice gives back the region list, and with it the
    composed buffer. *)
Theorem toggle_twice_restores (regionId : string) (st : App.AppState) (vertexCount : nat) :
  App.regions (App.toggleRegionVisibility regionId (App.toggleRegionVisibility regionId st))
  = App.regions st
  ∧ App.composeColors vertexCount
      (App.regions (App.toggleRegionVisibility regionId
                      (App.toggleRegionVisibility regionId st)))
      (App.paintedColors (App.toggleRegionVisibility regionId
                            (App.toggleRegionVisibility regionId st)))
    = App.composeColors vertexCount (App.regions st) (App.paintedColors st).
Proof.
  assert (App.regions (App.toggleRegionVisibility regionId
                         (App.toggleRegionVisibility regionId st)) = App.regions st) as Hregions.
  { simpl. rewrite map_map. induction (App.regions st) as [|region rest IH]; simpl; [done|].
    rewrite IH. f_equal. unfold App.toggleRegion.
    destruct (decide (App.id region = regionId)) as [Hid|Hid]; simpl.
    - rewrite decide_True by done. simpl. rewrite negb_involutive. by destruct region.
    - by rewrite decide_False. }
  split; [done|]. by rewrite Hregions.
Qed.

(** [resetColors] leaves no override, whatever was selected before, and
    changes no region. *)
Theorem resetColors_clears (regionId colour : string) (st : App.AppState) :
  App.paintedColors (App.resetColors (App.handleColorSelect regionId colour st)) = ∅
  ∧ App.regions (App.resetColors (App.handleColorSelect regionId colour st)) = App.regions st
  ∧ (App.paintedColors st = ∅ →
     ∀ vertexCount,
       App.composeColors vertexCount
         (App.regions (App.resetColors (App.handleColorSelect regionId colour st)))
         (App.paintedColors (App.resetColors (App.handleColorSelect regionId colour st)))
       = App.composeColors vertexCount (App.regions st) (App.paintedColors st)).
Proof. split; [done|]. split; [done|]. simpl. by intros ->. Qed.

End PaintState.

(** ** The upload pipeline *)

Section Upload.
Context `{Runtime}.

Lemma mapRegions_indices_missing reverseMapping positionCount backendRegions :
  Exists (fun region => App.br_vertex_indices region = None) backendRegions →
  App.mapRegions reverseMapping positionCount backendRegions = Throw TypeError.
Proof.
  induction 1 as [region rest Hregion|region rest _ IH]; simpl.
  - unfold App.mapRegion. by rewrite Hregion.
  - unfold App.mapRegion. destruct (App.br_vertex_indices region); [|done].
    by rewrite bind_Ok, IH.
Qed.

Lemma prepareGeometry_parse_failure file e :
  App.parseSTL (App.file_bytes file) = Throw e → App.prepareGeometry file = Throw e.
Proof. unfold App.prepareGeometry. by intros ->. Qed.

(** The updates of a call that fails: the two that open it, the error, and
    the one of the [finally] block. *)
Lemma failed_upload_actions oracle st file e :
  UploadFails oracle file e →
  App.handleFileUpload oracle st (Some file)
  = [App.SetIsLoading true; App.SetError ""; App.SetError (App.message e);
     App.SetIsLoading false].
Proof.
  unfold App.handleFileUpload.
  destruct 1 as [e Hparse|g Hg Ho|g statusText json Hg Ho|g statusText Hg Ho
                |g statusText data Hg Ho Hs|g statusText data Hg Ho Hs Hr
                |g statusText data brs Hg Ho Hs Hr Hbr].
  - by rewrite (prepareGeometry_parse_failure _ _ Hparse).
  - rewrite Hg. unfold App.segmentWithBackend, request in *.
    destruct (App.uniqueTable _) as [uniqueVertices vertexArray]. simpl in *. by rewrite Ho.
  - rewrite Hg. unfold App.segmentWithBackend, request in *.
    destruct (App.uniqueTable _) as [uniqueVertices vertexArray]. simpl in *. by rewrite Ho.
  - rewrite Hg. unfold App.segmentWithBackend, request in *.
    destruct (App.uniqueTable _) as [uniqueVertices vertexArray]. simpl in *. by rewrite Ho.
  - rewrite Hg. unfold App.segmentWithBackend, request in *.
    destruct (App.uniqueTable _) as [uniqueVertices vertexArray]. simpl in *.
    by rewrite Ho, Hs.
  - rewrite Hg. unfold App.segmentWithBackend, request in *.
    destruct (App.uniqueTable _) as [uniqueVertices vertexArray]. simpl in *.
    by rewrite Ho, Hs, Hr.
  - rewrite Hg. unfold App.segmentWithBackend, request in *.
    destruct (App.uniqueTable _) as [uniqueVertices vertexArray]. simpl in *.
    rewrite Ho, Hs, Hr. simpl. by rewrite mapRegions_indices_missing.
Qed.

(** C4.  When an upload fails in any of these ways, the handler makes four
    state updates, none of which is to the region list, the overrides, the
    model or the mesh; so after each of them, and at the end, the region
    list, the overrides and the model with its geometry and colour buffer
    are those from before the upload. *)
Theorem failed_upload_preserves oracle st file e :
  UploadFails oracle file e →
  App.handleFileUpload oracle st (Some file)
  = [App.SetIsLoading true; App.SetError ""; App.SetError (App.message e);
     App.SetIsLoading false]
  ∧ ∀ n, App.regions (App.run st (take n (App.handleFileUpload oracle st (Some file))))
         = App.regions st
       ∧ App.paintedColors (App.run st (take n (App.handleFileUpload oracle st (Some file))))
         = App.paintedColors st
       ∧ App.modelData (App.run st (take n (App.handleFileUpload oracle st (Some file))))
         = App.modelData st
       ∧ App.meshRef (App.run st (take n (App.handleFileUpload oracle st (Some file))))
         = App.meshRef st
       ∧ App.selectedRegion (App.run st (take n (App.handleFileUpload oracle st (Some file))))
         = App.selectedRegion st.
Proof.
  intros Hfails. rewrite (failed_upload_actions oracle st file e Hfails).
  split; [done|]. intros n. by do 5 (destruct n as [|n]; [done|]).
Qed.

(** *** The file inputs *)

Lemma uploadInputs_with_model (st : App.AppState) md :
  App.modelData st = Some md → App.uploadInputs st = [newModelInput].
Proof. unfold App.uploadInputs. by intros ->. Qed.


(** With a model on screen a change event of the "New Model" input is
    taken whatever [isLoading] is, and adds a request to those outstanding. *)
Lemma new_model_upload_accepted (s : App.Session) md file geometry :
  App.modelData (App.ui s) = Some md →
  App.prepareGeometry file = Ok geometry →
  App.step s (App.Change newModelInput file) (App.beginUpload file s)
  ∧ length (App.outstanding (App.beginUpload file s)) = S (length (App.outstanding s))
  ∧ App.modelData (App.ui (App.beginUpload file s)) = Some md
  ∧ App.isLoading (App.ui (App.beginUpload file s)) = true.
Proof.
  intros Hmd Hgeometry. split.
  - constructor; [|done]. rewrite (uploadInputs_with_model _ md Hmd). by left.
  - unfold App.beginUpload. rewrite Hgeometry. simpl.
    rewrite length_app. simpl. split; [lia|done].
Qed.

End Upload.

(** *** A painted model and a second upload *)

(** The service cannot be reached while a painted model is on screen. *)
Lemma failed_upload_preserves_witness :
  App.handleFileUpload unreachable paintedState (Some nextFile)
  = [App.SetIsLoading true; App.SetError "";
     App.SetError (App.message (H := Exact.runtime) TypeError); App.SetIsLoading false]
  ∧ ∀ n, App.regions (App.run paintedState
                         (take n (App.handleFileUpload unreachable paintedState (Some nextFile))))
         = App.regions paintedState
       ∧ App.paintedColors (App.run paintedState
                         (take n (App.handleFileUpload unreachable paintedState (Some nextFile))))
         = App.paintedColors paintedState
       ∧ App.modelData (App.run paintedState
                         (take n (App.handleFileUpload unreachable paintedState (Some nextFile))))
         = App.modelData paintedState
       ∧ App.meshRef (App.run paintedState
                         (take n (App.handleFileUpload unreachable paintedState (Some nextFile))))
         = App.meshRef paintedState
       ∧ App.selectedRegion (App.run paintedState
                         (take n (App.handleFileUpload unreachable paintedState (Some nextFile))))
         = App.selectedRegion paintedState.
Proof.
  apply (failed_upload_preserves unreachable paintedState nextFile TypeError).
  apply (transport_failure unreachable nextFile (mkGeometry (H := Exact.runtime) [] [] None));
    reflexivity.
Defined.

(** C9 fails on the code: with a model on screen, the "New Model" input
    takes a file, which starts a request and sets [isLoading]; the input is
    still there and not disabled, takes a second file, and two requests are
    outstanding. *)
Lemma second_request_in_flight :
  ∃ s1 s2,
    App.step loadedSession (App.Change newModelInput nextFile) s1
    ∧ App.isLoading (App.ui s1) = true
    ∧ length (App.outstanding s1) = 1
    ∧ App.uploadInputs (App.ui s1) = [newModelInput]
    ∧ App.step s1 (App.Change newModelInput nextFile) s2
    ∧ length (App.outstanding s2) = 2.
Proof.
  exists (App.beginUpload nextFile loadedSession),
         (App.beginUpload nextFile (App.beginUpload nextFile loadedSession)).
  split; [|split; [|split; [|split; [|split]]]]; try reflexivity.
  - constructor; [by left|done].
  - constructor; [by left|done].
Qed.

(** ** The single-file variant *)

Section Legacy.
Context `{Runtime}.

Lemma uniqueToFullFrom_lookup vertexIndex positions (uniqueToFull : gmap string (list nat)) k :
  SimpleApp.uniqueToFullFrom vertexIndex positions uniqueToFull !! k =
    match indicesWhere (hasKey k) vertexIndex positions with
    | [] => uniqueToFull !! k
    | hits => Some (default [] (uniqueToFull !! k) ++ hits)
    end.
Proof.
  revert vertexIndex uniqueToFull.
  induction positions as [|v rest IH]; intros vertexIndex uniqueToFull; [done|].
  cbn [SimpleApp.uniqueToFullFrom indicesWhere]. rewrite IH. unfold hasKey at 2.
  case_bool_decide as Hk.
  - subst k. rewrite lookup_insert_eq. simpl.
    destruct (indicesWhere _ (S vertexIndex) rest); [done|]. by rewrite <- app_assoc.
  - by rewrite lookup_insert_ne.
Qed.

Lemma uniqueToFullTable_lookup positions k :
  SimpleApp.uniqueToFullTable positions !! k =
    match indicesWhere (hasKey k) 0 positions with
    | [] => None
    | hits => Some hits
    end.
Proof.
  unfold SimpleApp.uniqueToFullTable. rewrite uniqueToFullFrom_lookup, lookup_empty.
  by destruct (indicesWhere _ 0 positions).
Qed.

Lemma uniqueToFullTable_entry positions k l i :
  SimpleApp.uniqueToFullTable positions !! k = Some l →
  i ∈ l ↔ ∃ v, positions !! i = Some v ∧ App.vertexKey 4 v = k.
Proof.
  rewrite uniqueToFullTable_lookup.
  pose proof (elem_of_indicesWhere (hasKey k) 0 positions i) as Hin.
  destruct (indicesWhere _ 0 positions) as [|h t]; [done|]. intros [= <-].
  rewrite Hin, Nat.sub_0_r. unfold hasKey. split.
  - intros (_ & v & Hv & Hk%bool_decide_eq_true). eauto.
  - intros (v & Hv & Hk). split; [lia|]. exists v. split; [done|]. by apply bool_decide_eq_true.
Qed.

(** Two raw vertices are in one entry of [uniqueToFull] exactly when their
    four-digit keys are the same string. *)
Lemma uniqueToFull_same_entry positions i j vi vj :
  positions !! i = Some vi → positions !! j = Some vj →
  (∃ k l, SimpleApp.uniqueToFullTable positions !! k = Some l ∧ i ∈ l ∧ j ∈ l)
  ↔ App.vertexKey 4 vi = App.vertexKey 4 vj.
Proof.
  intros Hi Hj. split.
  - intros (k & l & Hl & Hil & Hjl).
    apply (uniqueToFullTable_entry _ _ _ _ Hl) in Hil as (v & Hv & <-).
    apply (uniqueToFullTable_entry _ _ _ _ Hl) in Hjl as (w & Hw & Hk). congruence.
  - intros Hkey.
    destruct (SimpleApp.uniqueToFullTable positions !! App.vertexKey 4 vi) as [l|] eqn:Hl.
    + exists (App.vertexKey 4 vi), l. split; [done|].
      rewrite !(uniqueToFullTable_entry _ _ _ _ Hl). split; eauto.
    + rewrite uniqueToFullTable_lookup in Hl.
      assert (i ∈ indicesWhere (hasKey (App.vertexKey 4 vi)) 0 positions) as Hin.
      { rewrite elem_of_indicesWhere, Nat.sub_0_r. split; [lia|].
        exists vi. split; [done|]. by apply bool_decide_eq_true. }
      destruct (indicesWhere _ 0 positions); [by apply elem_of_nil in Hin|done].
Qed.

Lemma legacy_inv_addUnique seen st v :
  legacy_inv seen st → legacy_inv (seen ++ [v]) (SimpleApp.addUnique st v).
Proof.
  destruct st as [keys vertArray]. intros (Hseen & Harray & Hnd).
  unfold legacy_inv, SimpleApp.addUnique. simpl in *.
  destruct (decide (App.vertexKey 4 v ∈ keys)) as [Hv|Hv]; simpl.
  - split; [|by split]. intros k. rewrite Hseen. split.
    + intros (w & Hw & Hk). exists w. split; [|done]. apply elem_of_app. by left.
    + intros (w & [Hw|Hw%list_elem_of_singleton]%elem_of_app & Hk); [by eauto|].
      subst. by apply Hseen.
  - split; [|split].
    + intros k. rewrite elem_of_union, elem_of_singleton, Hseen. split.
      * intros [->|(w & Hw & Hk)].
        -- exists v. split; [|done]. apply elem_of_app. right. by constructor.
        -- exists w. split; [|done]. apply elem_of_app. by left.
      * intros (w & [Hw|Hw%list_elem_of_singleton]%elem_of_app & Hk); [by eauto|].
        subst. by left.
    + intros k. rewrite elem_of_union, elem_of_singleton, Harray. split.
      * intros [->|(w & Hw & Hk)].
        -- exists v. split; [|done]. apply elem_of_app. right. by constructor.
        -- exists w. split; [|done]. apply elem_of_app. by left.
      * intros (w & [Hw|Hw%list_elem_of_singleton]%elem_of_app & Hk); [by eauto|].
        subst. by left.
    + rewrite map_app. simpl. apply NoDup_app. split; [done|]. split.
      * intros k Hk [->|[]%elem_of_nil]%elem_of_cons. apply Hv, Harray.
        apply list_elem_of_In, in_map_iff in Hk as (w & Hw & Hin).
        exists w. split; [by apply list_elem_of_In|done].
      * apply NoDup_singleton.
Qed.

Lemma legacy_uniqueTable_inv positions : legacy_inv positions (SimpleApp.uniqueTable positions).
Proof.
  unfold SimpleApp.uniqueTable.
  assert (∀ l seen st, legacy_inv seen st →
                       legacy_inv (seen ++ l) (fold_left SimpleApp.addUnique l st)) as Hfold.
  { induction l as [|v rest IH]; intros seen st Hinv; simpl.
    - by rewrite app_nil_r.
    - replace (seen ++ v :: rest) with ((seen ++ [v]) ++ rest) by by rewrite <- app_assoc.
      by apply IH, legacy_inv_addUnique. }
  apply (Hfold positions [] (∅, [])). split; [|split]; simpl.
  - intros k. split; [by intros ?%elem_of_empty|]. by intros (v & ?%elem_of_nil & _).
  - intros k. split; [by intros ?%elem_of_empty|]. by intros (v & ?%elem_of_nil & _).
  - constructor.
Qed.

(** *** The colouring step *)

Lemma paintBackendIndex_negative vertArray uniqueToFull c colors (backendIdx : Z) :
  (backendIdx < 0)%Z →
  SimpleApp.paintBackendIndex vertArray uniqueToFull c colors backendIdx = Throw TypeError.
Proof.
  intros Hneg. unfold SimpleApp.paintBackendIndex, SimpleApp.arrayGet.
  rewrite decide_True by lia. by rewrite decide_False by lia.
Qed.

Lemma paintBackendIndex_past_end vertArray uniqueToFull c colors (backendIdx : Z) :
  (Z.of_nat (length vertArray) ≤ backendIdx)%Z →
  SimpleApp.paintBackendIndex vertArray uniqueToFull c colors backendIdx = Ok colors.
Proof.
  intros Hpast. unfold SimpleApp.paintBackendIndex. by rewrite decide_False by lia.
Qed.

Lemma draws_cons region rest :
  draws (region :: rest)
  = (if decide (drawsColor (App.br_id region)) then 1 else 0) + draws rest.
Proof. unfold draws. rewrite filter_cons. by case_decide. Qed.

Lemma regionColor_calls random calls regionId :
  (SimpleApp.regionColor random calls regionId).2
  = calls + (if decide (drawsColor regionId) then 1 else 0).
Proof.
  unfold SimpleApp.regionColor.
  destruct (decide (drawsColor regionId)) as [[Hnone Hnot]|Hknown].
  - rewrite Hnone, decide_False by done. simpl. lia.
  - destruct (SimpleApp.regionColorMap !! regionId) as [hex|] eqn:Hhex; simpl; [lia|].
    destruct (decide (regionId ∈ Object_prototype)) as [Hin|Hnot]; simpl; [lia|].
    by destruct Hknown.
Qed.

Lemma regionColor_agree random1 random2 calls regionId :
  (drawsColor regionId → random1 calls = random2 calls) →
  SimpleApp.regionColor random1 calls regionId = SimpleApp.regionColor random2 calls regionId.
Proof.
  unfold SimpleApp.regionColor. intros Hdraw.
  destruct (SimpleApp.regionColorMap !! regionId) as [hex|] eqn:Hhex; [done|].
  destruct (decide (regionId ∈ Object_prototype)); [done|]. by rewrite Hdraw.
Qed.

(** The colours of the regions depend on [Math.random] through the calls
    made for them, in the order of the list. *)
Lemma paintRegions_draws random1 random2 vertArray uniqueToFull regionList calls colors :
  (∀ k, calls ≤ k < calls + draws regionList → random1 k = random2 k) →
  SimpleApp.paintRegions random1 vertArray uniqueToFull regionList calls colors
  = SimpleApp.paintRegions random2 vertArray uniqueToFull regionList calls colors.
Proof.
  revert calls colors.
  induction regionList as [|region rest IH]; intros calls colors Hsame; [done|].
  cbn [SimpleApp.paintRegions]. rewrite draws_cons in Hsame.
  rewrite (regionColor_agree random1 random2 calls (App.br_id region)).
  2:{ intros Hdraw. apply Hsame. rewrite decide_True by done. lia. }
  pose proof (regionColor_calls random2 calls (App.br_id region)) as Hcalls.
  destruct (SimpleApp.regionColor random2 calls (App.br_id region)) as [c calls'].
  simpl in Hcalls. destruct (App.br_vertex_indices region) as [indices|]; [|done].
  destruct (SimpleApp.paintBackendIndices _ _ _ indices colors) as [colors'|e]; [|done].
  rewrite !bind_Ok. apply IH. intros k Hk. apply Hsame.
  destruct (decide (drawsColor (App.br_id region))); lia.
Qed.

Lemma draws_none regionList :
  draws regionList = 0
  ↔ Forall (fun region => is_Some (SimpleApp.regionColorMap !! App.br_id region)
                          ∨ App.br_id region ∈ Object_prototype) regionList.
Proof.
  induction regionList as [|region rest IH]; [by split; [constructor|]|].
  rewrite draws_cons, Forall_cons, <- IH.
  destruct (decide (drawsColor (App.br_id region))) as [[Hnone Hnot]|Hknown].
  - split; [lia|]. rewrite Hnone. by intros [[[? [=]]|?] _].
  - split; [|by intros [_ ?]]. intros Hrest. split; [|done].
    destruct (SimpleApp.regionColorMap !! App.br_id region) as [hex|] eqn:Hhex; [by eauto|].
    destruct (decide (App.br_id region ∈ Object_prototype)); [by right|].
    by destruct Hknown.
Qed.

End Legacy.

Section Keys.
Context `{Runtime}.

Lemma rawIndices_forwardMap positions i c :
  i ∈ rawIndices positions c ↔ forwardMap positions i = Some c.
Proof.
  unfold rawIndices. split.
  - destruct (reverseMap positions !! Z.of_nat c) as [l|] eqn:Hl; simpl.
    + destruct (reverseMap_entry _ _ _ Hl) as (_ & _ & Hin). intros Hi%Hin.
      destruct (forwardMap positions i) as [c'|]; [|done].
      injection Hi as Hi. f_equal. lia.
    + by intros ?%elem_of_nil.
  - intros Hc. destruct (reverseMap_of_forwardMap _ _ _ Hc) as (l & -> & Hi). done.
Qed.

(** The tables of both files, each over the buffer it is built from.  In
    [App.tsx] the table of unique vertices and the reverse mapping both use
    the six-digit key: two raw vertices have the same canonical index
    exactly when their six-digit keys are the same string, and the reverse
    map entry of a canonical index holds exactly the raw indices whose
    canonical index it is.  In [SimpleApp.tsx] both tables use the
    four-digit key: the array of unique vertices has one vertex for each
    four-digit key of the buffer and no two with the same key, so two raw
    vertices are represented by the same unique vertex exactly when their
    four-digit keys are the same string; and two raw vertices are in one
    entry of [uniqueToFull] exactly when their four-digit keys are the same
    string. *)
Theorem key_precision (positions : list Vertex) :
  (∀ i j vi vj,
     positions !! i = Some vi → positions !! j = Some vj →
     forwardMap positions i = forwardMap positions j
     ↔ App.vertexKey 6 vi = App.vertexKey 6 vj)
  ∧ (∀ i c, i ∈ rawIndices positions c ↔ forwardMap positions i = Some c)
  ∧ NoDup (map (App.vertexKey 4) (SimpleApp.uniqueTable positions).2)
  ∧ (∀ k, (∃ v, v ∈ positions ∧ App.vertexKey 4 v = k)
          ↔ (∃ w, w ∈ (SimpleApp.uniqueTable positions).2 ∧ App.vertexKey 4 w = k))
  ∧ (∀ i j vi vj,
       positions !! i = Some vi → positions !! j = Some vj →
       (∃ w, w ∈ (SimpleApp.uniqueTable positions).2
             ∧ App.vertexKey 4 w = App.vertexKey 4 vi
             ∧ App.vertexKey 4 w = App.vertexKey 4 vj)
       ↔ App.vertexKey 4 vi = App.vertexKey 4 vj)
  ∧ (∀ i j vi vj,
       positions !! i = Some vi → positions !! j = Some vj →
       (∃ k l, SimpleApp.uniqueToFullTable positions !! k = Some l ∧ i ∈ l ∧ j ∈ l)
       ↔ App.vertexKey 4 vi = App.vertexKey 4 vj).
Proof.
  destruct (legacy_uniqueTable_inv positions) as (Hseen & Harray & Hnd).
  split; [|split; [|split; [|split; [|split]]]].
  - apply forwardMap_key.
  - apply rawIndices_forwardMap.
  - done.
  - intros k. by rewrite <- Hseen, <- Harray.
  - intros i j vi vj Hi Hj. split.
    + intros (w & _ & Hwi & Hwj). congruence.
    + intros Hkey.
      destruct (proj1 (Harray (App.vertexKey 4 vi))) as (w & Hw & Hwi).
      { apply Hseen. exists vi. split; [|done]. by eapply list_elem_of_lookup_2. }
      exists w. split; [done|]. split; congruence.
  - apply uniqueToFull_same_entry.
Qed.

(** C6, as the code has it.  [applyColorsToGeometry] stores a buffer that
    is composed from the vertex count, the region list and the overrides
    alone, whatever buffer the geometry held before and whatever else the
    state holds; it changes neither the region list nor the overrides; and
    running it again changes nothing.  The colouring step of
    [SimpleApp.tsx] is a function of its inputs and of what [Math.random]
    returns in the calls made for the regions: it gives the same result for
    any two outcomes of [Math.random] that agree on as many calls as there
    are regions whose id is neither a key of the colour table nor the name
    of a member of [Object.prototype]; there is no call at all when no
    region has such an id. *)
Theorem compositor_deterministic :
  (∀ (st : App.AppState) md geometry,
     App.modelData st = Some md → App.md_geometry md = Some geometry →
     App.meshRef st = true →
     ∃ md' geometry',
       App.modelData (App.applyColorsToGeometry st) = Some md'
       ∧ App.md_geometry md' = Some geometry'
       ∧ attributes_color geometry'
         = Some (App.composeColors (count (attributes_position geometry))
                   (App.regions st) (App.paintedColors st))
       ∧ attributes_position geometry' = attributes_position geometry)
  ∧ (∀ st : App.AppState,
       App.regions (App.applyColorsToGeometry st) = App.regions st
       ∧ App.paintedColors (App.applyColorsToGeometry st) = App.paintedColors st)
  ∧ (∀ st : App.AppState,
       App.applyColorsToGeometry (App.applyColorsToGeometry st) = App.applyColorsToGeometry st)
  ∧ (∀ random1 random2 vertices vertArray regionList,
       (∀ k, k < draws regionList → random1 k = random2 k) →
       SimpleApp.colorStep random1 vertices vertArray regionList
       = SimpleApp.colorStep random2 vertices vertArray regionList)
  ∧ (∀ regionList,
       draws regionList = 0
       ↔ Forall (fun region => is_Some (SimpleApp.regionColorMap !! App.br_id region)
                               ∨ App.br_id region ∈ Object_prototype) regionList).
Proof.
  split; [|split; [|split; [|split]]].
  - intros st md geometry Hmd Hgeometry Hmesh. unfold App.applyColorsToGeometry.
    rewrite Hmd, Hgeometry, Hmesh. simpl. by do 2 eexists.
  - intros st. unfold App.applyColorsToGeometry.
    destruct (App.modelData st) as [md|]; [|done].
    destruct (App.md_geometry md); [|done]. by destruct (App.meshRef st).
  - intros st. unfold App.applyColorsToGeometry.
    destruct (App.modelData st) as [md|] eqn:Hmd; [|by rewrite Hmd].
    destruct (App.md_geometry md) as [geometry|] eqn:Hgeometry; [|by rewrite Hmd, Hgeometry].
    destruct (App.meshRef st) eqn:Hmesh; simpl; [|by rewrite Hmd, Hgeometry, Hmesh].
    done.
  - intros random1 random2 vertices vertArray regionList Hsame.
    unfold SimpleApp.colorStep. apply paintRegions_draws.
    intros k Hk. apply Hsame. lia.
  - apply draws_none.
Qed.

(** In [App.tsx] an index the reverse map has no entry for, among them
    every index below zero or not below the number of unique vertices, adds
    nothing to a region's expanded list and leaves the expansion of the
    indices around it as it is; and mapping the regions returns whenever
    every region carries an index list, whatever the indices are. *)
Theorem expansion_skips_unknown (positions : list Vertex) :
  (∀ z, (z < 0 ∨ Z.of_nat (uniqueCount positions) ≤ z)%Z → reverseMap positions !! z = None)
  ∧ (∀ before z after,
       reverseMap positions !! z = None →
       App.expandIndices (reverseMap positions) (before ++ z :: after)
       = App.expandIndices (reverseMap positions) (before ++ after))
  ∧ (∀ backendRegions,
       Forall (fun region => is_Some (App.br_vertex_indices region)) backendRegions →
       ∃ mapped, App.mapRegions (reverseMap positions) (length positions) backendRegions
                 = Ok mapped).
Proof.
  split; [|split].
  - apply reverseMap_outside.
  - intros before z after. apply expandIndices_skip.
  - apply mapRegions_total.
Qed.

End Keys.

(** *** An unknown region id, and an index below zero *)

(** C6 as stated fails for the colouring step of [SimpleApp.tsx]: the colour
    table does not know the id "cloak", and with everything else the same
    the buffer is black when [Math.random] returns 0 and another colour
    when it returns one half. *)
Lemma legacy_random_color :
  SimpleApp.regionColorMap !! "cloak" = None
  ∧ draws [regionOf "cloak" [0%Z]] = 1
  ∧ SimpleApp.colorStep (H := Exact.runtime) (fun _ => 0%Q) [0; 0; 0]%Q [originVertex]
      [regionOf "cloak" [0%Z]]
    = Ok [0; 0; 0]%Q
  ∧ SimpleApp.colorStep (H := Exact.runtime) (fun _ => (1 # 2)%Q) [0; 0; 0]%Q [originVertex]
      [regionOf "cloak" [0%Z]]
    = Ok [16711423 # 33554432; 1; 1]%Q.
Proof. repeat split; reflexivity. Qed.

(** Two outcomes of [Math.random] that agree on the first call, and an
    answer with one region whose id the colour table does not know. *)
Lemma compositor_deterministic_witness :
  SimpleApp.colorStep (H := Exact.runtime) (fun k => if decide (k = 0) then (1 # 2)%Q else 0%Q)
    [0; 0; 0]%Q [originVertex] [regionOf "cloak" [0%Z]; regionOf "base" []]
  = SimpleApp.colorStep (H := Exact.runtime) (fun _ => (1 # 2)%Q) [0; 0; 0]%Q [originVertex]
      [regionOf "cloak" [0%Z]; regionOf "base" []].
Proof.
  apply (proj1 (proj2 (proj2 (proj2 (compositor_deterministic (H := Exact.runtime)))))).
  intros k Hk. destruct k as [|k]; [reflexivity|]. exfalso. vm_compute in Hk. lia.
Defined.

(** C8 fails on the code of [SimpleApp.tsx]: for the index -1 the test
    [backendIdx < vertArray.length] holds, [vertArray[-1]] is undefined
    and reading its first component throws; the handler ends with the
    error status and shows no mesh.  [segmentWithBackend] of [App.tsx]
    skips the same index and returns the region with no raw index. *)
Lemma legacy_negative_index_throws :
  SimpleApp.handleFileUpload (H := Exact.runtime) true (fun _ => 0%Q) negativeOracle
    (Some triangleFile)
  = [SimpleApp.SetStatus "Loading STL...";
     SimpleApp.SetVertices 3;
     SimpleApp.SetStatus "Sending 3 vertices to backend...";
     SimpleApp.SetRegions (Some [regionOf "base" [(-1)%Z]]);
     SimpleApp.SetStatus "Success! 1 regions found";
     SimpleApp.SetStatus "Error: TypeError: Cannot read properties of undefined"]
  ∧ (map App.vertex_indices
       <$> (geometry ← App.prepareGeometry (H := Exact.runtime) triangleFile;
            App.segmentWithBackend negativeOracle geometry))
    = Ok [[]].
Proof. split; reflexivity. Qed.

(** [parseSTL] of [SimpleApp.tsx] has no signature test: it decodes the
    file that [parseSTL] of [App.tsx] refuses. *)
Lemma legacy_parseSTL_no_signature_test :
  SimpleApp.parseSTL (H := Exact.runtime) solidEmpty = Ok []
  ∧ App.parseSTL (H := Exact.runtime) solidEmpty = Throw (Error App.asciiMessage).
Proof. split; reflexivity. Qed.

(** The third raw vertex of the seam geometry has a canonical index. *)
Lemma canonical_maps_witness :
  ∃ c, forwardMap (items (attributes_position seamGeometry)) 2 = Some c
       ∧ c < uniqueCount (items (attributes_position seamGeometry)).
Proof.
  apply (proj1 (canonical_maps (items (attributes_position seamGeometry))) 2).
  simpl. lia.
Defined.

(** The two coincident vertices of the seam geometry. *)
Lemma key_precision_witness :
  forwardMap (items (attributes_position seamGeometry)) 0
  = forwardMap (items (attributes_position seamGeometry)) 1
  ↔ App.vertexKey 6 originVertex = App.vertexKey 6 originVertex.
Proof.
  apply (proj1 (key_precision (items (attributes_position seamGeometry))) 0 1);
    reflexivity.
Defined.

(** The cube of the specification's scenario would do as well; the seam
    geometry already has the counts consistent: two canonical vertices,
    entries of two and of one raw index, three raw vertices. *)
Lemma seam_counts :
  uniqueCount (items (attributes_position seamGeometry)) = 2
  ∧ rawIndices (items (attributes_position seamGeometry)) 0 = [0; 1]
  ∧ rawIndices (items (attributes_position seamGeometry)) 1 = [2].
Proof. repeat split; reflexivity. Qed.


(** In [SimpleApp.tsx] the array [vertices] is the position array of the
    geometry, so [geometry.center()] and [geometry.scale()] rewrite it
    between the loop that fills [vertArray] and the loop that fills
    [uniqueToFull]: the keys looked up are those of the file's coordinates,
    the keys stored those of the centred and scaled ones.  For the triangle
    no key is found, and every vertex keeps the default grey although the
    region lists all three. *)
Lemma legacy_keys_move_with_the_geometry :
  SimpleApp.handleFileUpload (H := Exact.runtime) true (fun _ => 0%Q) wholeOracle
    (Some triangleFile)
  = [SimpleApp.SetStatus "Loading STL...";
     SimpleApp.SetVertices 3;
     SimpleApp.SetStatus "Sending 3 vertices to backend...";
     SimpleApp.SetRegions (Some [regionOf "base" [0; 1; 2]%Z]);
     SimpleApp.SetStatus "Success! 1 regions found";
     SimpleApp.ShowMesh (H := Exact.runtime)
       [-5 # 2; -5 # 2; 0; 5 # 2; -5 # 2; 0; -5 # 2; 5 # 2; 0]%Q
       (replicate 9 (Exact.fround (128 # 255)))].
Proof. reflexivity. Qed.

(** * Further properties of the code *)

(** ** What the decoders read *)

Section DecoderContents.
Context `{Runtime}.

Lemma length_store array index x : length (store array index x) = length array.
Proof. unfold store. apply length_insert. Qed.

Lemma store_lookup array index x p :
  store array index x !! p
  = if decide (index = p ∧ index < length array) then Some (fround x) else array !! p.
Proof. unfold store. apply list_lookup_insert. Qed.

(** The three stores of one corner. *)
Lemma corner_lookup array vertexIndex x y z p :
  vertexIndex + 2 < length array →
  store (store (store array vertexIndex x) (vertexIndex + 1) y) (vertexIndex + 2) z !! p
  = if decide (p = vertexIndex) then Some (fround x)
    else if decide (p = vertexIndex + 1) then Some (fround y)
    else if decide (p = vertexIndex + 2) then Some (fround z)
    else array !! p.
Proof.
  intros Hlen. rewrite !store_lookup, !length_store.
  repeat case_decide; try lia; done.
Qed.

Lemma App_readCorner_Ok view nx ny nz offset vertexIndex vertices normals st :
  App.readCorner view nx ny nz (offset, vertexIndex, vertices, normals) = Ok st →
  ∃ x y z,
    getFloat32 view offset = Ok x
    ∧ getFloat32 view (offset + 4) = Ok y
    ∧ getFloat32 view (offset + 8) = Ok z
    ∧ st = (offset + 12, vertexIndex + 3,
            store (store (store vertices vertexIndex x) (vertexIndex + 1) y) (vertexIndex + 2) z,
            store (store (store normals vertexIndex nx) (vertexIndex + 1) ny)
                  (vertexIndex + 2) nz).
Proof.
  unfold App.readCorner.
  destruct (getFloat32 view offset) as [x|]; [rewrite bind_Ok|done].
  destruct (getFloat32 view (offset + 4)) as [y|]; [rewrite bind_Ok|done].
  destruct (getFloat32 view (offset + 8)) as [z|]; [rewrite bind_Ok|done].
  intros [= <-]. by exists x, y, z.
Qed.

(** One pass of the outer loop that does not throw: the twelve reads and the
    state the next pass starts from. *)
Lemma App_readTriangles_step view n offset vertexIndex vertices normals out :
  App.readTriangles view (S n) (offset, vertexIndex, vertices, normals) = Ok out →
  ∃ nx ny nz x1 y1 z1 x2 y2 z2 x3 y3 z3,
    (getFloat32 view offset = Ok nx
     ∧ getFloat32 view (offset + 4) = Ok ny
     ∧ getFloat32 view (offset + 8) = Ok nz)
    ∧ (getFloat32 view (offset + 12) = Ok x1
       ∧ getFloat32 view (offset + 16) = Ok y1
       ∧ getFloat32 view (offset + 20) = Ok z1)
    ∧ (getFloat32 view (offset + 24) = Ok x2
       ∧ getFloat32 view (offset + 28) = Ok y2
       ∧ getFloat32 view (offset + 32) = Ok z2)
    ∧ (getFloat32 view (offset + 36) = Ok x3
       ∧ getFloat32 view (offset + 40) = Ok y3
       ∧ getFloat32 view (offset + 44) = Ok z3)
    ∧ App.readTriangles view n
        (offset + 50, vertexIndex + 9,
         store (store (store
           (store (store (store
             (store (store (store vertices vertexIndex x1) (vertexIndex + 1) y1)
                    (vertexIndex + 2) z1)
             (vertexIndex + 3) x2) (vertexIndex + 4) y2) (vertexIndex + 5) z2)
           (vertexIndex + 6) x3) (vertexIndex + 7) y3) (vertexIndex + 8) z3,
         store (store (store
           (store (store (store
             (store (store (store normals vertexIndex nx) (vertexIndex + 1) ny)
                    (vertexIndex + 2) nz)
             (vertexIndex + 3) nx) (vertexIndex + 4) ny) (vertexIndex + 5) nz)
           (vertexIndex + 6) nx) (vertexIndex + 7) ny) (vertexIndex + 8) nz)
      = Ok out.
Proof.
  cbn [App.readTriangles].
  destruct (getFloat32 view offset) as [nx|] eqn:Hnx; [rewrite bind_Ok|done].
  destruct (getFloat32 view (offset + 4)) as [ny|] eqn:Hny; [rewrite bind_Ok|done].
  destruct (getFloat32 view (offset + 8)) as [nz|] eqn:Hnz; [rewrite bind_Ok|done].
  destruct (App.readCorner view nx ny nz (offset + 12, vertexIndex, vertices, normals))
    as [st1|] eqn:H1; [rewrite bind_Ok|done].
  apply App_readCorner_Ok in H1 as (x1 & y1 & z1 & Hx1 & Hy1 & Hz1 & ->).
  destruct (App.readCorner view nx ny nz _) as [st2|] eqn:H2; [rewrite bind_Ok|done].
  apply App_readCorner_Ok in H2 as (x2 & y2 & z2 & Hx2 & Hy2 & Hz2 & ->).
  destruct (App.readCorner view nx ny nz _) as [st3|] eqn:H3; [rewrite bind_Ok|done].
  apply App_readCorner_Ok in H3 as (x3 & y3 & z3 & Hx3 & Hy3 & Hz3 & ->).
  cbv beta iota. intros Hrest.
  exists nx, ny, nz, x1, y1, z1, x2, y2, z2, x3, y3, z3.
  replace (offset + 12 + 4) with (offset + 16) in * by lia.
  replace (offset + 12 + 8) with (offset + 20) in * by lia.
  replace (offset + 12 + 12) with (offset + 24) in * by lia.
  replace (offset + 24 + 4) with (offset + 28) in * by lia.
  replace (offset + 24 + 8) with (offset + 32) in * by lia.
  replace (offset + 24 + 12) with (offset + 36) in * by lia.
  replace (offset + 36 + 4) with (offset + 40) in * by lia.
  replace (offset + 36 + 8) with (offset + 44) in * by lia.
  replace (offset + 36 + 12 + 2) with (offset + 50) in * by lia.
  replace (vertexIndex + 3 + 1) with (vertexIndex + 4) in * by lia.
  replace (vertexIndex + 3 + 2) with (vertexIndex + 5) in * by lia.
  replace (vertexIndex + 3 + 3) with (vertexIndex + 6) in * by lia.
  replace (vertexIndex + 6 + 1) with (vertexIndex + 7) in * by lia.
  replace (vertexIndex + 6 + 2) with (vertexIndex + 8) in * by lia.
  replace (vertexIndex + 6 + 3) with (vertexIndex + 9) in * by lia.
  done.
Qed.

(** Reads the hypotheses name decide [floatAt] at an equal offset. *)
Ltac float_at :=
  unfold floatAt;
  match goal with
  | Hread : getFloat32 ?view ?o = Ok _ |- context [getFloat32 ?view ?e] =>
      replace e with o by lia; rewrite Hread; reflexivity
  end.

Lemma App_readTriangles_contents view n :
  ∀ offset vertexIndex vertices normals vertices' normals',
  App.readTriangles view n (offset, vertexIndex, vertices, normals) = Ok (vertices', normals') →
  vertexIndex + 9 * n ≤ length vertices →
  vertexIndex + 9 * n ≤ length normals →
  (length vertices' = length vertices ∧ length normals' = length normals)
  ∧ (∀ p, p < vertexIndex → vertices' !! p = vertices !! p ∧ normals' !! p = normals !! p)
  ∧ (∀ t k c, t < n → k < 3 → c < 3 →
       vertices' !! (vertexIndex + 9 * t + 3 * k + c)
         = floatAt view (offset + 50 * t + 12 + 12 * k + 4 * c)
       ∧ normals' !! (vertexIndex + 9 * t + 3 * k + c) = floatAt view (offset + 50 * t + 4 * c)).
Proof.
  induction n as [|n IH]; intros offset vertexIndex vertices normals vertices' normals' Hread Hv Hn.
  { simpl in Hread. injection Hread as <- <-. split; [done|]. split; [done|]. intros; lia. }
  apply App_readTriangles_step in Hread
    as (nx & ny & nz & x1 & y1 & z1 & x2 & y2 & z2 & x3 & y3 & z3
        & (Hnx & Hny & Hnz) & (Hx1 & Hy1 & Hz1) & (Hx2 & Hy2 & Hz2) & (Hx3 & Hy3 & Hz3) & Hrest).
  apply IH in Hrest as ((Hlv & Hln) & Hframe & Hlater);
    [|rewrite ?length_store; lia..].
  rewrite !length_store in Hlv, Hln.
  split; [done|]. split.
  - intros p Hp. destruct (Hframe p) as [-> ->]; [lia|].
    rewrite !store_lookup, !length_store.
    split; repeat (case_decide; try lia); done.
  - intros t k c Ht Hk Hc. destruct t as [|t].
    + destruct (Hframe (vertexIndex + 9 * 0 + 3 * k + c)) as [-> ->]; [lia|].
      rewrite !store_lookup, !length_store.
      destruct k as [|[|[|k]]]; [| | |lia];
        (destruct c as [|[|[|c]]]; [| | |lia]);
        split; repeat (case_decide; try lia); float_at.
    + replace (vertexIndex + 9 * S t + 3 * k + c)
        with (vertexIndex + 9 + 9 * t + 3 * k + c) by lia.
      replace (offset + 50 * S t + 12 + 12 * k + 4 * c)
        with (offset + 50 + 50 * t + 12 + 12 * k + 4 * c) by lia.
      replace (offset + 50 * S t + 4 * c) with (offset + 50 + 50 * t + 4 * c) by lia.
      apply Hlater; lia.
Qed.

(** What a decoded mesh holds.  When [parseSTL] returns a geometry,
    component [c] of corner [k] of triangle [t] of the position array is the
    single-precision number read at byte [84 + 50 t + 12 + 12 k + 4 c] of the
    buffer, and the same place of the normal array is the number read at
    byte [84 + 50 t + 4 c]: the facet normal of the record, repeated for
    each of its three corners.  Both reads are within the buffer. *)
Theorem parseSTL_contents (buf : ArrayBuffer) (geometry : BufferGeometry) (t k c : nat) :
  App.parseSTL buf = Ok geometry →
  t < declaredCount buf → k < 3 → c < 3 →
  ∃ x normal,
    getFloat32 buf (84 + 50 * t + 12 + 12 * k + 4 * c) = Ok x
    ∧ getFloat32 buf (84 + 50 * t + 4 * c) = Ok normal
    ∧ attributes_position geometry !! (9 * t + 3 * k + c) = Some (fround x)
    ∧ attributes_normal geometry !! (9 * t + 3 * k + c) = Some (fround normal).
Proof.
  unfold App.parseSTL, declaredCount. intros Hparse Ht Hk Hc.
  destruct (Uint8Array buf 0 5) as [header|]; [rewrite bind_Ok in Hparse|done].
  case_decide; [done|].
  destruct (getUint32 buf 80) as [n|]; [rewrite bind_Ok in Hparse|simpl in Ht; lia].
  cbv zeta in Hparse.
  destruct (App.readTriangles buf (Z.to_nat n) _) as [[vertices normals]|] eqn:Hread; [|done].
  rewrite bind_Ok in Hparse. injection Hparse as <-.
  cbn [attributes_position attributes_normal].
  apply App_readTriangles_contents in Hread as ((Hlv & Hln) & _ & Hat);
    [|unfold Float32Array; rewrite length_replicate; lia..].
  destruct (Hat t k c) as [Hpos Hnorm]; [done..|].
  replace (0 + 9 * t + 3 * k + c) with (9 * t + 3 * k + c) in Hpos, Hnorm by lia.
  unfold Float32Array in Hlv, Hln. rewrite length_replicate in Hlv, Hln.
  destruct (lookup_lt_is_Some_2 vertices (9 * t + 3 * k + c)) as [x' Hx']; [lia|].
  destruct (lookup_lt_is_Some_2 normals (9 * t + 3 * k + c)) as [n' Hn']; [lia|].
  rewrite Hx' in Hpos. rewrite Hn' in Hnorm. unfold floatAt in Hpos, Hnorm.
  destruct (getFloat32 buf (84 + 50 * t + 12 + 12 * k + 4 * c)) as [x|]; [|done].
  destruct (getFloat32 buf (84 + 50 * t + 4 * c)) as [normal|]; [|done].
  exists x, normal. rewrite Hx', Hn'. by simplify_eq.
Qed.

End DecoderContents.

(** The corner (1,0,0) of the one-triangle file. *)
Lemma parseSTL_contents_witness :
  ∃ x normal,
    getFloat32 (H := Exact.runtime) (App.file_bytes triangleFile) (84 + 50 * 0 + 12 + 12 * 1 + 4 * 0)
      = Ok x
    ∧ getFloat32 (H := Exact.runtime) (App.file_bytes triangleFile) (84 + 50 * 0 + 4 * 0) = Ok normal
    ∧ [0; 0; 0; 1; 0; 0; 0; 1; 0]%Q !! (9 * 0 + 3 * 1 + 0) = Some (fround (Runtime := Exact.runtime) x)
    ∧ replicate 9 0%Q !! (9 * 0 + 3 * 1 + 0) = Some (fround (Runtime := Exact.runtime) normal).
Proof.
  apply (parseSTL_contents (H := Exact.runtime) (App.file_bytes triangleFile)
           (mkGeometry (H := Exact.runtime) [0; 0; 0; 1; 0; 0; 0; 1; 0]%Q (replicate 9 0%Q) None)
           0 1 0).
  - reflexivity.
  - vm_compute. lia.
  - lia.
  - lia.
Defined.

(** ** The decoder of the single-file variant *)

Section LegacyDecoder.
Context `{Runtime}.

Ltac read_at view offset :=
  let x := fresh "x" in
  let Hx := fresh "Hx" in
  first
    [ destruct (getFloat32_in_bounds view offset) as [x Hx]; [lia|];
      rewrite Hx, bind_Ok; clear Hx
    | rewrite (getFloat32_out_of_bounds view offset), ?bind_Throw by lia ].

Lemma Legacy_readCorner_reads view offset vertexIndex vertices x y z :
  getFloat32 view offset = Ok x →
  getFloat32 view (offset + 4) = Ok y →
  getFloat32 view (offset + 8) = Ok z →
  SimpleApp.readCorner view (offset, vertexIndex, vertices)
  = Ok (offset + 12, vertexIndex + 3,
        store (store (store vertices vertexIndex x) (vertexIndex + 1) y) (vertexIndex + 2) z).
Proof. intros Hx Hy Hz. unfold SimpleApp.readCorner. by rewrite Hx, bind_Ok, Hy, bind_Ok, Hz. Qed.

(** The variant stores what the main decoder stores in its position array. *)
Lemma readTriangles_agree view n :
  ∀ offset vertexIndex vertices normals vertices' normals',
  App.readTriangles view n (offset, vertexIndex, vertices, normals) = Ok (vertices', normals') →
  SimpleApp.readTriangles view n (offset, vertexIndex, vertices) = Ok vertices'.
Proof.
  induction n as [|n IH]; intros offset vertexIndex vertices normals vertices' normals' Hread.
  { simpl in *. by injection Hread as <- <-. }
  apply App_readTriangles_step in Hread
    as (nx & ny & nz & x1 & y1 & z1 & x2 & y2 & z2 & x3 & y3 & z3
        & _ & (Hx1 & Hy1 & Hz1) & (Hx2 & Hy2 & Hz2) & (Hx3 & Hy3 & Hz3) & Hrest).
  apply IH in Hrest. cbn [SimpleApp.readTriangles].
  rewrite (Legacy_readCorner_reads view (offset + 12) vertexIndex vertices x1 y1 z1), bind_Ok;
    [|done|by replace (offset + 12 + 4) with (offset + 16) by lia
      |by replace (offset + 12 + 8) with (offset + 20) by lia].
  rewrite (Legacy_readCorner_reads view (offset + 12 + 12) (vertexIndex + 3) _ x2 y2 z2), bind_Ok;
    [|by replace (offset + 12 + 12) with (offset + 24) by lia
      |by replace (offset + 12 + 12 + 4) with (offset + 28) by lia
      |by replace (offset + 12 + 12 + 8) with (offset + 32) by lia].
  rewrite (Legacy_readCorner_reads view (offset + 12 + 12 + 12) (vertexIndex + 3 + 3) _ x3 y3 z3),
    bind_Ok;
    [|by replace (offset + 12 + 12 + 12) with (offset + 36) by lia
      |by replace (offset + 12 + 12 + 12 + 4) with (offset + 40) by lia
      |by replace (offset + 12 + 12 + 12 + 8) with (offset + 44) by lia].
  cbv beta iota.
  replace (offset + 12 + 12 + 12 + 12 + 2) with (offset + 50) by lia.
  replace (vertexIndex + 3 + 3 + 3) with (vertexIndex + 9) by lia.
  replace (vertexIndex + 3 + 1) with (vertexIndex + 4) by lia.
  replace (vertexIndex + 3 + 2) with (vertexIndex + 5) by lia.
  replace (vertexIndex + 3 + 3 + 1) with (vertexIndex + 7) by lia.
  replace (vertexIndex + 3 + 3 + 2) with (vertexIndex + 8) by lia.
  replace (vertexIndex + 3 + 3) with (vertexIndex + 6) by lia.
  done.
Qed.

Lemma Legacy_readCorner_in_bounds view offset vertexIndex vertices :
  offset + 12 ≤ length view →
  ∃ vertices',
    SimpleApp.readCorner view (offset, vertexIndex, vertices)
      = Ok (offset + 12, vertexIndex + 3, vertices').
Proof.
  intros Hlen. unfold SimpleApp.readCorner.
  read_at view offset. read_at view (offset + 4). read_at view (offset + 8).
  by eexists.
Qed.

Lemma Legacy_readCorner_out_of_bounds view offset vertexIndex vertices :
  length view < offset + 12 →
  SimpleApp.readCorner view (offset, vertexIndex, vertices) = Throw RangeError.
Proof.
  intros Hlen. unfold SimpleApp.readCorner.
  destruct (decide (offset + 4 ≤ length view)); [|by read_at view offset].
  read_at view offset.
  destruct (decide (offset + 8 ≤ length view)); [|by read_at view (offset + 4)].
  read_at view (offset + 4). by read_at view (offset + 8).
Qed.

Lemma Legacy_readTriangles_out_of_bounds view n offset vertexIndex vertices :
  n ≠ 0 → length view + 2 < offset + 50 * n →
  SimpleApp.readTriangles view n (offset, vertexIndex, vertices) = Throw RangeError.
Proof.
  revert offset vertexIndex vertices.
  induction n as [|n IH]; intros offset vertexIndex vertices Hn Hlen; [done|].
  cbn [SimpleApp.readTriangles].
  destruct (decide (offset + 12 + 12 ≤ length view));
    [|by rewrite Legacy_readCorner_out_of_bounds by lia].
  destruct (Legacy_readCorner_in_bounds view (offset + 12) vertexIndex vertices)
    as (v1 & ->); [lia|]. rewrite bind_Ok; cbv beta iota.
  destruct (decide (offset + 12 + 12 + 12 ≤ length view));
    [|by rewrite Legacy_readCorner_out_of_bounds by lia].
  destruct (Legacy_readCorner_in_bounds view (offset + 12 + 12) (vertexIndex + 3) v1)
    as (v2 & ->); [lia|]. rewrite bind_Ok; cbv beta iota.
  destruct (decide (offset + 12 + 12 + 12 + 12 ≤ length view));
    [|by rewrite Legacy_readCorner_out_of_bounds by lia].
  destruct (Legacy_readCorner_in_bounds view (offset + 12 + 12 + 12) (vertexIndex + 3 + 3) v2)
    as (v3 & ->); [lia|]. rewrite bind_Ok; cbv beta iota.
  destruct n as [|n]; [lia|]. apply IH; lia.
Qed.

Lemma Legacy_readTriangles_in_bounds view n offset vertexIndex vertices :
  n = 0 ∨ offset + 50 * n ≤ length view + 2 →
  ∃ vertices',
    SimpleApp.readTriangles view n (offset, vertexIndex, vertices) = Ok vertices'
    ∧ length vertices' = length vertices.
Proof.
  intros Hlen.
  destruct (App_readTriangles_in_bounds view n offset vertexIndex vertices vertices Hlen)
    as (vertices' & normals' & Hread & Hv & _).
  exists vertices'. split; [|done]. by eapply readTriangles_agree.
Qed.

Lemma Legacy_parseSTL_short (buf : ArrayBuffer) :
  length buf < bytesRead (declaredCount buf) → SimpleApp.parseSTL buf = Throw RangeError.
Proof.
  unfold SimpleApp.parseSTL.
  intros Hshort. destruct (decide (84 ≤ length buf)) as [Hhead|Hhead].
  - destruct (declaredCount_read buf Hhead) as (n & -> & Hn). rewrite bind_Ok.
    rewrite Hn in Hshort. cbv zeta.
    apply Legacy_readTriangles_out_of_bounds.
    + intros Hz. rewrite Hz in Hshort. simpl in Hshort. lia.
    + destruct (Z.to_nat n); simpl in Hshort; lia.
  - destruct (declaredCount_short buf) as [-> _]; [lia|]. done.
Qed.

(** The variant's [parseSTL] has no signature test and reads no
    normals: it returns the position array, of nine numbers per declared
    triangle, exactly when the buffer holds the bytes the loop reads, and
    otherwise fails with the range error of the first read past its end. *)
Theorem legacy_parseSTL_outcomes (buf : ArrayBuffer) :
  (length buf < bytesRead (declaredCount buf) → SimpleApp.parseSTL buf = Throw RangeError)
  ∧ (bytesRead (declaredCount buf) ≤ length buf →
     ∃ vertices, SimpleApp.parseSTL buf = Ok vertices
       ∧ length vertices = declaredCount buf * 9).
Proof.
  split; [apply Legacy_parseSTL_short|].
  unfold SimpleApp.parseSTL.
  - intros Hlen.
    assert (84 ≤ length buf) as Hhead.
    { destruct (declaredCount buf); simpl in Hlen; lia. }
    destruct (declaredCount_read buf Hhead) as (n & -> & Hn). rewrite bind_Ok.
    rewrite Hn in *. cbv zeta.
    destruct (Legacy_readTriangles_in_bounds buf (Z.to_nat n) 84 0 (Float32Array (Z.to_nat n * 9)))
      as (vertices & -> & Hv).
    { destruct (Z.to_nat n); [by left|right]. simpl in Hlen. lia. }
    exists vertices. split; [done|]. unfold Float32Array in Hv.
    by rewrite length_replicate in Hv.
Qed.

(** On a buffer that does not start with "solid" the two decoders
    agree: the variant returns an array exactly when the main decoder
    returns a geometry, and the array is the position array of that
    geometry. *)
Theorem parseSTL_variants_agree (buf : ArrayBuffer) (vertices : list number) :
  signature buf ≠ "solid" →
  SimpleApp.parseSTL buf = Ok vertices
  ↔ ∃ geometry, App.parseSTL buf = Ok geometry ∧ attributes_position geometry = vertices.
Proof.
  intros Hsolid. split.
  - intros Hlegacy.
    destruct (decide (length buf < bytesRead (declaredCount buf))) as [Hshort|Hlong].
    { apply Legacy_parseSTL_short in Hshort. congruence. }
    assert (84 ≤ length buf) as Hhead.
    { destruct (declaredCount buf); simpl in Hlong; lia. }
    revert Hlegacy. unfold SimpleApp.parseSTL, App.parseSTL, signature in *.
    rewrite Uint8Array_header, decide_True, bind_Ok by lia.
    rewrite decide_False by done.
    destruct (declaredCount_read buf Hhead) as (n & -> & Hn). rewrite !bind_Ok. cbv zeta.
    rewrite Hn in Hlong.
    destruct (App_readTriangles_in_bounds buf (Z.to_nat n) 84 0
                (Float32Array (Z.to_nat n * 9)) (Float32Array (Z.to_nat n * 9)))
      as (vertices' & normals' & Hread & _).
    { destruct (Z.to_nat n); [by left|right]. simpl in Hlong. lia. }
    rewrite Hread, (readTriangles_agree _ _ _ _ _ _ _ _ Hread), bind_Ok.
    intros [= <-]. by eexists.
  - intros (geometry & Hparse & <-). revert Hparse.
    unfold SimpleApp.parseSTL, App.parseSTL.
    destruct (Uint8Array buf 0 5) as [header|]; [rewrite bind_Ok|done].
    case_decide; [done|].
    destruct (getUint32 buf 80) as [n|]; [rewrite !bind_Ok|done]. cbv zeta.
    destruct (App.readTriangles buf (Z.to_nat n) _) as [[vertices' normals']|] eqn:Hread; [|done].
    rewrite bind_Ok. intros [= <-]. by eapply readTriangles_agree.
Qed.

End LegacyDecoder.

(** The three corners of the one-triangle file, decoded by both. *)
Lemma parseSTL_variants_agree_witness :
  SimpleApp.parseSTL (H := Exact.runtime) (App.file_bytes triangleFile)
  = Ok [0; 0; 0; 1; 0; 0; 0; 1; 0]%Q
  ↔ ∃ geometry, App.parseSTL (H := Exact.runtime) (App.file_bytes triangleFile) = Ok geometry
      ∧ attributes_position geometry = [0; 0; 0; 1; 0; 0; 0; 1; 0]%Q.
Proof.
  apply (parseSTL_variants_agree (H := Exact.runtime) (App.file_bytes triangleFile)).
  by intros [=].
Defined.

(** ** The request and the reverse mapping *)

Section Tables.
Context `{Runtime}.

Lemma indicesWhere_increasing P i positions a b x y :
  indicesWhere P i positions !! a = Some x →
  indicesWhere P i positions !! b = Some y →
  a < b → x < y.
Proof.
  revert i a b. induction positions as [|v rest IH]; intros i a b; simpl; [done|].
  destruct (P v); [|by apply IH].
  destruct a as [|a]; destruct b as [|b]; simpl; try lia.
  - intros [= <-] Hy%list_elem_of_lookup_2 _.
    apply elem_of_indicesWhere in Hy. lia.
  - intros Hx Hy Hab. apply (IH (S i) a b); [done..|lia].
Qed.

Lemma indicesWhere_in_range P positions i :
  i ∈ indicesWhere P 0 positions → i < length positions.
Proof.
  intros (_ & v & Hv & _)%elem_of_indicesWhere.
  rewrite Nat.sub_0_r in Hv. by eapply lookup_lt_Some.
Qed.

Lemma reverseMap_in_range positions z l i :
  reverseMap positions !! z = Some l → i ∈ l → i < length positions.
Proof.
  rewrite reverseMap_lookup.
  pose proof (indicesWhere_in_range (mapsTo (App.uniqueTable positions).1 z) positions i) as Hin.
  destruct (indicesWhere _ 0 positions); [done|]. intros [= <-]. apply Hin.
Qed.

(** An entry of the reverse mapping holds raw indices of the buffer,
    in increasing order, and no raw index is in two entries. *)
Theorem reverseMap_entries (positions : list Vertex) (z : Z) (l : list nat) :
  reverseMap positions !! z = Some l →
  Forall (fun i => i < length positions) l
  ∧ (∀ a b x y, l !! a = Some x → l !! b = Some y → a < b → x < y)
  ∧ (∀ z' l' i, reverseMap positions !! z' = Some l' → i ∈ l → i ∈ l' → z' = z).
Proof.
  intros Hl. split; [|split].
  - apply Forall_forall. intros i Hi. by eapply reverseMap_in_range.
  - rewrite reverseMap_lookup in Hl.
    pose proof (indicesWhere_increasing (mapsTo (App.uniqueTable positions).1 z) 0 positions)
      as Hinc.
    destruct (indicesWhere _ 0 positions); [done|]. injection Hl as <-. apply Hinc.
  - intros z' l' i Hl' Hi Hi'.
    apply (reverseMap_entry _ _ _ Hl) in Hi. apply (reverseMap_entry _ _ _ Hl') in Hi'.
    congruence.
Qed.

Lemma firstSeen_fold positions :
  ∀ (uniqueVertices : gmap string nat) vertexArray seen,
  (∀ k, is_Some (uniqueVertices !! k) ↔ k ∈ seen) →
  (fold_left App.addUnique positions (uniqueVertices, vertexArray)).2
  = vertexArray ++ firstSeen seen positions.
Proof.
  induction positions as [|v rest IH]; intros uniqueVertices vertexArray seen Hseen; simpl.
  { by rewrite app_nil_r. }
  unfold App.addUnique at 2. simpl.
  destruct (uniqueVertices !! App.vertexKey 6 v) as [c|] eqn:Hv.
  - rewrite decide_True by (apply Hseen; by eexists). by apply IH.
  - rewrite decide_False.
    2:{ intros [c Hc]%Hseen. congruence. }
    rewrite (IH _ _ (App.vertexKey 6 v :: seen)).
    + by rewrite <- app_assoc.
    + intros k. rewrite lookup_insert_is_Some, elem_of_cons, Hseen.
      split.
      * intros [->|[_ Hk]]; [by left|by right].
      * intros [->|Hk]; [by left|].
        destruct (decide (App.vertexKey 6 v = k)); [by left|by right].
Qed.

Lemma firstSeen_sublist seen positions : sublist (firstSeen seen positions) positions.
Proof.
  revert seen. induction positions as [|v rest IH]; intros seen; simpl; [constructor|].
  case_decide; [by apply sublist_cons|by apply sublist_skip].
Qed.

Lemma firstSeen_fresh seen positions v :
  v ∈ firstSeen seen positions → App.vertexKey 6 v ∉ seen.
Proof.
  revert seen. induction positions as [|w rest IH]; intros seen; simpl.
  { by intros ?%elem_of_nil. }
  case_decide as Hw; [by apply IH|].
  intros [->|Hv%IH]%elem_of_cons; [done|]. intros Hin. apply Hv. by right.
Qed.

Lemma firstSeen_NoDup seen positions : NoDup (map (App.vertexKey 6) (firstSeen seen positions)).
Proof.
  revert seen. induction positions as [|v rest IH]; intros seen; simpl; [constructor|].
  case_decide; [by apply IH|]. simpl. constructor; [|by apply IH].
  intros (w & Hk & Hw%list_elem_of_In%firstSeen_fresh)%list_elem_of_In%in_map_iff.
  apply Hw. rewrite Hk. by left.
Qed.

(** The request [segmentWithBackend] sends holds, in the order of the
    position buffer, each vertex whose six-digit key no earlier vertex of the
    buffer has: it is a subsequence of the buffer, no two of its vertices
    have the same key, and the table sends the key of its [c]-th vertex
    to [c]. *)
Theorem request_first_seen (positions : list Vertex) :
  (App.uniqueTable positions).2 = firstSeen [] positions
  ∧ sublist (App.uniqueTable positions).2 positions
  ∧ NoDup (map (App.vertexKey 6) (App.uniqueTable positions).2)
  ∧ (∀ c v, (App.uniqueTable positions).2 !! c = Some v →
            (App.uniqueTable positions).1 !! App.vertexKey 6 v = Some c).
Proof.
  assert ((App.uniqueTable positions).2 = firstSeen [] positions) as Hrequest.
  { unfold App.uniqueTable. rewrite (firstSeen_fold positions ∅ [] []); [done|].
    intros k. rewrite lookup_empty. split; [by intros []|by intros ?%elem_of_nil]. }
  split; [done|]. rewrite Hrequest. split; [apply firstSeen_sublist|].
  split; [apply firstSeen_NoDup|].
  rewrite <- Hrequest. by destruct (uniqueTable_inv positions) as (_ & _ & Hbwd).
Qed.

End Tables.

(** ** The regions [segmentWithBackend] returns *)

Section Regions.
Context `{Runtime}.

Lemma elem_of_expandIndices (reverseMapping : gmap Z (list nat)) indices i :
  i ∈ App.expandIndices reverseMapping indices
  ↔ ∃ z l, z ∈ indices ∧ reverseMapping !! z = Some l ∧ i ∈ l.
Proof.
  rewrite expandIndices_flat_map, list_elem_of_In, in_flat_map. split.
  - intros (z & Hz & Hi). destruct (reverseMapping !! z) as [l|] eqn:Hl; [|done].
    exists z, l. split; [by apply list_elem_of_In|]. split; [done|by apply list_elem_of_In].
  - intros (z & l & Hz & Hl & Hi). exists z. split; [by apply list_elem_of_In|].
    rewrite Hl. by apply list_elem_of_In.
Qed.

Lemma expandIndices_in_range positions indices :
  Forall (fun i => i < length positions) (App.expandIndices (reverseMap positions) indices).
Proof.
  apply Forall_forall. intros i (z & l & _ & Hl & Hi)%elem_of_expandIndices.
  by eapply reverseMap_in_range.
Qed.

(** When [segmentWithBackend] returns, it returns one region for each
    region of the service's answer, in the same order, with the id, the
    name, the colour and the visibility flag of that region; every index of
    the expanded list is a raw index of the geometry; and the vertex count
    and the percentage are those of the expanded list, whatever the service
    sent for them. *)
Theorem segmented_regions oracle (geometry : BufferGeometry) mapped :
  App.segmentWithBackend oracle geometry = Ok mapped →
  ∃ backendRegions,
    oracleRegions oracle geometry = Some backendRegions
    ∧ Forall2 (fun backendRegion region =>
                 App.id region = App.br_id backendRegion
                 ∧ App.name region = App.br_name backendRegion
                 ∧ App.color region = App.br_color backendRegion
                 ∧ App.visible region = App.br_visible backendRegion
                 ∧ Forall (fun i => i < count (attributes_position geometry))
                          (App.vertex_indices region)
                 ∧ App.vertex_count region = length (App.vertex_indices region)
                 ∧ App.vertex_percentage region
                   = Some (App.percentage (length (App.vertex_indices region))
                             (count (attributes_position geometry))))
              backendRegions mapped.
Proof.
  intros (backendRegions & Horacle & Hmap%mapRegions_Ok)%segmentWithBackend_Ok.
  exists backendRegions. split; [done|].
  eapply Forall2_impl; [exact Hmap|]. intros backendRegion region. cbv beta.
  unfold App.mapRegion. destruct (App.br_vertex_indices backendRegion) as [indices|]; [|done].
  intros [= <-]. cbn. repeat (split; [done|]). split; [|done].
  apply expandIndices_in_range.
Qed.

Lemma count_occ_expandIndices_le positions indices i :
  NoDup indices →
  count_occ Nat.eq_dec (App.expandIndices (reverseMap positions) indices) i ≤ 1.
Proof.
  intros Hnd.
  destruct (decide (i ∈ App.expandIndices (reverseMap positions) indices)) as [Hi|Hi].
  - apply elem_of_expandIndices in Hi as (z & l & _ & Hl & Hi).
    apply (reverseMap_entry _ _ _ Hl) in Hi.
    destruct (forwardMap positions i) as [c|] eqn:Hc; [|done].
    rewrite (count_occ_expandIndices _ _ _ _ Hc).
    apply NoDup_ListNoDup in Hnd. by apply (NoDup_count_occ Z.eq_dec).
  - rewrite (proj1 (count_occ_not_In Nat.eq_dec _ i)); [lia|].
    by rewrite <- list_elem_of_In.
Qed.

(** When the service lists no canonical index twice in a region, the
    expanded list has no raw index twice, and so at most as many indices as
    the geometry has vertices; when it also lists every canonical index, the
    expanded list is a permutation of all raw indices. *)
Theorem expansion_without_repeats (positions : list Vertex) (indices : list Z) :
  NoDup indices →
  NoDup (App.expandIndices (reverseMap positions) indices)
  ∧ length (App.expandIndices (reverseMap positions) indices) ≤ length positions
  ∧ ((∀ c, c < uniqueCount positions → Z.of_nat c ∈ indices) →
     App.expandIndices (reverseMap positions) indices ≡ₚ seq 0 (length positions)).
Proof.
  intros Hnd.
  assert (NoDup (App.expandIndices (reverseMap positions) indices)) as Hexpanded.
  { apply NoDup_ListNoDup, (NoDup_count_occ Nat.eq_dec). intros i.
    by apply count_occ_expandIndices_le. }
  pose proof (expandIndices_in_range positions indices) as Hrange.
  rewrite Forall_forall in Hrange.
  split; [done|]. split.
  - assert (length (App.expandIndices (reverseMap positions) indices)
            ≤ length (seq 0 (length positions))) as Hle; [|by rewrite length_seq in Hle].
    apply submseteq_length.
    apply NoDup_submseteq; [done|]. intros i Hi%Hrange. apply elem_of_seq. lia.
  - intros Hall. apply NoDup_Permutation; [done|apply NoDup_seq|].
    intros i. rewrite elem_of_seq. split; [intros Hi%Hrange; lia|]. intros [_ Hi].
    destruct (lookup_lt_is_Some_2 positions i) as [v Hv]; [lia|].
    destruct (forwardMap_Some _ _ _ Hv) as (c & Hc & Hlt).
    destruct (reverseMap_of_forwardMap _ _ _ Hc) as (l & Hl & Hil).
    apply elem_of_expandIndices. exists (Z.of_nat c), l. split; [by apply Hall|done].
Qed.

End Regions.

(** The seam geometry and the answer that lists index 0 twice: four indices
    for three vertices, each of them a raw index of the geometry. *)
Lemma segmented_regions_witness :
  ∃ backendRegions,
    oracleRegions twiceOracle seamGeometry = Some backendRegions
    ∧ Forall2 (fun backendRegion region =>
                 App.id region = App.br_id backendRegion
                 ∧ App.name region = App.br_name backendRegion
                 ∧ App.color region = App.br_color backendRegion
                 ∧ App.visible region = App.br_visible backendRegion
                 ∧ Forall (fun i => i < count (attributes_position seamGeometry))
                          (App.vertex_indices region)
                 ∧ App.vertex_count region = length (App.vertex_indices region)
                 ∧ App.vertex_percentage region
                   = Some (App.percentage (length (App.vertex_indices region))
                             (count (attributes_position seamGeometry))))
              backendRegions [seamRegion].
Proof. apply (segmented_regions twiceOracle seamGeometry [seamRegion]). reflexivity. Defined.

(** The seam geometry with both canonical indices listed once, the second first. *)
Lemma expansion_without_repeats_witness :
  NoDup (App.expandIndices (reverseMap (items (attributes_position seamGeometry))) [1; 0]%Z)
  ∧ length (App.expandIndices (reverseMap (items (attributes_position seamGeometry))) [1; 0]%Z)
    ≤ length (items (attributes_position seamGeometry))
  ∧ ((∀ c, c < uniqueCount (items (attributes_position seamGeometry)) →
           Z.of_nat c ∈ [1; 0]%Z) →
     App.expandIndices (reverseMap (items (attributes_position seamGeometry))) [1; 0]%Z
     ≡ₚ seq 0 (length (items (attributes_position seamGeometry)))).
Proof.
  apply (expansion_without_repeats (items (attributes_position seamGeometry)) [1; 0]%Z).
  apply NoDup_cons. split; [by intros [=]%list_elem_of_singleton|]. apply NoDup_singleton.
Defined.

(** ** Colours after an upload, a palette click and an export *)

Section Painting.
Context `{Runtime}.

Lemma readColor_paintRegions_lastPainter vertexCount painted regionList colors j :
  length colors = vertexCount * 3 → j < vertexCount →
  readColor (fold_left (App.paintRegion vertexCount painted) regionList colors) j
  = match lastPainter j regionList with
    | Some region => Some (stored (App.THREE_Color (App.colorHexOf painted region)))
    | None => readColor colors j
    end.
Proof.
  intros Hlen Hj. revert colors Hlen.
  induction regionList as [|region rest IH]; intros colors Hlen; simpl; [done|].
  rewrite IH by by rewrite length_paintRegion.
  destruct (lastPainter j rest); [done|].
  rewrite readColor_paintRegion by done. by destruct (decide (paints j region)).
Qed.

Lemma lastPainter_None j regionList :
  lastPainter j regionList = None ↔ Forall (fun region => ¬ paints j region) regionList.
Proof.
  induction regionList as [|region rest IH]; simpl.
  { split; [constructor|done]. }
  rewrite Forall_cons, <- IH.
  destruct (lastPainter j rest).
  { split; [done|]. by intros [_ ?]. }
  destruct (decide (paints j region)) as [Hpaints|Hpaints].
  - split; [done|]. by intros [Hnot _].
  - by split.
Qed.

Lemma makeVisible_visible regionList :
  Forall (fun region => App.visible region = true) (map App.makeVisible regionList).
Proof. apply Forall_forall. by intros region (r & <- & _)%list_elem_of_In%in_map_iff. Qed.

(** The loop over the regions in [handleFileUpload], from any buffer. *)
Lemma readColor_initial_none vertexCount regionList colors j :
  length colors = vertexCount * 3 → j < vertexCount →
  Forall (fun region => j ∉ App.vertex_indices region) regionList →
  readColor (fold_left (fun colors region =>
                          App.paintIndices vertexCount (THREE_Color_of_string (App.color region))
                            (App.vertex_indices region) colors) regionList colors) j
  = readColor colors j.
Proof.
  intros Hlen Hj Hnone. revert colors Hlen.
  induction Hnone as [|region rest Hregion _ IH]; intros colors Hlen; simpl; [done|].
  rewrite IH by by rewrite length_paintIndices.
  rewrite readColor_paintIndices by done. by rewrite decide_False.
Qed.

Lemma length_initial vertexCount regionList colors :
  length (fold_left (fun colors region =>
                       App.paintIndices vertexCount (THREE_Color_of_string (App.color region))
                         (App.vertex_indices region) colors) regionList colors)
  = length colors.
Proof.
  revert colors. induction regionList as [|region rest IH]; intros colors; simpl; [done|].
  by rewrite IH, length_paintIndices.
Qed.

Lemma readColor_initial_last vertexCount before region after colors j :
  length colors = vertexCount * 3 → j < vertexCount →
  j ∈ App.vertex_indices region →
  Forall (fun later => j ∉ App.vertex_indices later) after →
  readColor (fold_left (fun colors region =>
                          App.paintIndices vertexCount (THREE_Color_of_string (App.color region))
                            (App.vertex_indices region) colors)
                       (before ++ region :: after) colors) j
  = Some (stored (THREE_Color_of_string (App.color region))).
Proof.
  intros Hlen Hj Hregion Hafter. rewrite fold_left_app. cbn [fold_left].
  rewrite readColor_initial_none; [|by rewrite length_paintIndices, length_initial|done..].
  rewrite readColor_paintIndices by (by rewrite ?length_initial).
  by rewrite decide_True.
Qed.

Lemma makeVisible_fields region :
  App.id (App.makeVisible region) = App.id region
  ∧ App.color (App.makeVisible region) = App.color region
  ∧ App.vertex_indices (App.makeVisible region) = App.vertex_indices region
  ∧ App.visible (App.makeVisible region) = true.
Proof. done. Qed.

(** The buffer [handleFileUpload] gives the new geometry, and the one
    [applyColorsToGeometry] composes for the regions it has just stored,
    with no override.  A raw vertex that no region lists is light grey in
    the first and the default grey in the second.  A raw vertex that some
    region lists has, in the first, the colour of the last region that
    lists it; in the second it has the same colour, unless the id of that
    region is the name of a member of [Object.prototype]: then the lookup in
    the empty override object finds that member and the vertex is white. *)
Theorem initial_colors_agree (vertexCount : nat) (mapped : list App.PaintRegion) (j : nat) :
  j < vertexCount →
  length (App.initialColors vertexCount (map App.makeVisible mapped)) = vertexCount * 3
  ∧ (Forall (fun region => j ∉ App.vertex_indices region) mapped →
     readColor (App.initialColors vertexCount (map App.makeVisible mapped)) j
     = Some (stored lightGray)
     ∧ readColor (App.composeColors vertexCount (map App.makeVisible mapped) ∅) j
       = Some (stored defaultGray))
  ∧ (∀ before region after,
       mapped = before ++ region :: after →
       j ∈ App.vertex_indices region →
       Forall (fun later => j ∉ App.vertex_indices later) after →
       readColor (App.initialColors vertexCount (map App.makeVisible mapped)) j
       = Some (stored (THREE_Color_of_string (App.color region)))
       ∧ (App.id region ∉ Object_prototype →
          readColor (App.composeColors vertexCount (map App.makeVisible mapped) ∅) j
          = Some (stored (THREE_Color_of_string (App.color region))))
       ∧ (App.id region ∈ Object_prototype →
          readColor (App.composeColors vertexCount (map App.makeVisible mapped) ∅) j
          = Some (stored (mkColor (number_of_Z 1) (number_of_Z 1) (number_of_Z 1))))).
Proof.
  intros Hj. unfold App.initialColors, App.composeColors.
  split; [by rewrite length_initial, length_fillDefault|]. split.
  - intros Hnone. split.
    + rewrite readColor_initial_none; [by apply readColor_fillDefault|by rewrite length_fillDefault|done|].
      apply Forall_forall. intros region (r & <- & Hr%list_elem_of_In)%list_elem_of_In%in_map_iff.
      rewrite Forall_forall in Hnone. exact (Hnone r Hr).
    + rewrite readColor_paintRegions_none; [by apply readColor_fillDefault|by rewrite length_fillDefault|done|].
      apply Forall_forall.
      intros region (r & <- & Hr%list_elem_of_In)%list_elem_of_In%in_map_iff [_ Hlists].
      rewrite Forall_forall in Hnone. by apply (Hnone r).
  - intros before region after -> Hregion Hafter. rewrite map_app. cbn [map].
    assert (paints j (App.makeVisible region)) as Hpaints by by split.
    assert (Forall (fun later => ¬ paints j later) (map App.makeVisible after)) as Hlater.
    { apply Forall_forall.
      intros later (r & <- & Hr%list_elem_of_In)%list_elem_of_In%in_map_iff [_ Hlists].
      rewrite Forall_forall in Hafter. by apply (Hafter r). }
    split; [|split].
    + rewrite readColor_initial_last; [done|by rewrite length_fillDefault|done..|].
      apply Forall_forall. intros later (r & <- & Hr%list_elem_of_In)%list_elem_of_In%in_map_iff.
      rewrite Forall_forall in Hafter. exact (Hafter r Hr).
    + intros Hid. rewrite readColor_paintRegions_last by (by rewrite ?length_fillDefault).
      unfold App.colorHexOf. cbn [App.id App.color App.makeVisible].
      by rewrite lookup_empty, decide_False.
    + intros Hid. rewrite readColor_paintRegions_last by (by rewrite ?length_fillDefault).
      unfold App.colorHexOf. cbn [App.id App.color App.makeVisible].
      by rewrite lookup_empty, decide_True.
Qed.

Lemma run_app (st : App.AppState) l1 l2 : App.run st (l1 ++ l2) = App.run (App.run st l1) l2.
Proof. unfold App.run. apply fold_left_app. Qed.

(** After an upload that succeeds the state holds the regions of the
    answer, every one of them visible whatever the service sent; no
    override; no error; [isLoading] cleared; the id of the first region
    selected, or the selection as it was when there is no region; the mesh
    set exactly when it was set before or there is a scene; and the new
    model with the name and size of the file, the vertex count of the
    geometry, and the geometry with the handler's first colour buffer. *)
Theorem successful_upload oracle (st : App.AppState) (file : App.File)
    (geometry : BufferGeometry) (mapped : list App.PaintRegion) :
  App.prepareGeometry file = Ok geometry →
  App.segmentWithBackend oracle geometry = Ok mapped →
  App.regions (App.run st (App.handleFileUpload oracle st (Some file)))
  = map App.makeVisible mapped
  ∧ Forall (fun region => App.visible region = true)
           (App.regions (App.run st (App.handleFileUpload oracle st (Some file))))
  ∧ App.paintedColors (App.run st (App.handleFileUpload oracle st (Some file))) = ∅
  ∧ App.error (App.run st (App.handleFileUpload oracle st (Some file))) = ""
  ∧ App.isLoading (App.run st (App.handleFileUpload oracle st (Some file))) = false
  ∧ App.selectedRegion (App.run st (App.handleFileUpload oracle st (Some file)))
    = match mapped with
      | first :: _ => App.id first
      | [] => App.selectedRegion st
      end
  ∧ App.meshRef (App.run st (App.handleFileUpload oracle st (Some file)))
    = App.meshRef st || App.sceneRef st
  ∧ App.modelData (App.run st (App.handleFileUpload oracle st (Some file)))
    = Some {| App.md_name := App.file_name file;
              App.md_size := length (App.file_bytes file);
              App.md_geometry :=
                Some (setColorAttribute geometry
                        (App.initialColors (count (attributes_position geometry))
                           (map App.makeVisible mapped)));
              App.md_vertexCount := Some (count (attributes_position geometry)) |}.
Proof.
  intros Hgeometry Hmapped. unfold App.handleFileUpload, App.finishUpload.
  rewrite Hgeometry, Hmapped.
  destruct (App.sceneRef st) eqn:Hscene; destruct mapped as [|first rest]; simpl;
    rewrite ?Hscene, ?orb_true_r, ?orb_false_r;
    (split; [done|]); (split; [|done]);
    try (constructor; [done|]); try apply makeVisible_visible; constructor.
Qed.

Lemma PAINT_COLORS_not_empty colour : colour ∈ App.PAINT_COLORS → colour ≠ "".
Proof.
  unfold App.PAINT_COLORS. intros Hin ->.
  repeat (apply elem_of_cons in Hin as [Hin|Hin]; [discriminate|]).
  by apply elem_of_nil in Hin.
Qed.

Lemma paletteButtons_offered (st : App.AppState) colour :
  colour ∈ App.paletteButtons st →
  colour ∈ App.PAINT_COLORS ∧ App.selectedRegion st ≠ "" ∧ is_Some (App.modelData st).
Proof.
  unfold App.paletteButtons. destruct (App.modelData st); [|by intros ?%elem_of_nil].
  case_decide; [by intros ?%elem_of_nil|]. by eauto.
Qed.

(** A click on a button of the palette stores the colour of the
    button as the override of the selected region and as the selected
    colour, and changes no region.  In the buffer composed afterwards a raw
    vertex whose last visible region is one with the selected id has the
    colour of the button, as a [Float32Array] keeps it; and a region with
    another id is composed from the same colour string as before. *)
Theorem palette_click_paints (st : App.AppState) (colour : string) (vertexCount j : nat)
    (before : list App.PaintRegion) (region : App.PaintRegion) (after : list App.PaintRegion) :
  colour ∈ App.paletteButtons st →
  App.regions st = before ++ region :: after →
  App.id region = App.selectedRegion st →
  j < vertexCount → paints j region → Forall (fun later => ¬ paints j later) after →
  App.selectedColor (App.paletteClick colour st) = colour
  ∧ App.regions (App.paletteClick colour st) = App.regions st
  ∧ App.paintedColors (App.paletteClick colour st)
    = <[App.selectedRegion st := colour]> (App.paintedColors st)
  ∧ readColor (App.composeColors vertexCount (App.regions (App.paletteClick colour st))
                 (App.paintedColors (App.paletteClick colour st))) j
    = Some (stored (THREE_Color_of_string colour))
  ∧ (∀ other, App.id other ≠ App.selectedRegion st →
        App.colorHexOf (App.paintedColors (App.paletteClick colour st)) other
        = App.colorHexOf (App.paintedColors st) other).
Proof.
  intros (Hcolour%PAINT_COLORS_not_empty & _ & _)%paletteButtons_offered
    Hregions Hid Hj Hpaints Hafter.
  split; [done|]. split; [done|]. split; [done|]. simpl. split.
  - unfold App.composeColors. rewrite Hregions.
    rewrite readColor_paintRegions_last by (by rewrite ?length_fillDefault).
    unfold App.colorHexOf. rewrite Hid, lookup_insert_eq. by rewrite decide_False.
  - intros other Hother. unfold App.colorHexOf. by rewrite lookup_insert_ne.
Qed.

Lemma paintIndices_filter vertexCount c indices colors :
  App.paintIndices vertexCount c indices colors
  = App.paintIndices vertexCount c (filter (fun idx => idx < vertexCount) indices) colors.
Proof.
  unfold App.paintIndices. revert colors.
  induction indices as [|idx rest IH]; intros colors; [done|].
  destruct (decide (idx < vertexCount)) as [Hidx|Hidx].
  - rewrite filter_cons_True by done. cbn [fold_left].
    rewrite decide_True by done. apply IH.
  - rewrite filter_cons_False by done. cbn [fold_left].
    rewrite decide_False by done. apply IH.
Qed.

(** An index that is not a raw index of the geometry changes nothing
    in either buffer: each is the buffer of the regions without such
    indices. *)
Theorem out_of_range_indices_ignored (vertexCount : nat) (regionList : list App.PaintRegion)
    (painted : gmap string string) :
  App.composeColors vertexCount regionList painted
  = App.composeColors vertexCount (map (inRange vertexCount) regionList) painted
  ∧ App.initialColors vertexCount regionList
    = App.initialColors vertexCount (map (inRange vertexCount) regionList)
  ∧ Forall (fun region => Forall (fun idx => idx < vertexCount) (App.vertex_indices region))
           (map (inRange vertexCount) regionList).
Proof.
  split; [|split].
  - unfold App.composeColors.
    generalize (App.fillDefault vertexCount (THREE_Color_of_number (number_of_Z 0x808080))).
    induction regionList as [|region rest IH]; intros colors; simpl; [done|].
    rewrite <- IH. f_equal. unfold App.paintRegion, App.colorHexOf. simpl.
    destruct (App.visible region); simpl; [|done]. apply paintIndices_filter.
  - unfold App.initialColors.
    generalize (App.fillDefault vertexCount (THREE_Color_of_number (number_of_Z 0xcccccc))).
    induction regionList as [|region rest IH]; intros colors; simpl; [done|].
    rewrite <- IH. f_equal. apply paintIndices_filter.
  - apply Forall_forall. intros region (r & <- & _)%list_elem_of_In%in_map_iff. simpl.
    apply Forall_forall. by intros idx [Hidx _]%list_elem_of_filter.
Qed.

(** The scheme [exportColorScheme] writes has one entry for each
    region, visible or not, in the order of the region list, with the
    region's name, vertex count and percentage; the colour of the entry is
    the string from which the composed buffer takes the colour of every raw
    vertex whose last visible region this is; and the download is named
    after the model, or "miniature" when there is no model or its name is
    empty. *)
Theorem export_matches_buffer (now : string) (st : App.AppState) (vertexCount j : nat)
    (before : list App.PaintRegion) (region : App.PaintRegion) (after : list App.PaintRegion) :
  App.regions st = before ++ region :: after →
  length (App.scheme_regions (App.exportColorScheme now st)) = length (App.regions st)
  ∧ (∃ entry,
       App.scheme_regions (App.exportColorScheme now st) !! length before = Some entry
       ∧ App.scheme_name entry = App.name region
       ∧ App.scheme_vertices entry = App.vertex_count region
       ∧ App.scheme_percentage entry = App.vertex_percentage region
       ∧ (j < vertexCount → paints j region → Forall (fun later => ¬ paints j later) after →
          readColor (App.composeColors vertexCount (App.regions st) (App.paintedColors st)) j
          = Some (stored (App.THREE_Color (App.scheme_color entry)))))
  ∧ (∀ md, App.modelData st = Some md → App.md_name md ≠ "" →
           App.scheme_download (App.exportColorScheme now st)
           = App.md_name md +:+ "_colors.json")
  ∧ (App.modelData st = None ∨ App.md_name <$> App.modelData st = Some "" →
     App.scheme_download (App.exportColorScheme now st) = "miniature_colors.json").
Proof.
  intros Hregions. unfold App.exportColorScheme. simpl. split; [by rewrite length_map|].
  split; [|split].
  - rewrite Hregions, map_app. simpl.
    rewrite lookup_app_r by by rewrite length_map.
    rewrite length_map, Nat.sub_diag. simpl. eexists. split; [done|]. simpl.
    repeat (split; [done|]). intros Hj Hpaints Hafter.
    unfold App.composeColors.
    apply readColor_paintRegions_last; by rewrite ?length_fillDefault.
  - intros md -> Hname. by rewrite decide_False.
  - intros [->|Hname]; [done|].
    destruct (App.modelData st) as [md|]; [|done].
    injection Hname as ->. by rewrite decide_True.
Qed.

(** [checkBackendStatus] decides whether the first upload can start:
    while no model is loaded the file input is enabled after the probe
    exactly when the service answered with a success status and no upload is
    running.  The probe stores an error message only when the request
    itself fails, and touches neither the model nor the regions nor the
    overrides. *)
Theorem backend_probe_gates_upload (health : option bool) (st : App.AppState) :
  App.modelData st = None →
  (Forall (fun input => App.input_disabled input = false)
          (App.uploadInputs (App.checkBackendStatus health st))
   ↔ health = Some true ∧ App.isLoading st = false)
  ∧ (App.backendStatus (App.checkBackendStatus health st) = App.online ↔ health = Some true)
  ∧ (App.error (App.checkBackendStatus health st) ≠ App.error st → health = None)
  ∧ App.modelData (App.checkBackendStatus health st) = App.modelData st
  ∧ App.regions (App.checkBackendStatus health st) = App.regions st
  ∧ App.paintedColors (App.checkBackendStatus health st) = App.paintedColors st
  ∧ App.isLoading (App.checkBackendStatus health st) = App.isLoading st.
Proof.
  intros Hmodel. unfold App.uploadInputs.
  destruct health as [[|]|]; simpl; rewrite Hmodel, Forall_singleton; simpl;
    (split; [|split; [|split; [|done]]]); try done;
    destruct (App.isLoading st); simpl; split; try done; by intros [? ?].
Qed.

(** The updates of a call on a file: [isLoading] is set first and cleared
    last, and no update between the two is one of [isLoading]. *)
Lemma upload_actions_shape oracle (st : App.AppState) (file : App.File) :
  ∃ middle,
    App.handleFileUpload oracle st (Some file)
    = App.SetIsLoading true :: middle ++ [App.SetIsLoading false]
    ∧ Forall keepsLoading middle.
Proof.
  unfold App.handleFileUpload, App.finishUpload.
  destruct (App.prepareGeometry file) as [geometry|e].
  2:{ exists [App.SetError ""; App.SetError (App.message e)]. split; [done|].
      by repeat constructor. }
  destruct (App.segmentWithBackend oracle geometry) as [mapped|e].
  2:{ exists [App.SetError ""; App.SetError (App.message e)]. split; [done|].
      by repeat constructor. }
  destruct (App.sceneRef st); destruct mapped as [|first rest]; simpl.
  - eexists [_; _; _; _; _]. split; [reflexivity|]. by repeat constructor.
  - eexists [_; _; _; _; _; _]. split; [reflexivity|]. by repeat constructor.
  - eexists [_; _; _; _]. split; [reflexivity|]. by repeat constructor.
  - eexists [_; _; _; _; _]. split; [reflexivity|]. by repeat constructor.
Qed.

Lemma run_keepsLoading (st : App.AppState) actions :
  Forall keepsLoading actions → App.isLoading (App.run st actions) = App.isLoading st.
Proof.
  intros Hall. revert st. unfold App.run.
  induction Hall as [|a rest Ha _ IH]; intros st; simpl; [done|].
  rewrite IH. by destruct a.
Qed.

(** Whatever the file holds and whatever the service answers, a call
    of [handleFileUpload] on a file ends with [isLoading] cleared, and
    [isLoading] is set after each of its state updates but the last. *)
Theorem upload_loading_flag oracle (st : App.AppState) (file : App.File) (n : nat) :
  0 < n < length (App.handleFileUpload oracle st (Some file)) →
  App.isLoading (App.run st (take n (App.handleFileUpload oracle st (Some file)))) = true
  ∧ App.isLoading (App.run st (App.handleFileUpload oracle st (Some file))) = false.
Proof.
  destruct (upload_actions_shape oracle st file) as (middle & -> & Hmiddle).
  simpl. rewrite length_app. simpl. intros Hn. split.
  - destruct n as [|n]; [lia|]. simpl.
    rewrite take_app_le by lia.
    rewrite run_keepsLoading; [done|]. by apply Forall_take.
  - change (App.SetIsLoading true :: middle ++ [App.SetIsLoading false])
      with ([App.SetIsLoading true] ++ middle ++ [App.SetIsLoading false]).
    by rewrite !run_app.
Qed.

(** The response to a request clears [isLoading] whether or not
    other requests are outstanding: with two uploads under way the flag
    is cleared while the second request is still outstanding. *)
Theorem response_clears_loading (s : App.Session) (outcome : App.FetchOutcome)
    (pending : App.Pending) (rest : list App.Pending) :
  App.outstanding s = pending :: rest →
  App.step s (App.Respond outcome) (App.receive outcome s)
  ∧ App.isLoading (App.ui (App.receive outcome s)) = false
  ∧ App.outstanding (App.receive outcome s) = rest.
Proof.
  intros Hout. split; [constructor; by rewrite Hout|].
  unfold App.receive. rewrite Hout. simpl. split; [|done].
  unfold App.finishUpload.
  destruct (App.segmentWithBackend _ _) as [mapped|e]; [|done].
  destruct (App.sceneRef (App.ui s)); destruct mapped; done.
Qed.

End Painting.

(** The seam geometry and the region that lists both coincident vertices. *)
Lemma initial_colors_agree_witness :
  length (App.initialColors 3 (map App.makeVisible [seamRegion])) = 3 * 3
  ∧ (Forall (fun region => 0 ∉ App.vertex_indices region) [seamRegion] →
     readColor (App.initialColors 3 (map App.makeVisible [seamRegion])) 0
     = Some (stored (lightGray (H := Exact.runtime)))
     ∧ readColor (App.composeColors 3 (map App.makeVisible [seamRegion]) ∅) 0
       = Some (stored (defaultGray (H := Exact.runtime))))
  ∧ (∀ before region after,
       [seamRegion] = before ++ region :: after →
       0 ∈ App.vertex_indices region →
       Forall (fun later => 0 ∉ App.vertex_indices later) after →
       readColor (App.initialColors 3 (map App.makeVisible [seamRegion])) 0
       = Some (stored (THREE_Color_of_string (App.color region)))
       ∧ (App.id region ∉ Object_prototype →
          readColor (App.composeColors 3 (map App.makeVisible [seamRegion]) ∅) 0
          = Some (stored (THREE_Color_of_string (App.color region))))
       ∧ (App.id region ∈ Object_prototype →
          readColor (App.composeColors 3 (map App.makeVisible [seamRegion]) ∅) 0
          = Some (stored (H := Exact.runtime) (mkColor 1%Q 1%Q 1%Q)))).
Proof. apply (initial_colors_agree (H := Exact.runtime) 3 [seamRegion] 0). lia. Defined.

(** The first upload, of the one-triangle file. *)
Lemma successful_upload_witness :
  App.regions (App.run firstUploadState
                 (App.handleFileUpload wholeOracle firstUploadState (Some triangleFile)))
  = map App.makeVisible tileRegions
  ∧ Forall (fun region => App.visible region = true)
           (App.regions (App.run firstUploadState
                           (App.handleFileUpload wholeOracle firstUploadState (Some triangleFile))))
  ∧ App.paintedColors (App.run firstUploadState
                         (App.handleFileUpload wholeOracle firstUploadState (Some triangleFile)))
    = ∅
  ∧ App.error (App.run firstUploadState
                 (App.handleFileUpload wholeOracle firstUploadState (Some triangleFile))) = ""
  ∧ App.isLoading (App.run firstUploadState
                     (App.handleFileUpload wholeOracle firstUploadState (Some triangleFile)))
    = false
  ∧ App.selectedRegion (App.run firstUploadState
                          (App.handleFileUpload wholeOracle firstUploadState (Some triangleFile)))
    = match tileRegions with
      | first :: _ => App.id first
      | [] => App.selectedRegion firstUploadState
      end
  ∧ App.meshRef (App.run firstUploadState
                   (App.handleFileUpload wholeOracle firstUploadState (Some triangleFile)))
    = App.meshRef firstUploadState || App.sceneRef firstUploadState
  ∧ App.modelData (App.run firstUploadState
                     (App.handleFileUpload wholeOracle firstUploadState (Some triangleFile)))
    = Some {| App.md_name := App.file_name triangleFile;
              App.md_size := length (App.file_bytes triangleFile);
              App.md_geometry :=
                Some (setColorAttribute tileGeometry
                        (App.initialColors (count (attributes_position tileGeometry))
                           (map App.makeVisible tileRegions)));
              App.md_vertexCount := Some (count (attributes_position tileGeometry)) |}.
Proof.
  apply (successful_upload wholeOracle firstUploadState triangleFile tileGeometry tileRegions);
    reflexivity.
Defined.

(** Steel blue for the region of the painted model. *)
Lemma palette_click_paints_witness :
  App.selectedColor (App.paletteClick "#4682B4" paintedState) = "#4682B4"
  ∧ App.regions (App.paletteClick "#4682B4" paintedState) = App.regions paintedState
  ∧ App.paintedColors (App.paletteClick "#4682B4" paintedState)
    = <[App.selectedRegion paintedState := "#4682B4"]> (App.paintedColors paintedState)
  ∧ readColor (App.composeColors 3 (App.regions (App.paletteClick "#4682B4" paintedState))
                 (App.paintedColors (App.paletteClick "#4682B4" paintedState))) 0
    = Some (stored (THREE_Color_of_string (Runtime := Exact.runtime) "#4682B4"))
  ∧ (∀ other : App.PaintRegion (H := Exact.runtime),
        App.id other ≠ App.selectedRegion paintedState →
        App.colorHexOf (App.paintedColors (App.paletteClick "#4682B4" paintedState)) other
        = App.colorHexOf (App.paintedColors paintedState) other).
Proof.
  apply (palette_click_paints paintedState "#4682B4" 3 0 [] baseRegion []).
  - change ("#4682B4" ∈ App.PAINT_COLORS). unfold App.PAINT_COLORS. by repeat constructor.
  - reflexivity.
  - reflexivity.
  - lia.
  - split; [reflexivity|by left].
  - constructor.
Defined.

(** The scheme of the painted model. *)
Lemma export_matches_buffer_witness :
  length (App.scheme_regions (App.exportColorScheme "2024-01-01T00:00:00.000Z" paintedState))
  = length (App.regions paintedState)
  ∧ (∃ entry,
       App.scheme_regions (App.exportColorScheme "2024-01-01T00:00:00.000Z" paintedState)
         !! length (@nil (App.PaintRegion (H := Exact.runtime))) = Some entry
       ∧ App.scheme_name entry = App.name baseRegion
       ∧ App.scheme_vertices entry = App.vertex_count baseRegion
       ∧ App.scheme_percentage entry = App.vertex_percentage baseRegion
       ∧ (0 < 3 → paints 0 baseRegion →
          Forall (fun later : App.PaintRegion (H := Exact.runtime) => ¬ paints 0 later) [] →
          readColor (App.composeColors 3 (App.regions paintedState)
                       (App.paintedColors paintedState)) 0
          = Some (stored (App.THREE_Color (App.scheme_color entry)))))
  ∧ (∀ md, App.modelData paintedState = Some md → App.md_name md ≠ "" →
           App.scheme_download (App.exportColorScheme "2024-01-01T00:00:00.000Z" paintedState)
           = App.md_name md +:+ "_colors.json")
  ∧ (App.modelData paintedState = None
     ∨ App.md_name <$> App.modelData paintedState = Some "" →
     App.scheme_download (App.exportColorScheme "2024-01-01T00:00:00.000Z" paintedState)
     = "miniature_colors.json").
Proof.
  apply (export_matches_buffer "2024-01-01T00:00:00.000Z" paintedState 3 0 [] baseRegion []).
  reflexivity.
Defined.

(** The probe succeeds while the request of the first upload is outstanding. *)
Lemma backend_probe_gates_upload_witness :
  (Forall (fun input => App.input_disabled input = false)
          (App.uploadInputs (App.checkBackendStatus (Some true) firstUploadState))
   ↔ Some true = Some true ∧ App.isLoading firstUploadState = false)
  ∧ (App.backendStatus (App.checkBackendStatus (Some true) firstUploadState) = App.online
     ↔ Some true = Some true)
  ∧ (App.error (App.checkBackendStatus (Some true) firstUploadState)
     ≠ App.error firstUploadState → Some true = None)
  ∧ App.modelData (App.checkBackendStatus (Some true) firstUploadState)
    = App.modelData firstUploadState
  ∧ App.regions (App.checkBackendStatus (Some true) firstUploadState)
    = App.regions firstUploadState
  ∧ App.paintedColors (App.checkBackendStatus (Some true) firstUploadState)
    = App.paintedColors firstUploadState
  ∧ App.isLoading (App.checkBackendStatus (Some true) firstUploadState)
    = App.isLoading firstUploadState.
Proof. apply (backend_probe_gates_upload (Some true) firstUploadState). reflexivity. Defined.

(** The service cannot be reached: after the third of the four updates. *)
Lemma upload_loading_flag_witness :
  App.isLoading (App.run paintedState
                   (take 3 (App.handleFileUpload unreachable paintedState (Some nextFile))))
  = true
  ∧ App.isLoading (App.run paintedState
                     (App.handleFileUpload unreachable paintedState (Some nextFile)))
    = false.
Proof.
  apply (upload_loading_flag unreachable paintedState nextFile 3).
  change (0 < 3 < 4). lia.
Defined.

(** Two uploads under way from the "New Model" input, and the first response. *)
Lemma response_clears_loading_witness :
  App.step (App.beginUpload nextFile (App.beginUpload nextFile loadedSession))
    (App.Respond (answer []))
    (App.receive (answer []) (App.beginUpload nextFile (App.beginUpload nextFile loadedSession)))
  ∧ App.isLoading
      (App.ui (App.receive (answer [])
                 (App.beginUpload nextFile (App.beginUpload nextFile loadedSession))))
    = false
  ∧ App.outstanding
      (App.receive (answer []) (App.beginUpload nextFile (App.beginUpload nextFile loadedSession)))
    = [App.mkPending nextFile (mkGeometry (H := Exact.runtime) [] [] None)].
Proof.
  apply (response_clears_loading
           (App.beginUpload nextFile (App.beginUpload nextFile loadedSession)) (answer [])
           (App.mkPending nextFile (mkGeometry (H := Exact.runtime) [] [] None))
           [App.mkPending nextFile (mkGeometry (H := Exact.runtime) [] [] None)]).
  reflexivity.
Defined.

(** The entry of canonical index 0 of the seam geometry. *)
Lemma reverseMap_entries_witness :
  Forall (fun i => i < length (items (attributes_position seamGeometry))) [0; 1]
  ∧ (∀ a b x y, [0; 1] !! a = Some x → [0; 1] !! b = Some y → a < b → x < y)
  ∧ (∀ z' l' i, reverseMap (items (attributes_position seamGeometry)) !! z' = Some l' →
                i ∈ [0; 1] → i ∈ l' → z' = 0%Z).
Proof.
  apply (reverseMap_entries (items (attributes_position seamGeometry)) 0%Z [0; 1]).
  reflexivity.
Defined.

(** ** The colouring step of the single-file variant *)

Section LegacyPaint.
Context `{Runtime}.

Lemma length_writeColors c l colors :
  length (fold_left (fun colors idx => writeColor colors idx c) l colors) = length colors.
Proof.
  revert colors. induction l as [|i l IH]; intros colors; simpl; [done|].
  by rewrite IH, length_writeColor.
Qed.

Lemma uniqueToFullTable_missing positions k j v :
  SimpleApp.uniqueToFullTable positions !! k = None →
  positions !! j = Some v → App.vertexKey 4 v ≠ k.
Proof.
  rewrite uniqueToFullTable_lookup. intros Hmissing Hv Hk.
  assert (j ∈ indicesWhere (hasKey k) 0 positions) as Hj.
  { apply elem_of_indicesWhere. split; [lia|]. rewrite Nat.sub_0_r.
    exists v. split; [done|]. by apply bool_decide_eq_true. }
  destruct (indicesWhere (hasKey k) 0 positions); [by apply elem_of_nil in Hj|done].
Qed.

(** The body of the inner loop of the variant, for an index of the
    array of unique vertices: it returns, and in the buffer it returns a raw
    vertex has the colour of the region exactly when its four-digit key, in
    the position array as it is then, is the key of the unique vertex at that
    index; every other raw vertex has the colour it had. *)
Theorem legacy_paint_by_key (vertArray positions : list Vertex) (c : Color number)
    (colors : list number) (backendIdx : Z) (vert : Vertex) :
  SimpleApp.arrayGet vertArray backendIdx = Some vert →
  3 * length positions ≤ length colors →
  ∃ colors',
    SimpleApp.paintBackendIndex vertArray (SimpleApp.uniqueToFullTable positions) c colors
      backendIdx = Ok colors'
    ∧ length colors' = length colors
    ∧ ∀ j v, positions !! j = Some v →
        readColor colors' j
        = if decide (App.vertexKey 4 v = App.vertexKey 4 vert) then Some (stored c)
          else readColor colors j.
Proof.
  intros Hvert Hlen. unfold SimpleApp.paintBackendIndex.
  assert (backendIdx < Z.of_nat (length vertArray))%Z as Hidx.
  { unfold SimpleApp.arrayGet in Hvert. case_decide; [|done].
    apply lookup_lt_Some in Hvert. lia. }
  rewrite decide_True by done. rewrite Hvert.
  destruct (SimpleApp.uniqueToFullTable positions !! App.vertexKey 4 vert) as [l|] eqn:Hl.
  - eexists. split; [done|]. split; [apply length_writeColors|].
    intros j v Hv. rewrite readColor_fill_from.
    + destruct (decide (j ∈ l)) as [Hj|Hj];
        rewrite (uniqueToFullTable_entry _ _ _ j Hl) in Hj.
      * destruct Hj as (w & Hw & Hk). rewrite decide_True; [done|]. congruence.
      * rewrite decide_False; [done|]. intros Hk. apply Hj. by exists v.
    + intros i (w & Hw%lookup_lt_Some & _)%(uniqueToFullTable_entry _ _ _ i Hl). lia.
  - exists colors. split; [done|]. split; [done|].
    intros j v Hv. rewrite decide_False; [done|].
    by eapply uniqueToFullTable_missing.
Qed.

Lemma paintBackendIndex_not_negative vertArray uniqueToFull c colors (backendIdx : Z) :
  (0 ≤ backendIdx)%Z →
  ∃ colors',
    SimpleApp.paintBackendIndex vertArray uniqueToFull c colors backendIdx = Ok colors'
    ∧ length colors' = length colors.
Proof.
  intros Hidx. unfold SimpleApp.paintBackendIndex, SimpleApp.arrayGet.
  case_decide as Hlt; [|by eexists].
  rewrite decide_True by done.
  destruct (lookup_lt_is_Some_2 vertArray (Z.to_nat backendIdx)) as [vert ->]; [lia|].
  destruct (uniqueToFull !! App.vertexKey 4 vert) as [l|]; [|by eexists].
  eexists. split; [done|]. apply length_writeColors.
Qed.

Lemma paintBackendIndices_not_negative vertArray uniqueToFull c indices colors :
  Forall (fun idx => 0 ≤ idx)%Z indices →
  ∃ colors',
    SimpleApp.paintBackendIndices vertArray uniqueToFull c indices colors = Ok colors'
    ∧ length colors' = length colors.
Proof.
  intros Hall. revert colors.
  induction Hall as [|idx rest Hidx _ IH]; intros colors; simpl; [by eexists|].
  destruct (paintBackendIndex_not_negative vertArray uniqueToFull c colors idx Hidx)
    as (colors1 & -> & Hlen1). rewrite bind_Ok.
  destruct (IH colors1) as (colors' & -> & Hlen'). exists colors'. split; [done|]. congruence.
Qed.

Lemma paintBackendIndices_negative vertArray uniqueToFull c indices colors :
  Exists (fun idx => idx < 0)%Z indices →
  SimpleApp.paintBackendIndices vertArray uniqueToFull c indices colors = Throw TypeError.
Proof.
  intros Hsome. revert colors.
  induction Hsome as [idx rest Hidx|idx rest _ IH]; intros colors; simpl.
  - by rewrite paintBackendIndex_negative.
  - destruct (decide (0 ≤ idx)%Z) as [Hidx|Hidx].
    + destruct (paintBackendIndex_not_negative vertArray uniqueToFull c colors idx Hidx)
        as (colors1 & -> & _). rewrite bind_Ok. apply IH.
    + by rewrite paintBackendIndex_negative by lia.
Qed.

Lemma paintRegions_paintable random vertArray uniqueToFull regionList calls colors :
  Forall paintable regionList →
  ∃ colors',
    SimpleApp.paintRegions random vertArray uniqueToFull regionList calls colors = Ok colors'
    ∧ length colors' = length colors.
Proof.
  intros Hall. revert calls colors.
  induction Hall as [|region rest (indices & Hindices & Hnonneg) _ IH]; intros calls colors;
    cbn [SimpleApp.paintRegions]; [by eexists|].
  destruct (SimpleApp.regionColor random calls (App.br_id region)) as [c calls'].
  rewrite Hindices.
  destruct (paintBackendIndices_not_negative vertArray uniqueToFull c indices colors Hnonneg)
    as (colors1 & -> & Hlen1). rewrite bind_Ok.
  destruct (IH calls' colors1) as (colors' & -> & Hlen'). exists colors'. split; [done|].
  congruence.
Qed.

Lemma paintable_or_not (region : App.BackendRegion) : paintable region ∨ unpaintable region.
Proof.
  unfold paintable, unpaintable.
  destruct (App.br_vertex_indices region) as [indices|]; [|by right; left].
  destruct (decide (Forall (fun idx => 0 ≤ idx)%Z indices)) as [Hall|Hsome].
  - left. by exists indices.
  - right. right. exists indices. split; [done|].
    apply not_Forall_Exists in Hsome; [|apply _].
    eapply Exists_impl; [exact Hsome|]. intros idx Hidx. unfold compose in Hidx. lia.
Qed.

Lemma paintRegions_unpaintable random vertArray uniqueToFull regionList calls colors :
  Exists unpaintable regionList →
  SimpleApp.paintRegions random vertArray uniqueToFull regionList calls colors = Throw TypeError.
Proof.
  intros Hsome. revert calls colors.
  induction Hsome as [region rest Hregion|region rest _ IH]; intros calls colors;
    cbn [SimpleApp.paintRegions];
    destruct (SimpleApp.regionColor random calls (App.br_id region)) as [c calls'].
  - destruct Hregion as [->|(indices & -> & Hneg)]; [done|].
    by rewrite paintBackendIndices_negative.
  - destruct (paintable_or_not region) as [(indices & -> & Hnonneg)|Hregion].
    + destruct (paintBackendIndices_not_negative vertArray uniqueToFull c indices colors Hnonneg)
        as (colors1 & -> & _). rewrite bind_Ok. apply IH.
    + destruct Hregion as [->|(indices & -> & Hneg)]; [done|].
      by rewrite paintBackendIndices_negative.
Qed.

(** The colouring step of the variant returns a buffer, of the length
    of the position array, when every region of the answer carries an index
    list and no index is below zero, whatever else the indices are; and it
    fails with a type error when some region carries no index list or an
    index below zero. *)
Theorem legacy_colorStep_outcomes (random : nat → number) (vertices : list number)
    (vertArray : list Vertex) (regionList : list App.BackendRegion) :
  (Forall paintable regionList →
   ∃ colors, SimpleApp.colorStep random vertices vertArray regionList = Ok colors
             ∧ length colors = length vertices)
  ∧ (Exists unpaintable regionList →
     SimpleApp.colorStep random vertices vertArray regionList = Throw TypeError).
Proof.
  unfold SimpleApp.colorStep. split.
  - intros Hall.
    destruct (paintRegions_paintable random vertArray
                (SimpleApp.uniqueToFullTable (items vertices)) regionList 0
                (fold_left (fun colors i =>
                              writeColor colors i (THREE_Color_of_number (number_of_Z 0x808080)))
                           (seq 0 (length vertices / 3)) (Float32Array (length vertices))) Hall)
      as (colors & Hcolors & Hlen).
    exists colors. split; [done|]. rewrite Hlen, length_writeColors.
    unfold Float32Array. by rewrite length_replicate.
  - apply paintRegions_unpaintable.
Qed.

End LegacyPaint.

(** Canonical index 0 of one unique vertex, for two raw vertices at its position. *)
Lemma legacy_paint_by_key_witness :
  ∃ colors',
    SimpleApp.paintBackendIndex (H := Exact.runtime) [originVertex]
      (SimpleApp.uniqueToFullTable [originVertex; originVertex])
      (THREE_Color_of_string (Runtime := Exact.runtime) "#FFD700") (replicate 6 0%Q) 0%Z = Ok colors'
    ∧ length colors' = length (replicate 6 0%Q)
    ∧ ∀ j v, [originVertex; originVertex] !! j = Some v →
        readColor colors' j
        = if decide (App.vertexKey 4 v = App.vertexKey 4 originVertex)
          then Some (stored (THREE_Color_of_string (Runtime := Exact.runtime) "#FFD700"))
          else readColor (H := Exact.runtime) (replicate 6 0%Q) j.
Proof.
  apply (legacy_paint_by_key (H := Exact.runtime) [originVertex] [originVertex; originVertex]
           (THREE_Color_of_string (Runtime := Exact.runtime) "#FFD700") (replicate 6 0%Q) 0%Z originVertex).
  - reflexivity.
  - simpl. lia.
Defined.

(** ** The order of the regions, and the events of a session *)

Section Order.
Context `{Runtime}.

(** Two buffers of three channels per vertex that hold the same colour for
    every vertex are the same buffer. *)
Lemma readColor_ext (a b : list number) vertexCount :
  length a = vertexCount * 3 → length b = vertexCount * 3 →
  (∀ j, j < vertexCount → readColor a j = readColor b j) → a = b.
Proof.
  intros Ha Hb Hread. apply list_eq. intros i.
  destruct (decide (i < vertexCount * 3)) as [Hi|Hi].
  2:{ by rewrite !lookup_ge_None_2 by lia. }
  pose proof (Nat.div_mod_eq i 3) as Hdiv.
  pose proof (Nat.mod_upper_bound i 3) as Hmod.
  set (j := i / 3) in *. set (c := i mod 3) in *. clearbody j c.
  specialize (Hread j). unfold readColor in Hread.
  destruct (lookup_lt_is_Some_2 a (j * 3)) as [a0 Ha0]; [lia|].
  destruct (lookup_lt_is_Some_2 a (j * 3 + 1)) as [a1 Ha1]; [lia|].
  destruct (lookup_lt_is_Some_2 a (j * 3 + 2)) as [a2 Ha2]; [lia|].
  destruct (lookup_lt_is_Some_2 b (j * 3)) as [b0 Hb0]; [lia|].
  destruct (lookup_lt_is_Some_2 b (j * 3 + 1)) as [b1 Hb1]; [lia|].
  destruct (lookup_lt_is_Some_2 b (j * 3 + 2)) as [b2 Hb2]; [lia|].
  rewrite Ha0, Ha1, Ha2, Hb0, Hb1, Hb2 in Hread.
  assert (Some (mkColor a0 a1 a2) = Some (mkColor b0 b1 b2)) as [= -> -> ->]
    by (apply Hread; lia).
  assert (i = j * 3 ∨ i = j * 3 + 1 ∨ i = j * 3 + 2) as [->|[->| ->]] by lia; congruence.
Qed.

Lemma lastPainter_Some j regionList region :
  lastPainter j regionList = Some region → region ∈ regionList ∧ paints j region.
Proof.
  induction regionList as [|r rest IH]; simpl; [done|].
  destruct (lastPainter j rest) as [later|].
  - intros [= ->]. destruct IH as [Hin Hpaints]; [done|]. split; [by right|done].
  - destruct (decide (paints j r)) as [Hpaints|]; [|done]. intros [= <-]. split; [by left|done].
Qed.

(** When no raw vertex is painted by two different regions of the list,
    the composed buffer does not depend on the order of the regions. *)
Theorem compositor_order_independent (vertexCount : nat)
    (regionList reordered : list App.PaintRegion) (painted : gmap string string) :
  regionList ≡ₚ reordered →
  (∀ j r1 r2, r1 ∈ regionList → r2 ∈ regionList → paints j r1 → paints j r2 → r1 = r2) →
  App.composeColors vertexCount regionList painted
  = App.composeColors vertexCount reordered painted.
Proof.
  intros Hperm Hone. unfold App.composeColors.
  apply (readColor_ext _ _ vertexCount);
    [by rewrite length_paintRegions, length_fillDefault..|].
  intros j Hj.
  rewrite !readColor_paintRegions_lastPainter by (by rewrite ?length_fillDefault).
  destruct (lastPainter j regionList) as [r|] eqn:Hlast;
    destruct (lastPainter j reordered) as [r'|] eqn:Hlast'; [| | |done].
  - apply lastPainter_Some in Hlast as [Hin Hpaints].
    apply lastPainter_Some in Hlast' as [Hin' Hpaints'].
    rewrite <- Hperm in Hin'. by rewrite (Hone j r r' Hin Hin' Hpaints Hpaints').
  - apply lastPainter_Some in Hlast as [Hin Hpaints].
    apply lastPainter_None in Hlast'. rewrite Forall_forall in Hlast'.
    rewrite Hperm in Hin. by destruct (Hlast' r Hin).
  - apply lastPainter_Some in Hlast' as [Hin' Hpaints'].
    apply lastPainter_None in Hlast. rewrite Forall_forall in Hlast.
    rewrite <- Hperm in Hin'. by destruct (Hlast r' Hin').
Qed.

Lemma step_keeps_model (s s' : App.Session) event :
  App.step s event s' →
  (is_Some (App.modelData (App.ui s)) → is_Some (App.modelData (App.ui s')))
  ∧ App.backendStatus (App.ui s') = App.backendStatus (App.ui s)
  ∧ App.selectedColor (App.ui s') = App.selectedColor (App.ui s).
Proof.
  destruct 1 as [s input file _ _|s outcome _].
  - unfold App.beginUpload. by destruct (App.prepareGeometry file).
  - unfold App.receive. destruct (App.outstanding s) as [|pending rest]; [done|]. simpl.
    unfold App.finishUpload.
    destruct (App.segmentWithBackend _ _) as [mapped|e]; [|done].
    destruct (App.sceneRef (App.ui s)); destruct mapped; simpl; (split; [by eauto|done]).
Qed.

(** No sequence of uploads and responses unloads a model: once a model is
    loaded, after any events a model is loaded, the only file input is the
    "New Model" input, which is never disabled; and no such event changes
    [backendStatus] or the selected colour. *)
Theorem model_never_unloaded (s s' : App.Session) :
  rtc next s s' →
  is_Some (App.modelData (App.ui s)) →
  is_Some (App.modelData (App.ui s'))
  ∧ App.uploadInputs (App.ui s') = [newModelInput]
  ∧ App.backendStatus (App.ui s') = App.backendStatus (App.ui s)
  ∧ App.selectedColor (App.ui s') = App.selectedColor (App.ui s).
Proof.
  intros Hsteps Hmodel.
  assert (is_Some (App.modelData (App.ui s'))
          ∧ App.backendStatus (App.ui s') = App.backendStatus (App.ui s)
          ∧ App.selectedColor (App.ui s') = App.selectedColor (App.ui s)) as (Hmodel' & ? & ?).
  { induction Hsteps as [s|s mid s' [event Hstep] _ IH]; [done|].
    destruct (step_keeps_model _ _ _ Hstep) as (Hkeeps & Hstatus & Hcolour).
    destruct IH as (? & ? & ?); [by apply Hkeeps|]. split; [done|]. split; congruence. }
  split; [done|]. split; [|done].
  destruct Hmodel' as [md Hmd]. by eapply uploadInputs_with_model.
Qed.

End Order.

(** The two regions of the seam geometry, in either order. *)
Lemma compositor_order_independent_witness :
  App.composeColors 3 [baseRegion; headRegion] goldOverride
  = App.composeColors 3 [headRegion; baseRegion] goldOverride.
Proof.
  apply (compositor_order_independent (H := Exact.runtime) 3 [baseRegion; headRegion]
           [headRegion; baseRegion] goldOverride).
  - apply perm_swap.
  - intros j r1 r2 Hr1 Hr2 [_ Hj1] [_ Hj2].
    apply elem_of_cons in Hr1 as [->|Hr1%list_elem_of_singleton];
      apply elem_of_cons in Hr2 as [->|Hr2%list_elem_of_singleton]; subst; try done.
    + apply list_elem_of_singleton in Hj1. apply list_elem_of_singleton in Hj2. lia.
    + apply list_elem_of_singleton in Hj1. apply list_elem_of_singleton in Hj2. lia.
Defined.

(** Two uploads from the "New Model" input of the painted model. *)
Lemma model_never_unloaded_witness :
  is_Some (App.modelData
             (App.ui (App.beginUpload nextFile (App.beginUpload nextFile loadedSession))))
  ∧ App.uploadInputs (App.ui (App.beginUpload nextFile (App.beginUpload nextFile loadedSession)))
    = [newModelInput]
  ∧ App.backendStatus
      (App.ui (App.beginUpload nextFile (App.beginUpload nextFile loadedSession)))
    = App.backendStatus (App.ui loadedSession)
  ∧ App.selectedColor
      (App.ui (App.beginUpload nextFile (App.beginUpload nextFile loadedSession)))
    = App.selectedColor (App.ui loadedSession).
Proof.
  apply (model_never_unloaded loadedSession
           (App.beginUpload nextFile (App.beginUpload nextFile loadedSession))).
  - eapply rtc_l; [exists (App.Change newModelInput nextFile); constructor; [by left|done]|].
    eapply rtc_l; [exists (App.Change newModelInput nextFile); constructor; [by left|done]|].
    apply rtc_refl.
  - by eexists.
Defined.

(** ** The colouring step of the variant, vertex by vertex *)

Section LegacyCompositor.
Context `{Runtime}.

Lemma items_length (array : list number) :
  3 * length (items array) ≤ length array ∧ length array < 3 * length (items array) + 3.
Proof.
  assert (∀ n (l : list number), length l ≤ n →
            3 * length (items l) ≤ length l ∧ length l < 3 * length (items l) + 3) as Hall.
  { induction n as [|n IH]; intros l Hl.
    - destruct l; simpl in *; lia.
    - destruct l as [|x [|y [|z rest]]]; simpl in *; try lia.
      destruct (IH rest) as [? ?]; lia. }
  by apply (Hall (length array)).
Qed.

Lemma arrayGet_selects vertArray v backendIdx vert :
  SimpleApp.arrayGet vertArray backendIdx = Some vert →
  selects vertArray v backendIdx ↔ App.vertexKey 4 v = App.vertexKey 4 vert.
Proof.
  intros Hvert. unfold selects. rewrite Hvert. split; [by intros (w & [= <-] & ?)|by eauto].
Qed.

Lemma paintBackendIndex_selects vertArray positions c colors backendIdx colors' :
  SimpleApp.paintBackendIndex vertArray (SimpleApp.uniqueToFullTable positions) c colors
    backendIdx = Ok colors' →
  3 * length positions ≤ length colors →
  length colors' = length colors
  ∧ ∀ j v, positions !! j = Some v →
      readColor colors' j
      = if decide (selects vertArray v backendIdx) then Some (stored c) else readColor colors j.
Proof.
  unfold SimpleApp.paintBackendIndex. intros Hpaint Hlen.
  destruct (decide (backendIdx < Z.of_nat (length vertArray))%Z) as [Hidx|Hidx].
  - destruct (SimpleApp.arrayGet vertArray backendIdx) as [vert|] eqn:Hvert; [|done].
    destruct (SimpleApp.uniqueToFullTable positions !! App.vertexKey 4 vert) as [l|] eqn:Hl;
      injection Hpaint as <-.
    + split; [apply length_writeColors|]. intros j v Hv. rewrite readColor_fill_from.
      * destruct (decide (j ∈ l)) as [Hj|Hj];
          rewrite (uniqueToFullTable_entry _ _ _ j Hl) in Hj.
        -- destruct Hj as (w & Hw & Hk). rewrite decide_True; [done|].
           apply (arrayGet_selects _ _ _ _ Hvert). congruence.
        -- rewrite decide_False; [done|]. intros Hk%(arrayGet_selects _ _ _ _ Hvert).
           apply Hj. by exists v.
      * intros i (w & Hw%lookup_lt_Some & _)%(uniqueToFullTable_entry _ _ _ i Hl). lia.
    + split; [done|]. intros j v Hv. rewrite decide_False; [done|].
      intros Hk%(arrayGet_selects _ _ _ _ Hvert).
      by eapply uniqueToFullTable_missing.
  - injection Hpaint as <-. split; [done|]. intros j v Hv. rewrite decide_False; [done|].
    intros (vert & Hvert & _). unfold SimpleApp.arrayGet in Hvert.
    case_decide; [|done]. apply lookup_lt_Some in Hvert. lia.
Qed.

Lemma paintBackendIndices_selects vertArray positions c indices colors colors' :
  SimpleApp.paintBackendIndices vertArray (SimpleApp.uniqueToFullTable positions) c indices colors
  = Ok colors' →
  3 * length positions ≤ length colors →
  length colors' = length colors
  ∧ ∀ j v, positions !! j = Some v →
      readColor colors' j
      = if decide (Exists (selects vertArray v) indices) then Some (stored c)
        else readColor colors j.
Proof.
  revert colors. induction indices as [|backendIdx rest IH]; intros colors;
    cbn [SimpleApp.paintBackendIndices].
  { intros [= <-] _. split; [done|]. intros j v _. rewrite decide_False; [done|].
    by intros ?%Exists_nil. }
  destruct (SimpleApp.paintBackendIndex _ _ c colors backendIdx) as [colors1|] eqn:Hhead; [|done].
  rewrite bind_Ok. intros Hrest Hlen.
  apply paintBackendIndex_selects in Hhead as [Hlen1 Hread1]; [|done].
  apply IH in Hrest as [Hlen' Hread']; [|lia].
  split; [congruence|]. intros j v Hv. rewrite (Hread' j v Hv), (Hread1 j v Hv).
  destruct (decide (Exists (selects vertArray v) rest)) as [Hrest|Hrest].
  - rewrite decide_True; [done|]. by apply Exists_cons_tl.
  - destruct (decide (selects vertArray v backendIdx)) as [Hhere|Hhere].
    + rewrite decide_True; [done|]. by apply Exists_cons_hd.
    + rewrite decide_False; [done|]. by intros [?|?]%Exists_cons.
Qed.

(** The loop over the regions: a raw vertex that no region reaches keeps
    its colour, and one that some region reaches has the colour of the
    last such region: the one its id gives it after the calls of
    [Math.random] for the regions before it. *)
Lemma paintRegions_reaches random vertArray positions regionList :
  ∀ calls colors colors',
  SimpleApp.paintRegions random vertArray (SimpleApp.uniqueToFullTable positions) regionList
    calls colors = Ok colors' →
  3 * length positions ≤ length colors →
  length colors' = length colors
  ∧ ∀ j, j < length positions →
      (Forall (fun region => ¬ reaches vertArray positions j region) regionList →
       readColor colors' j = readColor colors j)
      ∧ (∀ before region after,
           regionList = before ++ region :: after →
           reaches vertArray positions j region →
           Forall (fun later => ¬ reaches vertArray positions j later) after →
           readColor colors' j
           = Some (stored (SimpleApp.regionColor random (calls + draws before)
                             (App.br_id region)).1)).
Proof.
  induction regionList as [|head rest IH]; intros calls colors colors'.
  { intros [= <-] _. split; [done|]. intros j _. split; [done|].
    intros before region after Heq. by destruct before. }
  cbn [SimpleApp.paintRegions].
  pose proof (regionColor_calls random calls (App.br_id head)) as Hcalls.
  destruct (SimpleApp.regionColor random calls (App.br_id head)) as [c calls1] eqn:Hc.
  simpl in Hcalls.
  destruct (App.br_vertex_indices head) as [indices|] eqn:Hindices; [|done].
  destruct (SimpleApp.paintBackendIndices _ _ c indices colors) as [colors1|] eqn:Hhead; [|done].
  rewrite bind_Ok. intros Hrest Hlen.
  apply paintBackendIndices_selects in Hhead as [Hlen1 Hread1]; [|done].
  apply IH in Hrest as [Hlen' Hread']; [|lia].
  split; [congruence|]. intros j Hj.
  destruct (lookup_lt_is_Some_2 positions j Hj) as [v Hv].
  destruct (Hread' j Hj) as [Hnone' Hlast']. split.
  - intros Hall. apply Forall_cons in Hall as [Hhere Hlater].
    rewrite Hnone', (Hread1 j v Hv) by done. rewrite decide_False; [done|].
    intros Hex. apply Hhere. by exists indices, v.
  - intros before region after Heq Hreach Hafter. destruct before as [|b before'].
    + simpl in Heq. injection Heq as -> ->.
      rewrite Hnone', (Hread1 j v Hv) by done.
      destruct Hreach as (indices' & v' & Hindices' & Hv' & Hex).
      rewrite decide_True by congruence.
      unfold draws. simpl. by rewrite Nat.add_0_r, Hc.
    + simpl in Heq. injection Heq as -> ->.
      rewrite (Hlast' before' region after eq_refl Hreach Hafter), draws_cons, Hcalls.
      by rewrite Nat.add_assoc.
Qed.

Lemma colorStep_reaches random vertices vertArray regionList colors :
  SimpleApp.colorStep random vertices vertArray regionList = Ok colors →
  length colors = length vertices
  ∧ ∀ j, j < count vertices →
      (Forall (fun region => ¬ reaches vertArray (items vertices) j region) regionList →
       readColor colors j = Some (stored defaultGray))
      ∧ (∀ before region after,
           regionList = before ++ region :: after →
           reaches vertArray (items vertices) j region →
           Forall (fun later => ¬ reaches vertArray (items vertices) j later) after →
           readColor colors j
           = Some (stored (SimpleApp.regionColor random (draws before) (App.br_id region)).1)).
Proof.
  unfold SimpleApp.colorStep, count. intros Hstep.
  pose proof (items_length vertices) as [Hitems _].
  apply paintRegions_reaches in Hstep as [Hlen Hread].
  2:{ rewrite length_writeColors. unfold Float32Array. by rewrite length_replicate. }
  rewrite length_writeColors in Hlen. unfold Float32Array in Hlen.
  rewrite length_replicate in Hlen.
  split; [done|]. intros j Hj. destruct (Hread j Hj) as [Hnone Hlast]. split.
  - intros Hall. rewrite Hnone by done. rewrite readColor_fill_from.
    + rewrite decide_True; [done|]. apply elem_of_seq. split; [lia|].
      rewrite Nat.add_0_l. apply (Nat.div_le_lower_bound _ 3 (S j)); lia.
    + intros i [_ Hi]%elem_of_seq. unfold Float32Array. rewrite length_replicate.
      rewrite Nat.add_0_l in Hi.
      pose proof (Nat.Div0.mul_div_le (length vertices) 3). lia.
  - intros before region after Heq Hreach Hafter.
    by rewrite (Hlast before region after Heq Hreach Hafter).
Qed.

End LegacyCompositor.

(** ** The compositor in both files *)

Section Compositors.
Context `{Runtime}.

(** C2, as the code has it.  In [App.tsx] the buffer
    [applyColorsToGeometry] composes for [vertexCount] vertices holds three
    channels per vertex, each as a [Float32Array] keeps it.  A raw vertex
    that no visible region lists keeps the default grey.  A raw vertex that
    some visible region lists has the colour of the last such region in
    list order, whatever the regions before it are; an invisible region
    changes nothing.  That colour is made from the override stored for the
    region when there is one, and every override a click on the palette
    stores is a string that is not empty; from the region's own colour when
    there is none and the id of the region is not the name of a member of
    [Object.prototype].  The colouring step of [SimpleApp.tsx] has neither
    overrides nor visibility: when it returns, a raw vertex that no region
    of the answer reaches keeps the same default grey, and one that some
    region reaches has the colour that the id of the last such region gives
    it, whatever the colour and the visibility flag of that region are. *)
Theorem compositor_colors :
  (∀ vertexCount regionList painted j,
     j < vertexCount →
     length (App.composeColors vertexCount regionList painted) = vertexCount * 3
     ∧ (Forall (fun region => ¬ paints j region) regionList →
        readColor (App.composeColors vertexCount regionList painted) j
        = Some (stored defaultGray))
     ∧ (∀ before region after,
          regionList = before ++ region :: after →
          paints j region →
          Forall (fun later => ¬ paints j later) after →
          readColor (App.composeColors vertexCount regionList painted) j
          = Some (stored (App.THREE_Color (App.colorHexOf painted region)))
          ∧ (∀ override, painted !! App.id region = Some override → override ≠ "" →
                         App.colorHexOf painted region = App.ColorString override)
          ∧ (painted !! App.id region = None → App.id region ∉ Object_prototype →
             App.colorHexOf painted region = App.ColorString (App.color region))))
  ∧ (∀ (st : App.AppState) colour regionId override,
       colour ∈ App.paletteButtons st →
       (∀ k v, App.paintedColors st !! k = Some v → v ≠ "") →
       App.paintedColors (App.paletteClick colour st) !! regionId = Some override →
       override ≠ "")
  ∧ (∀ random vertices vertArray regionList colors,
       SimpleApp.colorStep random vertices vertArray regionList = Ok colors →
       length colors = length vertices
       ∧ ∀ j, j < count vertices →
           (Forall (fun region => ¬ reaches vertArray (items vertices) j region) regionList →
            readColor colors j = Some (stored defaultGray))
           ∧ (∀ before region after,
                regionList = before ++ region :: after →
                reaches vertArray (items vertices) j region →
                Forall (fun later => ¬ reaches vertArray (items vertices) j later) after →
                readColor colors j
                = Some (stored (SimpleApp.regionColor random (draws before)
                                  (App.br_id region)).1))).
Proof.
  split; [|split].
  - intros vertexCount regionList painted j Hj. unfold App.composeColors. split; [|split].
    + by rewrite length_paintRegions, length_fillDefault.
    + intros Hnone. rewrite readColor_paintRegions_none by (by rewrite ?length_fillDefault).
      by apply readColor_fillDefault.
    + intros before region after -> Hregion Hafter. split; [|split].
      * apply readColor_paintRegions_last; by rewrite ?length_fillDefault.
      * intros override Hoverride Hne. unfold App.colorHexOf. rewrite Hoverride.
        by rewrite decide_False.
      * intros Hnone Hid. unfold App.colorHexOf. rewrite Hnone. by rewrite decide_False.
  - intros st colour regionId override Hcolour%paletteButtons_offered Hstored. simpl.
    destruct Hcolour as (Hcolour%PAINT_COLORS_not_empty & _ & _).
    destruct (decide (App.selectedRegion st = regionId)) as [->|Hne].
    + rewrite lookup_insert_eq. by intros [= <-].
    + rewrite lookup_insert_ne by done. apply Hstored.
  - apply colorStep_reaches.
Qed.

(** In the buffer [applyColorsToGeometry] composes, a raw vertex whose last
    visible region has no override and an id that is the name of a member
    of [Object.prototype] is white, whatever the colour of the region is:
    the lookup in the override object finds the inherited member. *)
Theorem inherited_member_paints_white (vertexCount : nat) (painted : gmap string string)
    (j : nat) (before : list App.PaintRegion) (region : App.PaintRegion)
    (after : list App.PaintRegion) :
  j < vertexCount →
  paints j region → Forall (fun later => ¬ paints j later) after →
  painted !! App.id region = None →
  App.id region ∈ Object_prototype →
  readColor (App.composeColors vertexCount (before ++ region :: after) painted) j
  = Some (stored (mkColor (number_of_Z 1) (number_of_Z 1) (number_of_Z 1))).
Proof.
  intros Hj Hpaints Hafter Hnone Hid. unfold App.composeColors.
  rewrite readColor_paintRegions_last by (by rewrite ?length_fillDefault).
  unfold App.colorHexOf. rewrite Hnone. by rewrite decide_True.
Qed.

(** In [App.tsx] the lookup that expands an index of the answer finds what
    the table of unique vertices stored: the reverse mapping has an entry
    for the index of every vertex of the request, the entry holds exactly
    the raw vertices whose six-digit key is the key of that vertex, and
    expanding the index gives the entry. *)
Theorem decode_inverts_encode (positions : list Vertex) (c : nat) (w : Vertex) :
  (App.uniqueTable positions).2 !! c = Some w →
  ∃ l, reverseMap positions !! Z.of_nat c = Some l
       ∧ (∀ i, i ∈ l ↔ ∃ v, positions !! i = Some v
                            ∧ App.vertexKey 6 v = App.vertexKey 6 w)
       ∧ App.expandIndices (reverseMap positions) [Z.of_nat c] = l.
Proof.
  intros Hw. destruct (uniqueTable_inv positions) as (_ & Hfwd & Hbwd).
  pose proof (Hbwd _ _ Hw) as Hkey.
  destruct (uniqueCount_reached positions c) as (i0 & v0 & _ & Hi0).
  { unfold uniqueCount. by eapply lookup_lt_Some. }
  destruct (reverseMap_of_forwardMap _ _ _ Hi0) as (l & Hl & _).
  exists l. split; [done|]. split.
  - intros i. rewrite (proj2 (proj2 (reverseMap_entry _ _ _ Hl)) i). unfold forwardMap. split.
    + destruct (positions !! i) as [v|]; [|done]. simpl. intros Hv. exists v. split; [done|].
      destruct ((App.uniqueTable positions).1 !! App.vertexKey 6 v) as [c'|] eqn:Hc'; [|done].
      injection Hv as Hv. apply Nat2Z.inj in Hv. subst c'.
      destruct (Hfwd _ _ Hc') as (w' & Hw' & Hk). congruence.
    + intros (v & -> & Hk). simpl. by rewrite Hk, Hkey.
  - rewrite expandIndices_cons, Hl. simpl. unfold App.expandIndices. simpl.
    by rewrite app_nil_r.
Qed.

End Compositors.

(** C2 as stated fails for the colouring step of [SimpleApp.tsx]: a region
    of the answer that is hidden and brown is painted all the same, in the
    steel blue that its id selects; the vertex it lists is neither the
    default grey nor brown. *)
Lemma legacy_paints_hidden_region :
  (App.br_visible hiddenLegs = false ∧ App.br_color hiddenLegs = "#8B4513")
  ∧ SimpleApp.colorStep (H := Exact.runtime) (fun _ => 0%Q) [0; 0; 0]%Q [originVertex] [hiddenLegs]
    = Ok [Exact.fround (70 # 255); Exact.fround (130 # 255); Exact.fround (180 # 255)]
  ∧ stored (defaultGray (H := Exact.runtime))
    = mkColor (Exact.fround (128 # 255)) (Exact.fround (128 # 255)) (Exact.fround (128 # 255))
  ∧ stored (THREE_Color_of_string (Runtime := Exact.runtime) (App.br_color hiddenLegs))
    = mkColor (Exact.fround (139 # 255)) (Exact.fround (69 # 255)) (Exact.fround (19 # 255))
  ∧ (Qeq_bool (Exact.fround (70 # 255)) (Exact.fround (128 # 255)) = false
     ∧ Qeq_bool (Exact.fround (70 # 255)) (Exact.fround (139 # 255)) = false).
Proof. repeat split; reflexivity. Qed.

(** The composed buffer of one vertex, one region and its gold override. *)
Lemma compositor_colors_witness :
  length (App.composeColors 1 [baseRegion] goldOverride) = 1 * 3
  ∧ (Forall (fun region => ¬ paints 0 region) [baseRegion] →
     readColor (App.composeColors 1 [baseRegion] goldOverride) 0
     = Some (stored (defaultGray (H := Exact.runtime))))
  ∧ (∀ before region after,
       [baseRegion] = before ++ region :: after →
       paints 0 region →
       Forall (fun later => ¬ paints 0 later) after →
       readColor (App.composeColors 1 [baseRegion] goldOverride) 0
       = Some (stored (App.THREE_Color (App.colorHexOf goldOverride region)))
       ∧ (∀ override, goldOverride !! App.id region = Some override → override ≠ "" →
                      App.colorHexOf goldOverride region = App.ColorString override)
       ∧ (goldOverride !! App.id region = None → App.id region ∉ Object_prototype →
          App.colorHexOf goldOverride region = App.ColorString (App.color region))).
Proof.
  apply (proj1 (compositor_colors (H := Exact.runtime)) 1 [baseRegion] goldOverride 0). lia.
Defined.


(** A region with the id "constructor" and no override. *)
Lemma inherited_member_paints_white_witness :
  readColor (App.composeColors 1 ([] ++ constructorRegion :: []) ∅) 0
  = Some (stored (H := Exact.runtime) (mkColor 1%Q 1%Q 1%Q)).
Proof.
  apply (inherited_member_paints_white (H := Exact.runtime) 1 ∅ 0 [] constructorRegion []).
  - lia.
  - split; [reflexivity|by left].
  - constructor.
  - reflexivity.
  - unfold Object_prototype. by left.
Defined.

(** The first unique vertex of the seam geometry. *)
Lemma decode_inverts_encode_witness :
  ∃ l, reverseMap (items (attributes_position seamGeometry)) !! Z.of_nat 0 = Some l
       ∧ (∀ i, i ∈ l ↔ ∃ v, items (attributes_position seamGeometry) !! i = Some v
                            ∧ App.vertexKey 6 v = App.vertexKey 6 originVertex)
       ∧ App.expandIndices (reverseMap (items (attributes_position seamGeometry))) [Z.of_nat 0]
         = l.
Proof.
  apply (decode_inverts_encode (items (attributes_position seamGeometry)) 0 originVertex).
  reflexivity.
Defined.
